(** * ipinfo.js: the IP information endpoint

    A shallow embedding of [src/ipinfo.js] (one HTTP handler and its helper
    functions) and the properties of it that the specification states.

    Conventions of the embedding.
    - A JavaScript string is a [string] holding its UTF-8 encoding, so the
      literals of the source are written as they are.  The code only ever
      inspects ASCII characters, except in [getCountryFlag], which goes
      through the UTF-16 code units ([utf16_units]).
    - [Number] and [parseInt] are applied by the source to the groups of an
      address only.  They are described on runs of decimal digits (and the
      empty string); the other numeric literal forms of JavaScript (sign,
      exponent, radix prefix, surrounding white space) cannot occur in an
      address that passed the validator and are not described: the model
      maps them to [NaN].
    - Latitude, longitude and offset are IEEE 754 binary64 numbers
      ([PrimFloat.float]), as in JavaScript.
    - A call that spreads an array takes as many arguments as the engine
      allows.  The model fixes a number that every common engine accepts
      ([Unicode.max_arguments]) and does not describe longer calls.
    - The reply of the geolocation service is a record of optional fields
      ([GeoRecord]), each of the type the service documents; a field that
      is not sent reads as [undefined].
    - What the handler obtains from outside (the upstream reply, the clock,
      the locale formatting of the time, the printing of a number, the
      random pick) is a field of the record [World].
    - A response is the status, the headers the handler sets and the value
      handed to [res.json], before it is serialized. *)

From Stdlib Require Import Bool List Arith ZArith Lia Ascii String Floats.
Import ListNotations.

Set Warnings "-register-all".

Local Open Scope list_scope.
Local Open Scope string_scope.

(* ================================================================== *)
(** ** Strings *)

Module Str.

Definition digitb (c : ascii) : bool :=
  let n := nat_of_ascii c in (48 <=? n)%nat && (n <=? 57)%nat.

Definition digit_value (c : ascii) : Z := Z.of_nat (nat_of_ascii c) - 48.

Fixpoint all (p : ascii -> bool) (s : string) : bool :=
  match s with
  | EmptyString => true
  | String c s' => p c && all p s'
  end.

Fixpoint map (f : ascii -> ascii) (s : string) : string :=
  match s with
  | EmptyString => EmptyString
  | String c s' => String (f c) (map f s')
  end.

(** [s.split(sep)] for a separator of one character. *)
Fixpoint split (sep : ascii) (s : string) : list string :=
  match s with
  | EmptyString => [EmptyString]
  | String c s' =>
      if Ascii.eqb c sep then EmptyString :: split sep s'
      else match split sep s' with
           | g :: gs => String c g :: gs
           | [] => [String c EmptyString]
           end
  end.

(** [gs.join(sep)], used to state what [split] undoes. *)
Fixpoint join (sep : ascii) (gs : list string) : string :=
  match gs with
  | [] => EmptyString
  | [g] => g
  | g :: gs' => g ++ String sep (join sep gs')
  end.

(** [s.includes(t)]. *)
Fixpoint includes (s t : string) : bool :=
  prefix t s ||
  match s with
  | EmptyString => false
  | String _ s' => includes s' t
  end.

(** Removes the first occurrence of [t] in [s]: [s.replace(/t/, '')] for a
    pattern without special characters. *)
Fixpoint remove_first (t s : string) : string :=
  if prefix t s then substring (length t) (length s - length t) s
  else match s with
       | EmptyString => EmptyString
       | String c s' => String c (remove_first t s')
       end.

Definition lower (c : ascii) : ascii :=
  let n := nat_of_ascii c in
  if (65 <=? n)%nat && (n <=? 90)%nat then ascii_of_nat (n + 32) else c.

Definition upper (c : ascii) : ascii :=
  let n := nat_of_ascii c in
  if (97 <=? n)%nat && (n <=? 122)%nat then ascii_of_nat (n - 32) else c.

(** [toLowerCase] and [toUpperCase] on the ASCII letters; the case mapping
    of the other characters is not described (they are left as they are). *)
Definition toLowerCase : string -> string := map lower.
Definition toUpperCase : string -> string := map upper.

(** The white space that [trim] removes, as UTF-8 sequences: TAB, LF, VT,
    FF, CR, SP, U+00A0, U+1680, U+2000..U+200A, U+2028, U+2029, U+202F,
    U+205F, U+3000, U+FEFF. *)
Definition ws1 (c : ascii) : bool :=
  let n := nat_of_ascii c in
  ((9 <=? n)%nat && (n <=? 13)%nat) || (n =? 32)%nat.

Definition ws3 (a b c : ascii) : bool :=
  let x := nat_of_ascii a in
  let y := nat_of_ascii b in
  let z := nat_of_ascii c in
  ((x =? 225) && (y =? 154) && (z =? 128))%nat
  || ((x =? 226) && (y =? 128)
      && (((128 <=? z) && (z <=? 138)) || (z =? 168) || (z =? 169) || (z =? 175)))%nat
  || ((x =? 226) && (y =? 129) && (z =? 159))%nat
  || ((x =? 227) && (y =? 128) && (z =? 128))%nat
  || ((x =? 239) && (y =? 187) && (z =? 191))%nat.

Definition ws2 (a b : ascii) : bool :=
  ((nat_of_ascii a =? 194) && (nat_of_ascii b =? 160))%nat.

Fixpoint trimStart_fuel (fuel : nat) (s : string) : string :=
  match fuel with
  | O => s
  | S fuel' =>
      match s with
      | String a r1 =>
          if ws1 a then trimStart_fuel fuel' r1
          else match r1 with
               | String b r2 =>
                   if ws2 a b then trimStart_fuel fuel' r2
                   else match r2 with
                        | String c r3 =>
                            if ws3 a b c then trimStart_fuel fuel' r3 else s
                        | EmptyString => s
                        end
               | EmptyString => s
               end
      | EmptyString => s
      end
  end.

Definition trimStart (s : string) : string := trimStart_fuel (length s) s.

Fixpoint rev_acc (s acc : string) : string :=
  match s with
  | EmptyString => acc
  | String c s' => rev_acc s' (String c acc)
  end.

Definition rev (s : string) : string := rev_acc s EmptyString.

Fixpoint trimEnd_fuel (fuel : nat) (r : string) : string :=
  match fuel with
  | O => r
  | S fuel' =>
      match r with
      | String a r1 =>
          if ws1 a then trimEnd_fuel fuel' r1
          else match r1 with
               | String b r2 =>
                   if ws2 b a then trimEnd_fuel fuel' r2
                   else match r2 with
                        | String c r3 =>
                            if ws3 c b a then trimEnd_fuel fuel' r3 else r
                        | EmptyString => r
                        end
               | EmptyString => r
               end
      | EmptyString => r
      end
  end.

(** [trimEnd] works on the reversed string, where a white space sequence
    shows its bytes last to first. *)
Definition trimEnd (s : string) : string :=
  rev (trimEnd_fuel (length s) (rev s)).

Definition trim (s : string) : string := trimEnd (trimStart s).

End Str.

(* ================================================================== *)
(** ** Regular expressions

    The fragment of the pattern language that [ipRegex] uses, with the
    backtracking matcher of the language definition: a matcher takes the
    rest of the input and a continuation. *)

Inductive regex : Type :=
| Chr (c : ascii)                      (* a literal character *)
| Class (lo hi : ascii)                (* [lo-hi] *)
| Seq (r1 r2 : regex)                  (* r1 r2 *)
| Quant (lo hi : nat) (r : regex).     (* r{lo,hi}, greedy *)

Definition in_class (lo hi c : ascii) : bool :=
  ((nat_of_ascii lo <=? nat_of_ascii c) && (nat_of_ascii c <=? nat_of_ascii hi))%nat.

(** The matcher of [r{lo,hi}] from the matcher [m] of [r]: up to [hi] rounds
    of [m], as many as possible first, at least [lo]. *)
Fixpoint repeat_matcher (m : string -> (string -> bool) -> bool)
    (lo hi : nat) (s : string) (k : string -> bool) {struct hi} : bool :=
  match hi with
  | O => k s
  | S hi' =>
      m s (fun s' => repeat_matcher m (pred lo) hi' s' k)
      || (match lo with O => k s | S _ => false end)
  end.

Fixpoint matcher (r : regex) (s : string) (k : string -> bool) {struct r} : bool :=
  match r with
  | Chr c =>
      match s with
      | String x s' => Ascii.eqb x c && k s'
      | EmptyString => false
      end
  | Class lo hi =>
      match s with
      | String x s' => in_class lo hi x && k s'
      | EmptyString => false
      end
  | Seq r1 r2 => matcher r1 s (fun s' => matcher r2 s' k)
  | Quant lo hi r0 => repeat_matcher (matcher r0) lo hi s k
  end.

Definition at_end (rest : string) : bool :=
  match rest with EmptyString => true | String _ _ => false end.

(** [/^r$/.test(s)]: the whole of [s] is matched. *)
Definition test (r : regex) (s : string) : bool :=
  matcher r s at_end.

(** [/^(?:[0-9]{1,3}\.){3}[0-9]{1,3}$/] *)
Definition ipRegex : regex :=
  Seq (Quant 3 3 (Seq (Quant 1 3 (Class "0" "9")) (Chr ".")))
      (Quant 1 3 (Class "0" "9")).

(* ================================================================== *)
(** ** Numbers of the octet classifiers *)

Inductive jsnum : Type :=
| NaN
| Num (n : Z).

Fixpoint decimal_acc (acc : Z) (s : string) : Z :=
  match s with
  | EmptyString => acc
  | String c s' => decimal_acc (10 * acc + Str.digit_value c) s'
  end.

Definition decimal (s : string) : Z := decimal_acc 0 s.

(** [Number(s)]: 0 on the empty string, the decimal value on a run of
    digits. *)
Definition Number (s : string) : jsnum :=
  if Str.all Str.digitb s then Num (decimal s) else NaN.

Fixpoint digit_prefix (s : string) : string :=
  match s with
  | String c s' => if Str.digitb c then String c (digit_prefix s') else EmptyString
  | EmptyString => EmptyString
  end.

(** [parseInt(s)]: the value of the longest prefix of digits, [NaN] when
    there is none. [s] is [undefined] when the index read does not exist. *)
Definition parseInt (s : option string) : jsnum :=
  match s with
  | None => NaN
  | Some s =>
      match digit_prefix s with
      | EmptyString => NaN
      | d => Num (decimal d)
      end
  end.

(** Comparisons with a constant.  The left operand is an array element:
    [None] is [undefined], which compares like [NaN]. *)
Definition num_eq (x : option jsnum) (c : Z) : bool :=
  match x with Some (Num n) => (n =? c)%Z | _ => false end.

Definition num_le (x : option jsnum) (c : Z) : bool :=
  match x with Some (Num n) => (n <=? c)%Z | _ => false end.

Definition num_ge (x : option jsnum) (c : Z) : bool :=
  match x with Some (Num n) => (c <=? n)%Z | _ => false end.

Declare Scope js_scope.
Delimit Scope js_scope with js.
Notation "x === c" := (num_eq x c) (at level 70, no associativity) : js_scope.
Notation "x <== c" := (num_le x c) (at level 70, no associativity) : js_scope.
Notation "x >== c" := (num_ge x c) (at level 70, no associativity) : js_scope.

(** [ip.split('.').map(Number)] and [parts[i]]. *)
Definition octet_parts (ip : string) : list jsnum :=
  List.map Number (Str.split "." ip).

Definition at_index {A : Type} (l : list A) (i : nat) : option A := nth_error l i.

Definition first_group (ip : string) : option string :=
  at_index (Str.split "." ip) 0.

(* ================================================================== *)
(** ** The octet classifiers *)

Local Open Scope js_scope.

Definition getIPType (ip : string) : string :=
  let firstOctet := Some (parseInt (first_group ip)) in
  if firstOctet <== 127 then "Class A 🏢 (Large networks)"
  else if firstOctet <== 191 then "Class B 🏢 (Medium networks)"
  else if firstOctet <== 223 then "Class C 🏠 (Small networks)"
  else if firstOctet <== 239 then "Class D 📡 (Multicast)"
  else "Class E 🔧 (Experimental)".

Definition isPrivateIP (ip : string) : bool :=
  let parts := octet_parts ip in
  (at_index parts 0 === 10)
  || ((at_index parts 0 === 172) && (at_index parts 1 >== 16) && (at_index parts 1 <== 31))
  || ((at_index parts 0 === 192) && (at_index parts 1 === 168)).

Definition isReservedIP (ip : string) : bool :=
  let parts := octet_parts ip in
  (at_index parts 0 === 0) || (at_index parts 0 >== 224).

Definition isBogonIP (ip : string) : bool :=
  let parts := octet_parts ip in
  (at_index parts 0 === 127)
  || ((at_index parts 0 === 169) && (at_index parts 1 === 254)).

Definition assessRisk (ip : string) : string :=
  if isPrivateIP ip then "🟢 Safe (Private Network)"
  else if isReservedIP ip then "🟡 Caution (Reserved IP)"
  else if isBogonIP ip then "🟡 Warning (Bogon IP)"
  else "🟡 Moderate (Public IP)".

Definition getSecurityRecommendations (ip : string) : list string :=
  if isPrivateIP ip then ["✅ Safe for internal networks"]
  else if isReservedIP ip then ["⚠️ This IP range is reserved"]
  else ["🔒 Use firewall protection"; "🛡️ Enable security monitoring"; "🌐 Use VPN for privacy"].

Definition classifyNetwork (ip : string) : string :=
  let firstOctet := Some (parseInt (first_group ip)) in
  if firstOctet <== 127 then "Large network 🏢 (16M+ hosts)"
  else if firstOctet <== 191 then "Medium network 🏢 (65K hosts)"
  else "Small network 🏠 (254 hosts)".

Definition classifyNetworkSize (ip : string) : string :=
  let firstOctet := Some (parseInt (first_group ip)) in
  if firstOctet === 10 then "Very Large 🏢 (Private)"
  else if firstOctet <== 127 then "Massive 🌐 (16M hosts)"
  else if firstOctet <== 191 then "Large 🏢 (65K hosts)"
  else "Small 🏠 (254 hosts)".

Local Close Scope js_scope.

(* ================================================================== *)
(** ** Values, exceptions and the outside world *)

(** The values the handler builds and sends. [VFun] is a function found on
    [Object.prototype]; an object is the list of its own enumerable
    properties in insertion order. *)
Inductive value : Type :=
| VUndefined
| VNull
| VBool (b : bool)
| VNum (x : float)
| VStr (s : string)
| VArr (items : list value)
| VObj (fields : list (string * value))
| VFun (name : string).

(** An exception, with the text of its [message]. *)
Inductive exn : Type :=
| Error (message : string).

Definition message (e : exn) : string :=
  match e with Error m => m end.

Inductive result (A : Type) : Type :=
| Ok (a : A)
| Thrown (e : exn).

Arguments Ok {A} a.
Arguments Thrown {A} e.

Definition bind {A B : Type} (m : result A) (f : A -> result B) : result B :=
  match m with
  | Ok a => f a
  | Thrown e => Thrown e
  end.

Notation "x <- m ;; k" := (bind m (fun x => k))
  (at level 61, m at next level, right associativity).

(** The reply of the geolocation service: the fields the handler reads of
    [response.data], each absent ([None]) or of the type the service gives
    it. *)
Record GeoRecord : Type := {
  geo_status : option string;
  geo_message : option string;
  geo_country : option string;
  geo_countryCode : option string;
  geo_regionName : option string;
  geo_city : option string;
  geo_zip : option string;
  geo_lat : option float;
  geo_lon : option float;
  geo_timezone : option string;
  geo_offset : option float;
  geo_dst : option bool;
  geo_as : option string;
  geo_org : option string;
  geo_isp : option string;
  geo_reverse : option string
}.

(** What a request finds outside the handler. *)
Record World : Type := {
  (** [axios.get(url)]: it throws, or gives a response whose [data] is
      [null] ([None]) or carries the fields of a [GeoRecord]; a body that
      is no JSON comes as a text, of which every property the handler
      reads is [undefined]: the record without any field *)
  axios_get : string -> result (option GeoRecord);
  (** [new Date().toISOString()] *)
  date_toISOString : string;
  (** [new Date().toLocaleString("en-US", { timeZone })]; it throws a
      RangeError on a time zone it does not know *)
  date_toLocaleString : option string -> result string;
  (** the text of a number in a template literal *)
  number_toString : float -> string;
  (** [Math.floor(Math.random() * facts.length)] *)
  random_index : nat
}.

Record Request : Type := {
  method : string;
  query_ip : option string;
  x_forwarded_for : option string;
  x_real_ip : option string
}.

Record Response : Type := {
  status : nat;
  headers : list (string * string);
  body : option value
}.

(* ------------------------------------------------------------------ *)
(** *** Truthiness, defaults and templates *)

Definition is_nan (x : float) : bool := negb (PrimFloat.eqb x x).

Definition truthy_num (x : float) : bool :=
  negb (PrimFloat.eqb x 0 || is_nan x).

Definition truthy (v : value) : bool :=
  match v with
  | VUndefined | VNull => false
  | VBool b => b
  | VNum x => truthy_num x
  | VStr s => negb (s =? "")
  | VArr _ | VObj _ | VFun _ => true
  end.

Definition of_str (x : option string) : value :=
  match x with Some s => VStr s | None => VUndefined end.

Definition of_num (x : option float) : value :=
  match x with Some n => VNum n | None => VUndefined end.

Definition of_bool (x : option bool) : value :=
  match x with Some b => VBool b | None => VUndefined end.

(** [a || b] *)
Definition or_else (a b : value) : value := if truthy a then a else b.

(** [x || dflt] on an optional string *)
Definition or_str (x : option string) (dflt : string) : string :=
  match x with
  | Some s => if s =? "" then dflt else s
  | None => dflt
  end.

(** [`${x}`] *)
Definition tmpl (x : option string) : string :=
  match x with Some s => s | None => "undefined" end.

Definition tmpl_num (w : World) (x : option float) : string :=
  match x with Some n => number_toString w n | None => "undefined" end.

Fixpoint assoc {A : Type} (k : string) (l : list (string * A)) : option A :=
  match l with
  | [] => None
  | (k', v) :: l' => if k =? k' then Some v else assoc k l'
  end.

(** The properties every object literal inherits from [Object.prototype]. *)
Definition prototype_methods : list string :=
  ["constructor"; "__defineGetter__"; "__defineSetter__"; "hasOwnProperty";
   "__lookupGetter__"; "__lookupSetter__"; "isPrototypeOf";
   "propertyIsEnumerable"; "toString"; "valueOf"; "toLocaleString"].

Definition inherited (k : string) : value :=
  if k =? "__proto__" then VObj []
  else if existsb (String.eqb k) prototype_methods then VFun k
  else VUndefined.

(** [table[key]] on an object literal: the key is turned into a string, an
    own property wins, then the inherited ones. *)
Definition lookup (table : list (string * value)) (key : option string) : value :=
  match assoc (tmpl key) table with
  | Some v => v
  | None => inherited (tmpl key)
  end.

Definition strs (l : list (string * string)) : list (string * value) :=
  List.map (fun kv => (fst kv, VStr (snd kv))) l.

(* ------------------------------------------------------------------ *)
(** *** Code points *)

Module Unicode.

Local Open Scope N_scope.

(** The code points of a UTF-8 string; a byte that starts no sequence
    reads as U+FFFD. *)
Fixpoint decode (s : string) : list N :=
  match s with
  | EmptyString => []
  | String b0 r0 =>
      let n0 := N_of_ascii b0 in
      if n0 <? 128 then n0 :: decode r0
      else
        match r0 with
        | EmptyString => [65533]
        | String b1 r1 =>
            let n1 := N_of_ascii b1 mod 64 in
            if (192 <=? n0) && (n0 <? 224) then
              ((n0 - 192) * 64 + n1) :: decode r1
            else
              match r1 with
              | EmptyString => 65533 :: decode r0
              | String b2 r2 =>
                  let n2 := N_of_ascii b2 mod 64 in
                  if (224 <=? n0) && (n0 <? 240) then
                    ((n0 - 224) * 4096 + n1 * 64 + n2) :: decode r2
                  else
                    match r2 with
                    | EmptyString => 65533 :: decode r0
                    | String b3 r3 =>
                        let n3 := N_of_ascii b3 mod 64 in
                        if (240 <=? n0) && (n0 <? 248) then
                          ((n0 - 240) * 262144 + n1 * 4096 + n2 * 64 + n3)
                            :: decode r3
                        else 65533 :: decode r0
                    end
              end
        end
  end.

(** The UTF-16 code units of a code point. *)
Definition units_of (cp : N) : list N :=
  if cp <? 65536 then [cp]
  else [55296 + (cp - 65536) / 1024; 56320 + (cp - 65536) mod 1024].

(** [s.split('')]: the code units of [s], each a string of length one
    whose [charCodeAt()] is the unit. *)
Definition utf16_units (s : string) : list N :=
  flat_map units_of (decode s).

Definition byte (n : N) : string := String (ascii_of_N n) EmptyString.

Definition encode (cp : N) : string :=
  if cp <? 128 then byte cp
  else if cp <? 2048 then byte (192 + cp / 64) ++ byte (128 + cp mod 64)
  else if cp <? 65536 then
    byte (224 + cp / 4096) ++ byte (128 + (cp / 64) mod 64)
      ++ byte (128 + cp mod 64)
  else
    byte (240 + cp / 262144) ++ byte (128 + (cp / 4096) mod 64)
      ++ byte (128 + (cp / 64) mod 64) ++ byte (128 + cp mod 64).

(** The number of arguments that a call can spread.  The language sets no
    limit; an engine does, which depends on the engine and on the stack it
    is given, and a call with more arguments throws a RangeError.  The
    model takes 65536, which every common engine accepts (it is the fixed
    limit of JavaScriptCore; V8 and SpiderMonkey take more).  Calls with
    more arguments are not described: the model makes them throw, as every
    engine does from some number on. *)
Definition max_arguments : N := 65536.

(** [String.fromCodePoint(...cps)]: a RangeError when there are more
    arguments than a call can take, and above U+10FFFF. *)
Definition fromCodePoint (cps : list N) : result string :=
  if N.of_nat (List.length cps) <=? max_arguments then
    if forallb (fun cp => cp <=? 1114111) cps
    then Ok (String.concat "" (List.map encode cps))
    else Thrown (Error "Invalid code point")
  else Thrown (Error "Maximum call stack size exceeded").

End Unicode.

(* ------------------------------------------------------------------ *)
(** *** The helper functions *)

(** [countryCode.toUpperCase()]: only a string has the method. *)
Definition call_toUpperCase (v : value) : result string :=
  match v with
  | VStr s => Ok (Str.toUpperCase s)
  | _ => Thrown (Error "countryCode.toUpperCase is not a function")
  end.

(** The body of the [try] block of [getCountryFlag]. *)
Definition flag_glyph (countryCode : value) : result string :=
  upper <- call_toUpperCase countryCode ;;
  let codePoints :=
    List.map (fun char => (127397 + char)%N) (Unicode.utf16_units upper) in
  Unicode.fromCodePoint codePoints.

Definition getCountryFlag (countryCode : value) : string :=
  if negb (truthy countryCode) then "🏴"
  else
    match flag_glyph countryCode with
    | Ok flag => flag
    | Thrown _ => "🏴"
    end.

(** [!isp] on an optional string *)
Definition absent (x : option string) : bool :=
  match x with
  | Some s => s =? ""
  | None => true
  end.

Definition classifyISP (isp : option string) : string :=
  if absent isp then "Unknown"
  else
    let ispLower := Str.toLowerCase (tmpl isp) in
    if Str.includes ispLower "mobile" || Str.includes ispLower "wireless"
    then "📱 Mobile Carrier"
    else if Str.includes ispLower "comcast" || Str.includes ispLower "att"
            || Str.includes ispLower "verizon"
    then "🏠 Residential ISP"
    else if Str.includes ispLower "google" || Str.includes ispLower "aws"
            || Str.includes ispLower "azure"
    then "☁️ Cloud Provider"
    else if Str.includes ispLower "host" || Str.includes ispLower "server"
    then "🏢 Hosting Provider"
    else if Str.includes ispLower "education" || Str.includes ispLower "university"
    then "🎓 Educational"
    else if Str.includes ispLower "government" || Str.includes ispLower "gov"
    then "🏛️ Government"
    else "🌐 Internet Service Provider".

Definition isMobileCarrier (isp : option string) : string :=
  if absent isp then "Unknown"
  else
    let mobileKeywords :=
      ["mobile"; "wireless"; "cellular"; "vodafone"; "t-mobile"; "verizon wireless"] in
    if existsb (fun keyword => Str.includes (Str.toLowerCase (tmpl isp)) keyword)
         mobileKeywords
    then "📱 Yes" else "❌ No".

Definition isHostingProvider (isp : option string) : string :=
  if absent isp then "Unknown"
  else
    let hostingKeywords :=
      ["host"; "server"; "data center"; "cloud"; "amazon"; "google cloud";
       "digitalocean"; "vultr"] in
    if existsb (fun keyword => Str.includes (Str.toLowerCase (tmpl isp)) keyword)
         hostingKeywords
    then "🏢 Yes" else "❌ No".

Definition getContinent (countryCode : option string) : value :=
  let continents := strs
    [("US", "North America 🇺🇸"); ("CA", "North America 🇨🇦"); ("MX", "North America 🇲🇽");
     ("GB", "Europe 🇬🇧"); ("DE", "Europe 🇩🇪"); ("FR", "Europe 🇫🇷"); ("IT", "Europe 🇮🇹");
     ("ES", "Europe 🇪🇸");
     ("CN", "Asia 🇨🇳"); ("JP", "Asia 🇯🇵"); ("IN", "Asia 🇮🇳"); ("KR", "Asia 🇰🇷");
     ("SG", "Asia 🇸🇬");
     ("BR", "South America 🇧🇷"); ("AR", "South America 🇦🇷"); ("CL", "South America 🇨🇱");
     ("AU", "Oceania 🇦🇺"); ("NZ", "Oceania 🇳🇿");
     ("ZA", "Africa 🇿🇦"); ("EG", "Africa 🇪🇬"); ("NG", "Africa 🇳🇬"); ("KE", "Africa 🇰🇪")] in
  or_else (lookup continents countryCode) (VStr "Unknown 🌍").

Definition getLanguages (countryCode : option string) : value :=
  let languages := strs
    [("US", "English 🇺🇸"); ("GB", "English 🇬🇧"); ("CN", "Chinese 🇨🇳"); ("JP", "Japanese 🇯🇵");
     ("DE", "German 🇩🇪"); ("FR", "French 🇫🇷"); ("ES", "Spanish 🇪🇸"); ("IT", "Italian 🇮🇹");
     ("IN", "Hindi, English 🇮🇳"); ("BR", "Portuguese 🇧🇷"); ("RU", "Russian 🇷🇺");
     ("KR", "Korean 🇰🇷"); ("AR", "Arabic 🇸🇦"); ("NL", "Dutch 🇳🇱")] in
  or_else (lookup languages countryCode) (VStr "Various languages").

Definition getCurrencyInfo (countryCode : option string) : value :=
  let currencies := strs
    [("US", "USD 💵"); ("GB", "GBP 💷"); ("EU", "EUR 💶");
     ("JP", "JPY 💴"); ("CN", "CNY 💰"); ("IN", "INR 💸");
     ("CA", "CAD 💵"); ("AU", "AUD 💵"); ("CH", "CHF 💵");
     ("BR", "BRL 💵"); ("RU", "RUB 💵"); ("KR", "KRW 💵")] in
  or_else (lookup currencies countryCode) (VStr "Local currency 💵").

Definition getCallingCode (countryCode : option string) : value :=
  let codes := strs
    [("US", "+1"); ("GB", "+44"); ("CN", "+86"); ("JP", "+81"); ("IN", "+91");
     ("DE", "+49"); ("FR", "+33"); ("IT", "+39"); ("ES", "+34"); ("BR", "+55")] in
  or_else (lookup codes countryCode) (VStr "Unknown").

Definition getRegionalEmoji (countryCode : option string) : value :=
  let emojis := strs
    [("US", "🗽"); ("GB", "👑"); ("CN", "🐉"); ("JP", "🗾"); ("IN", "🐘");
     ("FR", "🥖"); ("IT", "🍕"); ("DE", "🍺"); ("BR", "💃"); ("AU", "🦘")] in
  or_else (lookup emojis countryCode) (VStr "🌍").

Definition estimateUsers (asn : option string) : string :=
  if absent asn then "Unknown"
  else if Str.includes (tmpl asn) "AS15169" then "Millions 👑 (Google)"
  else if Str.includes (tmpl asn) "AS32934" then "Millions 👑 (Facebook)"
  else if Str.includes (tmpl asn) "AS8075" then "Millions 👑 (Microsoft)"
  else if Str.includes (tmpl asn) "AS4134" then "Millions 👑 (China Telecom)"
  else "Thousands to Millions 👥".

Definition getTimezoneEmoji (timezone : option string) : string :=
  if absent timezone then "🕒"
  else if Str.includes (tmpl timezone) "Pacific" then "🌊"
  else if Str.includes (tmpl timezone) "America" then "🇺🇸"
  else if Str.includes (tmpl timezone) "Europe" then "🇪🇺"
  else if Str.includes (tmpl timezone) "Asia" then "🌏"
  else if Str.includes (tmpl timezone) "Australia" then "🇦🇺"
  else "🕒".

(** [!lat] on an optional number: absent, zero or NaN *)
Definition falsy_num (lat : option float) : bool := negb (truthy (of_num lat)).

Definition the_num (lat : option float) : float :=
  match lat with Some x => x | None => PrimFloat.nan end.

Local Open Scope float_scope.

Definition calculateDistanceFromEquator (lat : option float) : string :=
  if falsy_num lat then "Unknown"
  else
    let distance := PrimFloat.abs (the_num lat) in
    if distance <? 10 then "Near equator 🌴"
    else if distance <? 30 then "Tropical zone ☀️"
    else if distance <? 60 then "Temperate zone 🌸"
    else "Polar zone ❄️".

Definition getHemisphere (lat : option float) : string :=
  if falsy_num lat then "Unknown"
  else if 0 <=? the_num lat then "Northern 🌎" else "Southern 🌍".

Definition getClimateZone (lat : option float) : string :=
  if falsy_num lat then "Unknown"
  else
    let absLat := PrimFloat.abs (the_num lat) in
    if absLat <? 23.5 then "Tropical 🌴"
    else if absLat <? 35 then "Subtropical ☀️"
    else if absLat <? 60 then "Temperate 🌸"
    else "Polar ❄️".

Local Close Scope float_scope.

Definition arr (l : list string) : value := VArr (List.map VStr l).

Definition getFamousLandmarks (country city : option string) : value :=
  if absent country then VStr "Unknown"
  else
    let landmarks :=
      [("United States", arr ["Statue of Liberty 🗽"; "Golden Gate Bridge 🌉"; "White House 🏛️"]);
       ("France", arr ["Eiffel Tower 🗼"; "Louvre Museum 🎨"; "Notre Dame Cathedral ⛪"]);
       ("China", arr ["Great Wall 🐉"; "Forbidden City 🏯"; "Terracotta Army ⚔️"]);
       ("Japan", arr ["Mount Fuji 🗻"; "Tokyo Tower 🗼"; "Fushimi Inari Shrine ⛩️"]);
       ("India", arr ["Taj Mahal 🕌"; "Gateway of India 🏛️"; "Red Fort 🏰"]);
       ("United Kingdom", arr ["Big Ben 🕰️"; "London Eye 🎡"; "Buckingham Palace 👑"]);
       ("Italy", arr ["Colosseum 🏛️"; "Leaning Tower 🗼"; "Venice Canals 🛶"]);
       ("Brazil", arr ["Christ the Redeemer ✝️"; "Amazon Rainforest 🌴"; "Copacabana Beach 🏖️"])] in
    or_else (lookup landmarks country) (arr ["Local attractions 🏞️"]).

Definition push_if (c : bool) (x : string) (notes : list string) : list string :=
  if c then notes ++ [x] else notes.

Definition isp_includes (d : GeoRecord) (t : string) : bool :=
  negb (absent (geo_isp d)) && Str.includes (tmpl (geo_isp d)) t.

Definition str_is (x : option string) (s : string) : bool :=
  match x with Some x => x =? s | None => false end.

Definition getSpecialNotes (ip : string) (ipData : GeoRecord) : list string :=
  let notes := [] in
  let notes := push_if (isPrivateIP ip) "🔒 Private network IP" notes in
  let notes := push_if (isp_includes ipData "Google") "☁️ Google infrastructure" notes in
  let notes := push_if (isp_includes ipData "Amazon") "☁️ AWS cloud services" notes in
  let notes := push_if (str_is (geo_country ipData) "United States")
                 "🇺🇸 US-based infrastructure" notes in
  let notes := push_if (str_is (geo_country ipData) "China")
                 "🇨🇳 China-based infrastructure" notes in
  push_if (Nat.eqb (List.length notes) 0) "🌐 Standard public IP address" notes.

Definition getRandomFunFact (w : World) (ipData : GeoRecord) : value :=
  let facts :=
    ["🌐 IP stands for Internet Protocol";
     "🔢 IPv4 has 4.3 billion possible addresses";
     "🚀 IPv6 has 340 undecillion possible addresses";
     "📡 The first IP address was 0.0.0.0";
     "🔒 Your IP can reveal your approximate location";
     "🌍 There are IP addresses in space (satellites)";
     "💾 IP addresses are assigned by IANA";
     "🕵️ IP tracing is used for security and analytics"] in
  of_str (at_index facts (random_index w)).

(* ------------------------------------------------------------------ *)
(** *** The composed payload *)

Section Compose.

Variable w : World.
Variable ip : string.
Variable ipData : GeoRecord.

Definition step1 : value :=
  VObj [("ip", VStr ip);
        ("status", VStr "✅ Valid IPv4 Address");
        ("version", VStr "IPv4");
        ("type", VStr (getIPType ip));
        ("reverse_dns", VStr (or_str (geo_reverse ipData) "Not available"));
        ("query_status", of_str (geo_status ipData))].

Definition map_url : string :=
  "https://maps.google.com/?q=" ++ tmpl_num w (geo_lat ipData) ++ ","
    ++ tmpl_num w (geo_lon ipData).

Definition step2 : value :=
  VObj [("country", VStr (tmpl (geo_country ipData) ++ " "
                            ++ getCountryFlag (of_str (geo_countryCode ipData))));
        ("country_code", of_str (geo_countryCode ipData));
        ("region", of_str (geo_regionName ipData));
        ("city", of_str (geo_city ipData));
        ("zip_code", of_str (geo_zip ipData));
        ("coordinates",
          VObj [("latitude", of_num (geo_lat ipData));
                ("longitude", of_num (geo_lon ipData));
                ("accuracy", VStr "City level");
                ("map_url", VStr map_url)]);
        ("continent", getContinent (geo_countryCode ipData))].

Definition step3 : result value :=
  current_time <- date_toLocaleString w (geo_timezone ipData) ;;
  Ok (VObj [("timezone", of_str (geo_timezone ipData));
            ("current_time", VStr current_time);
            ("utc_offset", of_num (geo_offset ipData));
            ("is_dst", VStr (if truthy (of_bool (geo_dst ipData)) then "Yes" else "No"));
            ("timezone_emoji", VStr (getTimezoneEmoji (geo_timezone ipData)))]).

Definition step4 : value :=
  VObj [("threat_level", VStr "🟡 Medium (Public IP)");
        ("is_private", VStr (if isPrivateIP ip then "✅ Yes" else "❌ No"));
        ("is_reserved", VStr (if isReservedIP ip then "✅ Yes" else "❌ No"));
        ("is_bogon", VStr (if isBogonIP ip then "✅ Yes" else "❌ No"));
        ("risk_assessment", VStr (assessRisk ip));
        ("recommendations", arr (getSecurityRecommendations ip))].

Definition step5 : value :=
  VObj [("asn", VStr (or_str (geo_as ipData) "Not available"));
        ("organization", VStr (or_str (geo_org ipData) "Unknown"));
        ("isp", VStr (or_str (geo_isp ipData) "Unknown"));
        ("service_type", VStr (classifyISP (geo_isp ipData)));
        ("network_range",
          if absent (geo_as ipData) then VStr "Unknown"
          else of_str (at_index (Str.split " " (tmpl (geo_as ipData))) 0))].

Definition step6 : value :=
  VObj [("internet_service_provider", of_str (geo_isp ipData));
        ("organization_name", of_str (geo_org ipData));
        ("autonomous_system", of_str (geo_as ipData));
        ("network_type", VStr (classifyNetwork ip));
        ("mobile_carrier", VStr (isMobileCarrier (geo_isp ipData)));
        ("hosting_provider", VStr (isHostingProvider (geo_isp ipData)))].

Definition step7 : value :=
  VObj [("continent", getContinent (geo_countryCode ipData));
        ("languages", getLanguages (geo_countryCode ipData));
        ("currency", getCurrencyInfo (geo_countryCode ipData));
        ("calling_code", getCallingCode (geo_countryCode ipData));
        ("regional_emoji", getRegionalEmoji (geo_countryCode ipData))].

Definition step8 : value :=
  VObj [("ip_class", VStr (getIPType ip));
        ("estimated_users", VStr (estimateUsers (geo_as ipData)));
        ("network_size", VStr (classifyNetworkSize ip));
        ("routing_status", VStr "Global internet routing");
        ("special_notes", arr (getSpecialNotes ip ipData))].

Definition step9 : value :=
  VObj [("distance_from_equator", VStr (calculateDistanceFromEquator (geo_lat ipData)));
        ("hemisphere", VStr (getHemisphere (geo_lat ipData)));
        ("famous_landmarks", getFamousLandmarks (geo_country ipData) (geo_city ipData));
        ("climate_zone", VStr (getClimateZone (geo_lat ipData)))].

Definition step10 : value :=
  VArr [VStr ("📍 Located in " ++ tmpl (geo_city ipData) ++ ", "
                ++ tmpl (geo_country ipData) ++ " "
                ++ getCountryFlag (of_str (geo_countryCode ipData)));
        VStr ("🌐 ISP: " ++ or_str (geo_isp ipData) "Unknown");
        VStr ("🕒 Timezone: " ++ tmpl (geo_timezone ipData));
        VStr ("🏢 Organization: " ++ or_str (geo_org ipData) "Not specified");
        VStr ("📡 Network: " ++ or_str (geo_as ipData) "Unknown");
        VStr "💡 IP addresses route internet traffic globally!";
        VStr "🔒 Always protect your IP address for security";
        VStr ("🌍 This IP is in the " ++ getHemisphere (geo_lat ipData) ++ " hemisphere");
        getRandomFunFact w ipData].

Definition steps : result value :=
  s3 <- step3 ;;
  Ok (VObj [("1️⃣ 🌍 Basic IP Information", step1);
            ("2️⃣ 📍 Geolocation Details", step2);
            ("3️⃣ 🕒 Timezone Information", s3);
            ("4️⃣ 🛡️ Security Assessment", step4);
            ("5️⃣ 🌐 Network Information", step5);
            ("6️⃣ 🏢 ISP & Organization", step6);
            ("7️⃣ 💰 Regional Info", step7);
            ("8️⃣ 📊 Technical Analysis", step8);
            ("9️⃣ 🎯 Distance & Location", step9);
            ("🔟 💡 Fun Facts & Trivia", step10)]).

Definition summary : value :=
  VObj [("location", VStr (or_str (geo_city ipData) "Unknown" ++ ", "
                             ++ or_str (geo_country ipData) "Unknown" ++ " "
                             ++ getCountryFlag (of_str (geo_countryCode ipData))));
        ("isp", VStr (or_str (geo_isp ipData) "Unknown"));
        ("coordinates", VStr (tmpl_num w (geo_lat ipData) ++ ", "
                                ++ tmpl_num w (geo_lon ipData)));
        ("timezone", of_str (geo_timezone ipData));
        ("security_level", VStr (assessRisk ip));
        ("status", VStr "✅ Analysis complete - 10 steps detailed")].

Definition quick_links : value :=
  VObj [("view_on_map", VStr map_url);
        ("whois_lookup", VStr ("https://whois.domaintools.com/" ++ ip));
        ("speed_test", VStr "https://speedtest.net")].

Definition completeInfo : result value :=
  the_steps <- steps ;;
  Ok (VObj [("success", VBool true);
            ("message", VStr "🎉 IP information retrieved successfully!");
            ("requested_ip", VStr ip);
            ("timestamp", VStr (date_toISOString w));
            ("api_version", VStr "1.0");
            ("steps", the_steps);
            ("summary", summary);
            ("quick_links", quick_links)]).

End Compose.

(* ------------------------------------------------------------------ *)
(** *** The handler *)

(** The address of the request: the [ip] query parameter as it is, else
    the first entry of a forwarding header, cleaned, else 8.8.8.8. *)
Definition resolve (req : Request) : string :=
  if negb (absent (query_ip req)) then tmpl (query_ip req)
  else
    let ip :=
      if negb (absent (x_forwarded_for req)) then tmpl (x_forwarded_for req)
      else if negb (absent (x_real_ip req)) then tmpl (x_real_ip req)
      else "8.8.8.8" in
    let ip := Str.trim (tmpl (at_index (Str.split "," ip) 0)) in
    Str.remove_first "::ffff:" ip.

Definition cors : list (string * string) :=
  [("Access-Control-Allow-Origin", "*");
   ("Access-Control-Allow-Methods", "GET, OPTIONS");
   ("Access-Control-Allow-Headers", "Content-Type")].

(** [res.status(code).json(v)] *)
Definition json (code : nat) (v : value) : Response :=
  {| status := code; headers := cors; body := Some v |}.

Definition invalid_format : value :=
  VObj [("error", VStr "❌ Invalid IP address format");
        ("tip", VStr "Please provide a valid IPv4 address like 8.8.8.8");
        ("example", VStr "https://your-api.vercel.app/api/ipinfo?ip=8.8.8.8")].

Definition upstream_rejection (ipData : GeoRecord) : value :=
  VObj [("error", VStr "❌ Failed to fetch IP information");
        ("message", VStr (or_str (geo_message ipData) "Unknown error"))].

Definition failure (error : exn) : value :=
  VObj [("error", VStr "🚨 Failed to fetch IP information");
        ("message", VStr (message error));
        ("tip", VStr "Please check the IP address and try again");
        ("support", VStr "Use format: ?ip=8.8.8.8 or no parameter for your IP")].

(** Reading a property of [response.data]: a TypeError on [null]. *)
Definition data_of (data : option GeoRecord) : result GeoRecord :=
  match data with
  | Some ipData => Ok ipData
  | None => Thrown (Error "Cannot read properties of null (reading 'status')")
  end.

(** The body of the [try] block; what is written to the console is left
    out. *)
Definition try_block (w : World) (req : Request) : result Response :=
  let ip := resolve req in
  if negb (test ipRegex ip) then Ok (json 400 invalid_format)
  else
    data <- axios_get w ("http://ip-api.com/json/" ++ ip) ;;
    ipData <- data_of data ;;
    if negb (str_is (geo_status ipData) "success")
    then Ok (json 400 (upstream_rejection ipData))
    else
      info <- completeInfo w ip ipData ;;
      Ok (json 200 info).

Definition handler (w : World) (req : Request) : Response :=
  if method req =? "OPTIONS" then {| status := 200; headers := cors; body := None |}
  else if negb (method req =? "GET") then
    json 405 (VObj [("error", VStr "❌ Method not allowed");
                    ("message", VStr "Only GET requests are supported")])
  else
    match try_block w req with
    | Ok res => res
    | Thrown error => json 500 (failure error)
    end.

(** Property access on a built value, for the statements below. *)
Definition get (key : string) (v : value) : value :=
  match v with
  | VObj fields => match assoc key fields with Some x => x | None => VUndefined end
  | _ => VUndefined
  end.

Definition keys (v : value) : list string :=
  match v with
  | VObj fields => List.map fst fields
  | _ => []
  end.

(* ================================================================== *)
(** ** The specification's reading of the validator *)

(** The strings a pattern matches, without reference to the matcher. *)
Inductive matches : regex -> string -> Prop :=
| M_chr c : matches (Chr c) (String c EmptyString)
| M_class lo hi x :
    in_class lo hi x = true -> matches (Class lo hi) (String x EmptyString)
| M_seq r1 r2 a b :
    matches r1 a -> matches r2 b -> matches (Seq r1 r2) (a ++ b)
| M_done lo r : matches (Quant lo 0 r) EmptyString
| M_stop hi r : matches (Quant 0 hi r) EmptyString
| M_more lo hi r a b :
    matches r a -> matches (Quant (pred lo) hi r) b ->
    matches (Quant lo (S hi) r) (a ++ b).

(** One to three decimal digits. *)
Definition digit_group (g : string) : bool :=
  (1 <=? length g)%nat && (length g <=? 3)%nat && Str.all Str.digitb g.

(** Four dot-separated groups of one to three decimal digits. *)
Definition dotted_quad (s : string) : bool :=
  match Str.split "." s with
  | [a; b; c; d] => digit_group a && digit_group b && digit_group c && digit_group d
  | _ => false
  end.

(* ================================================================== *)
(** ** Notions of the statements, and sample data *)

Definition free_of (sep : ascii) (g : string) : bool :=
  Str.all (fun c => negb (Ascii.eqb c sep)) g.

Definition matcher_correct (r : regex) (m : string -> (string -> bool) -> bool) : Prop :=
  forall s k,
    m s k = true <-> exists a b, s = a ++ b /\ matches r a /\ k b = true.

Ltac inv H := inversion H; subst; clear H.

(** The shape the specification describes, spelled out. *)
Definition quad_of (s g1 g2 g3 g4 : string) : Prop :=
  s = g1 ++ "." ++ g2 ++ "." ++ g3 ++ "." ++ g4
  /\ digit_group g1 = true /\ digit_group g2 = true
  /\ digit_group g3 = true /\ digit_group g4 = true.

(** The first octet as the specification means it: the decimal value of
    the text before the first dot. *)
Definition first_octet (ip : string) : Z :=
  match Str.split "." ip with
  | g :: _ => decimal g
  | [] => 0
  end.

Definition second_octet (ip : string) : Z :=
  match Str.split "." ip with
  | _ :: g :: _ => decimal g
  | _ => 0
  end.

(** The class of a first octet, in the specification's words. *)
Definition class_of (n : Z) : string :=
  if (n <=? 127)%Z then "Class A 🏢 (Large networks)"
  else if (n <=? 191)%Z then "Class B 🏢 (Medium networks)"
  else if (n <=? 223)%Z then "Class C 🏠 (Small networks)"
  else if (n <=? 239)%Z then "Class D 📡 (Multicast)"
  else "Class E 🔧 (Experimental)".

Definition get_request (ip : string) : Request :=
  {| method := "GET"; query_ip := Some ip;
     x_forwarded_for := None; x_real_ip := None |}.

Definition google : GeoRecord :=
  {| geo_status := Some "success"; geo_message := None;
     geo_country := Some "United States"; geo_countryCode := Some "US";
     geo_regionName := Some "Virginia"; geo_city := Some "Ashburn";
     geo_zip := Some "20149"; geo_lat := Some 39.03125%float;
     geo_lon := Some (-77.5)%float; geo_timezone := Some "America/New_York";
     geo_offset := Some (-14400)%float; geo_dst := Some true;
     geo_as := Some "AS15169 Google LLC"; geo_org := Some "Google Public DNS";
     geo_isp := Some "Google LLC"; geo_reverse := Some "dns.google" |}.

(** A world whose geolocation service gives [reply] and whose clock and
    formatting are fixed. *)
Definition world_of (reply : result (option GeoRecord)) : World :=
  {| axios_get := fun _ => reply;
     date_toISOString := "2024-01-01T00:00:00.000Z";
     date_toLocaleString := fun _ => Ok "1/1/2024, 12:00:00 AM";
     number_toString := fun _ => "0";
     random_index := 3 |}.

Definition risk_labels : list string :=
  ["🟢 Safe (Private Network)"; "🟡 Caution (Reserved IP)";
   "🟡 Warning (Bogon IP)"; "🟡 Moderate (Public IP)"].

Definition public_recommendations : list string :=
  ["🔒 Use firewall protection"; "🛡️ Enable security monitoring";
   "🌐 Use VPN for privacy"].

Definition upper_letter (c : ascii) : bool :=
  ((65 <=? nat_of_ascii c) && (nat_of_ascii c <=? 90))%nat.

(** U+1F1E6 .. U+1F1FF, the regional indicator symbols. *)
Definition regional_indicator (cp : N) : bool :=
  ((127462 <=? cp) && (cp <=? 127487))%N.

(** The string whose code points are those of the two letters, each moved
    by 127397. *)
Definition offset_flag (c1 c2 : ascii) : string :=
  Unicode.encode (127397 + N_of_ascii c1) ++ Unicode.encode (127397 + N_of_ascii c2).

Definition url_of (req : Request) : string :=
  "http://ip-api.com/json/" ++ resolve req.

Definition rejected : GeoRecord :=
  {| geo_status := Some "fail"; geo_message := Some "reserved range";
     geo_country := None; geo_countryCode := None; geo_regionName := None;
     geo_city := None; geo_zip := None; geo_lat := None; geo_lon := None;
     geo_timezone := None; geo_offset := None; geo_dst := None;
     geo_as := None; geo_org := None; geo_isp := None; geo_reverse := None |}.

(** What the handler reads of a body that could not be parsed: axios hands
    the text over as [data], and [status], [message] and the other
    properties read of a text are all [undefined]. *)
Definition unparsed : GeoRecord :=
  {| geo_status := None; geo_message := None;
     geo_country := None; geo_countryCode := None; geo_regionName := None;
     geo_city := None; geo_zip := None; geo_lat := None; geo_lon := None;
     geo_timezone := None; geo_offset := None; geo_dst := None;
     geo_as := None; geo_org := None; geo_isp := None; geo_reverse := None |}.

(** A success record that carries nothing but its status. *)
Definition bare : GeoRecord :=
  {| geo_status := Some "success"; geo_message := None;
     geo_country := None; geo_countryCode := None; geo_regionName := None;
     geo_city := None; geo_zip := None; geo_lat := None; geo_lon := None;
     geo_timezone := None; geo_offset := None; geo_dst := None;
     geo_as := None; geo_org := None; geo_isp := None; geo_reverse := None |}.

(** A world whose time formatting refuses every time zone. *)
Definition world_without_zones (reply : result (option GeoRecord)) : World :=
  {| axios_get := fun _ => reply;
     date_toISOString := "2024-01-01T00:00:00.000Z";
     date_toLocaleString := fun _ => Thrown (Error "Invalid time zone specified");
     number_toString := fun _ => "0";
     random_index := 3 |}.

Fixpoint path (ks : list string) (v : value) : value :=
  match ks with
  | [] => v
  | k :: ks' => path ks' (get k v)
  end.

(** No [undefined] anywhere in a value. *)
Fixpoint populated (v : value) : bool :=
  match v with
  | VUndefined => false
  | VArr items => forallb populated items
  | VObj fields =>
      forallb (fun kv => match kv with (_, x) => populated x end) fields
  | _ => true
  end.

Definition section_names : list string :=
  ["1️⃣ 🌍 Basic IP Information"; "2️⃣ 📍 Geolocation Details";
   "3️⃣ 🕒 Timezone Information"; "4️⃣ 🛡️ Security Assessment";
   "5️⃣ 🌐 Network Information"; "6️⃣ 🏢 ISP & Organization";
   "7️⃣ 💰 Regional Info"; "8️⃣ 📊 Technical Analysis";
   "9️⃣ 🎯 Distance & Location"; "🔟 💡 Fun Facts & Trivia"].

Definition section_keys : list (list string) :=
  [["ip"; "status"; "version"; "type"; "reverse_dns"; "query_status"];
   ["country"; "country_code"; "region"; "city"; "zip_code"; "coordinates"; "continent"];
   ["timezone"; "current_time"; "utc_offset"; "is_dst"; "timezone_emoji"];
   ["threat_level"; "is_private"; "is_reserved"; "is_bogon"; "risk_assessment";
    "recommendations"];
   ["asn"; "organization"; "isp"; "service_type"; "network_range"];
   ["internet_service_provider"; "organization_name"; "autonomous_system";
    "network_type"; "mobile_carrier"; "hosting_provider"];
   ["continent"; "languages"; "currency"; "calling_code"; "regional_emoji"];
   ["ip_class"; "estimated_users"; "network_size"; "routing_status"; "special_notes"];
   ["distance_from_equator"; "hemisphere"; "famous_landmarks"; "climate_zone"];
   []].

Definition s1 : string := "1️⃣ 🌍 Basic IP Information".
Definition s2 : string := "2️⃣ 📍 Geolocation Details".
Definition s3 : string := "3️⃣ 🕒 Timezone Information".
Definition s5 : string := "5️⃣ 🌐 Network Information".
Definition s6 : string := "6️⃣ 🏢 ISP & Organization".
Definition s7 : string := "7️⃣ 💰 Regional Info".
Definition s8 : string := "8️⃣ 📊 Technical Analysis".
Definition s9 : string := "9️⃣ 🎯 Distance & Location".

(** The fields that the composer copies from the reply as they are. *)
Definition copied (d : GeoRecord) : list (list string * value) :=
  [(["steps"; s1; "query_status"], of_str (geo_status d));
   (["steps"; s2; "country_code"], of_str (geo_countryCode d));
   (["steps"; s2; "region"], of_str (geo_regionName d));
   (["steps"; s2; "city"], of_str (geo_city d));
   (["steps"; s2; "zip_code"], of_str (geo_zip d));
   (["steps"; s2; "coordinates"; "latitude"], of_num (geo_lat d));
   (["steps"; s2; "coordinates"; "longitude"], of_num (geo_lon d));
   (["steps"; s3; "timezone"], of_str (geo_timezone d));
   (["steps"; s3; "utc_offset"], of_num (geo_offset d));
   (["steps"; s6; "internet_service_provider"], of_str (geo_isp d));
   (["steps"; s6; "organization_name"], of_str (geo_org d));
   (["steps"; s6; "autonomous_system"], of_str (geo_as d));
   (["summary"; "timezone"], of_str (geo_timezone d))].

(** The reply lacks the field. *)
Definition lacks {A : Type} (x : option A) : bool :=
  match x with Some _ => false | None => true end.

(** The fields that the composer fills with a placeholder, each with the
    condition on the reply under which it holds the placeholder, and the
    placeholder. *)
Definition defaulted (d : GeoRecord) : list (list string * bool * string) :=
  [(["steps"; s1; "reverse_dns"], absent (geo_reverse d), "Not available");
   (["steps"; s2; "continent"], absent (geo_countryCode d), "Unknown 🌍");
   (["steps"; s3; "is_dst"], negb (truthy (of_bool (geo_dst d))), "No");
   (["steps"; s3; "timezone_emoji"], absent (geo_timezone d), "🕒");
   (["steps"; s5; "asn"], absent (geo_as d), "Not available");
   (["steps"; s5; "organization"], absent (geo_org d), "Unknown");
   (["steps"; s5; "isp"], absent (geo_isp d), "Unknown");
   (["steps"; s5; "service_type"], absent (geo_isp d), "Unknown");
   (["steps"; s5; "network_range"], absent (geo_as d), "Unknown");
   (["steps"; s6; "mobile_carrier"], absent (geo_isp d), "Unknown");
   (["steps"; s6; "hosting_provider"], absent (geo_isp d), "Unknown");
   (["steps"; s7; "continent"], absent (geo_countryCode d), "Unknown 🌍");
   (["steps"; s7; "languages"], absent (geo_countryCode d), "Various languages");
   (["steps"; s7; "currency"], absent (geo_countryCode d), "Local currency 💵");
   (["steps"; s7; "calling_code"], absent (geo_countryCode d), "Unknown");
   (["steps"; s7; "regional_emoji"], absent (geo_countryCode d), "🌍");
   (["steps"; s8; "estimated_users"], absent (geo_as d), "Unknown");
   (["steps"; s9; "distance_from_equator"], falsy_num (geo_lat d), "Unknown");
   (["steps"; s9; "hemisphere"], falsy_num (geo_lat d), "Unknown");
   (["steps"; s9; "famous_landmarks"], absent (geo_country d), "Unknown");
   (["steps"; s9; "climate_zone"], falsy_num (geo_lat d), "Unknown");
   (["summary"; "location"],
    absent (geo_city d) && absent (geo_country d) && absent (geo_countryCode d),
    "Unknown, Unknown 🏴");
   (["summary"; "isp"], absent (geo_isp d), "Unknown")].

(** The texts built by a template, which print a missing value as the word
    undefined. *)
Definition templated (d : GeoRecord) : list (list string * bool * string) :=
  [(["steps"; s2; "country"], lacks (geo_country d) && absent (geo_countryCode d),
    "undefined 🏴");
   (["steps"; s2; "coordinates"; "map_url"], lacks (geo_lat d) && lacks (geo_lon d),
    "https://maps.google.com/?q=undefined,undefined");
   (["summary"; "coordinates"], lacks (geo_lat d) && lacks (geo_lon d),
    "undefined, undefined");
   (["quick_links"; "view_on_map"], lacks (geo_lat d) && lacks (geo_lon d),
    "https://maps.google.com/?q=undefined,undefined")].

Definition hole (c : bool) (p : list string) : list (list string) :=
  if c then [p] else [].

(** The places of a value that hold [undefined]: the path of keys to each,
    an array counting as one place. *)
Fixpoint holes (v : value) : list (list string) :=
  match v with
  | VUndefined => [[]]
  | VObj fields =>
      flat_map (fun kv => match kv with (k, x) => List.map (cons k) (holes x) end) fields
  | VArr items => hole (negb (forallb populated items)) []
  | _ => []
  end.

(** The copied fields that the reply lacks. *)
Definition undefined_copies (d : GeoRecord) : list (list string) :=
  List.map fst (filter (fun f => negb (populated (snd f))) (copied d)).

Ltac read_field :=
  cbv [path get assoc String.eqb Ascii.eqb Bool.eqb andb
       s1 s2 s3 s5 s6 s7 s8 s9
       step1 step2 step4 step5 step6 step7 step8 step9 step10 summary quick_links].

(* ------------------------------------------------------------------ *)
(** *** Notions of the further properties *)

(** A GET request without an [ip] parameter, with its two forwarding
    headers. *)
Definition header_request (forwarded real : option string) : Request :=
  {| method := "GET"; query_ip := None;
     x_forwarded_for := forwarded; x_real_ip := real |}.

Fixpoint spaces (n : nat) : string :=
  match n with
  | O => EmptyString
  | S n' => String " " (spaces n')
  end.

(** A printable ASCII character other than the space. *)
Definition visible (c : ascii) : bool :=
  ((33 <=? nat_of_ascii c) && (nat_of_ascii c <=? 126))%nat.

Definition address_char (c : ascii) : bool :=
  Str.digitb c || Ascii.eqb c ".".

(** The part of a text before the first [sep], the whole text when it has
    none. *)
Fixpoint before (sep : ascii) (s : string) : string :=
  match s with
  | EmptyString => EmptyString
  | String c s' => if Ascii.eqb c sep then EmptyString else String c (before sep s')
  end.

(** The last character of the text [String c s]. *)
Fixpoint last_char (c : ascii) (s : string) : ascii :=
  match s with
  | EmptyString => c
  | String d s' => last_char d s'
  end.

(** A text without a comma that begins and ends with a visible character. *)
Definition tidy (s : string) : bool :=
  match s with
  | EmptyString => false
  | String c t => visible c && visible (last_char c t) && free_of "," s
  end.

Definition statuses : list nat := [200; 400; 405; 500]%nat.

Ltac by_ranges :=
  repeat match goal with
    | |- context [(?x =? ?y)%Z] => destruct (Z.eqb_spec x y); try subst x; cbn
    | |- context [(?x <=? ?y)%Z] => destruct (Z.leb_spec x y); cbn
    end;
  try reflexivity; try discriminate; try lia.

(** Every character is an ASCII one, where the case mapping of the model is
    that of JavaScript. *)
Definition ascii_only (s : string) : bool :=
  Str.all (fun c => (nat_of_ascii c <? 128)%nat) s.

(** The character codes of a text, one for each byte. *)
Fixpoint codes (s : string) : list N :=
  match s with
  | EmptyString => []
  | String c s' => N_of_ascii c :: codes s'
  end.

Definition contains_any (s : string) (keywords : list string) : bool :=
  existsb (fun keyword => Str.includes s keyword) keywords.

(** The names an object literal inherits. *)
Definition inherited_name (k : string) : bool :=
  (k =? "__proto__") || existsb (String.eqb k) prototype_methods.

Definition is_text (v : value) : bool :=
  match v with
  | VStr s => negb (s =? "")
  | _ => false
  end.

Definition standard_note : string := "🌐 Standard public IP address".

Definition is_some {A : Type} (x : option A) : bool :=
  match x with Some _ => true | None => false end.

(** The reply has every field that the composer copies without a
    default. *)
Definition complete (d : GeoRecord) : bool :=
  is_some (geo_status d) && is_some (geo_countryCode d)
  && is_some (geo_regionName d) && is_some (geo_city d) && is_some (geo_zip d)
  && is_some (geo_lat d) && is_some (geo_lon d)
  && is_some (geo_timezone d) && is_some (geo_offset d)
  && is_some (geo_isp d) && is_some (geo_org d) && is_some (geo_as d).

Definition s4 : string := "4️⃣ 🛡️ Security Assessment".
Definition s10 : string := "🔟 💡 Fun Facts & Trivia".

Definition yes : value := VStr "✅ Yes".
Definition no : value := VStr "❌ No".

(* ================================================================== *)
(** ** Strings: what [split] does *)

Lemma append_assoc (a b c : string) : (a ++ b) ++ c = a ++ (b ++ c).
Proof. induction a; simpl; congruence. Qed.

Lemma append_empty_r (s : string) : s ++ "" = s.
Proof. induction s; simpl; congruence. Qed.

Lemma split_not_nil (sep : ascii) (s : string) : Str.split sep s <> [].
Proof.
  destruct s as [|c s]; simpl; [discriminate|].
  destruct (Ascii.eqb c sep); [discriminate|].
  destruct (Str.split sep s); discriminate.
Qed.

Lemma join_cons (sep : ascii) (g : string) (gs : list string) :
  gs <> [] -> Str.join sep (g :: gs) = g ++ String sep (Str.join sep gs).
Proof. destruct gs; [congruence | reflexivity]. Qed.

Lemma join_split (sep : ascii) (s : string) :
  Str.join sep (Str.split sep s) = s.
Proof.
  induction s as [|c s IH]; [reflexivity|].
  simpl Str.split. destruct (Ascii.eqb_spec c sep) as [->|_].
  - rewrite join_cons by apply split_not_nil. simpl. now rewrite IH.
  - pose proof (split_not_nil sep s) as Hne.
    destruct (Str.split sep s) as [|g gs]; [congruence|].
    destruct gs as [|g' gs].
    + simpl in *. now rewrite IH.
    + rewrite join_cons in IH by discriminate.
      rewrite join_cons by discriminate. now rewrite <- IH.
Qed.

Lemma split_free (sep : ascii) (g : string) :
  free_of sep g = true -> Str.split sep g = [g].
Proof.
  induction g as [|c g IH]; simpl; [reflexivity|].
  intros H. apply andb_prop in H as [Hc Hg].
  destruct (Ascii.eqb c sep); [discriminate|].
  now rewrite IH.
Qed.

Lemma split_app (sep : ascii) (g s : string) :
  free_of sep g = true ->
  Str.split sep (g ++ String sep s) = g :: Str.split sep s.
Proof.
  induction g as [|c g IH]; simpl.
  - now rewrite Ascii.eqb_refl.
  - intros H. apply andb_prop in H as [Hc Hg].
    destruct (Ascii.eqb c sep); [discriminate|].
    now rewrite IH.
Qed.

Lemma digit_not_dot (c : ascii) : Str.digitb c = true -> Ascii.eqb c "." = false.
Proof.
  intros H. destruct (Ascii.eqb_spec c "."); [subst; discriminate | reflexivity].
Qed.

Lemma digits_free (g : string) :
  Str.all Str.digitb g = true -> free_of "." g = true.
Proof.
  unfold free_of. induction g as [|c g IH]; cbn [Str.all]; [reflexivity|].
  intros H. apply andb_prop in H as [Hc Hg].
  now rewrite (digit_not_dot c Hc), IH.
Qed.

Lemma digit_group_digits (g : string) :
  digit_group g = true -> Str.all Str.digitb g = true.
Proof. unfold digit_group. intros H. now apply andb_prop in H as [_ H]. Qed.

(* ================================================================== *)
(** ** The matcher finds exactly the strings the pattern denotes *)

Lemma repeat_matcher_correct (r : regex) (m : string -> (string -> bool) -> bool) :
  matcher_correct r m ->
  forall hi lo, matcher_correct (Quant lo hi r) (repeat_matcher m lo hi).
Proof.
  intros Hm hi. induction hi as [|hi IH]; intros lo s k; simpl.
  - split.
    + intros H. exists EmptyString, s. repeat split; [constructor | assumption].
    + intros (a & b & -> & M & K). inversion M; subst; assumption.
  - rewrite orb_true_iff. split.
    + intros [H | H].
      * apply Hm in H as (a & b & -> & Ma & H).
        apply IH in H as (a' & b' & -> & Ma' & K).
        exists (a ++ a'), b'. rewrite <- append_assoc.
        repeat split; [now constructor | assumption].
      * destruct lo; [|discriminate].
        exists EmptyString, s. repeat split; [constructor | assumption].
    + intros (a & b & -> & M & K). inversion M; subst.
      * now right.
      * left. apply Hm. exists a0, (b0 ++ b).
        rewrite <- append_assoc. repeat split; [assumption|].
        apply IH. now exists b0, b.
Qed.

Lemma matcher_is_correct (r : regex) : matcher_correct r (matcher r).
Proof.
  induction r as [c | lo hi | r1 IH1 r2 IH2 | lo hi r IH]; intros s k.
  - destruct s as [|x s]; simpl.
    + split; [discriminate|]. intros (a & b & E & M & _).
      inversion M; subst; discriminate.
    + rewrite andb_true_iff. split.
      * intros [E K]. apply Ascii.eqb_eq in E as ->.
        exists (String c EmptyString), s. repeat split; [constructor | assumption].
      * intros (a & b & E & M & K). inversion M; subst.
        injection E as -> ->. now rewrite Ascii.eqb_refl.
  - destruct s as [|x s]; simpl.
    + split; [discriminate|]. intros (a & b & E & M & _).
      inversion M; subst; discriminate.
    + rewrite andb_true_iff. split.
      * intros [E K].
        exists (String x EmptyString), s. repeat split; [now constructor | assumption].
      * intros (a & b & E & M & K). inversion M; subst.
        injection E as -> ->. now split.
  - simpl. split.
    + intros H. apply IH1 in H as (a & b & -> & Ma & H).
      apply IH2 in H as (a' & b' & -> & Ma' & K).
      exists (a ++ a'), b'. rewrite <- append_assoc.
      repeat split; [now constructor | assumption].
    + intros (a & b & -> & M & K). inversion M; subst.
      apply IH1. exists a0, (b0 ++ b). rewrite <- append_assoc.
      repeat split; [assumption|]. apply IH2. now exists b0, b.
  - simpl. now apply repeat_matcher_correct.
Qed.

Lemma test_matches (r : regex) (s : string) : test r s = true <-> matches r s.
Proof.
  unfold test. rewrite (matcher_is_correct r s at_end). split.
  - intros (a & b & -> & M & K). destruct b; [|discriminate].
    now rewrite append_empty_r.
  - intros M. exists s, EmptyString. now rewrite append_empty_r.
Qed.

(* ================================================================== *)
(** ** The strings [ipRegex] matches *)

Lemma in_class_digit (x : ascii) : in_class "0" "9" x = Str.digitb x.
Proof. reflexivity. Qed.

Lemma matches_more_inv (lo hi : nat) (r : regex) (s : string) :
  matches (Quant (S lo) (S hi) r) s ->
  exists a b, s = a ++ b /\ matches r a /\ matches (Quant lo hi r) b.
Proof. intros M. inv M. now exists a, b. Qed.

Lemma matches_opt_inv (hi : nat) (r : regex) (s : string) :
  matches (Quant 0 (S hi) r) s ->
  s = "" \/ exists a b, s = a ++ b /\ matches r a /\ matches (Quant 0 hi r) b.
Proof. intros M. inv M; [now left | right; now exists a, b]. Qed.

Lemma matches_zero_inv (lo : nat) (r : regex) (s : string) :
  matches (Quant lo 0 r) s -> s = "".
Proof. intros M. now inv M. Qed.

Lemma matches_digit_inv (s : string) :
  matches (Class "0" "9") s -> exists x, s = String x "" /\ Str.digitb x = true.
Proof. intros M. inv M. now exists x. Qed.

Lemma matches_digit_group (g : string) :
  matches (Quant 1 3 (Class "0" "9")) g <-> digit_group g = true.
Proof.
  split.
  - intros M.
    apply matches_more_inv in M as (a & b & -> & Ma & M).
    apply matches_digit_inv in Ma as (x & -> & Hx).
    apply matches_opt_inv in M as [-> | (a & b' & -> & Ma & M)];
      [unfold digit_group; simpl; now rewrite Hx|].
    apply matches_digit_inv in Ma as (y & -> & Hy).
    apply matches_opt_inv in M as [-> | (a & b & -> & Ma & M)];
      [unfold digit_group; simpl; now rewrite Hx, Hy|].
    apply matches_digit_inv in Ma as (z & -> & Hz).
    apply matches_zero_inv in M as ->.
    unfold digit_group; simpl; now rewrite Hx, Hy, Hz.
  - unfold digit_group. intros H.
    apply andb_prop in H as [H Hd]. apply andb_prop in H as [H1 H3].
    destruct g as [|x [|y [|z [|t g]]]]; try discriminate; simpl in Hd.
    + apply andb_prop in Hd as [Hx _].
      apply (M_more 1 2 _ (String x "") ""); constructor. now rewrite in_class_digit.
    + apply andb_prop in Hd as [Hx Hd]. apply andb_prop in Hd as [Hy _].
      apply (M_more 1 2 _ (String x "") (String y "")).
      * constructor. now rewrite in_class_digit.
      * apply (M_more 0 1 _ (String y "") ""); constructor. now rewrite in_class_digit.
    + apply andb_prop in Hd as [Hx Hd]. apply andb_prop in Hd as [Hy Hd].
      apply andb_prop in Hd as [Hz _].
      apply (M_more 1 2 _ (String x "") (String y (String z ""))).
      * constructor. now rewrite in_class_digit.
      * apply (M_more 0 1 _ (String y "") (String z "")).
        -- constructor. now rewrite in_class_digit.
        -- apply (M_more 0 0 _ (String z "") ""); constructor.
           now rewrite in_class_digit.
Qed.

Lemma matches_group_dot (s : string) :
  matches (Seq (Quant 1 3 (Class "0" "9")) (Chr ".")) s <->
  exists g, s = g ++ "." /\ digit_group g = true.
Proof.
  split.
  - intros M. inv M. inv H3. exists a. split; [reflexivity|].
    now apply matches_digit_group.
  - intros (g & -> & Hg). constructor; [now apply matches_digit_group | constructor].
Qed.

Lemma matches_ipRegex (s : string) :
  matches ipRegex s <-> exists g1 g2 g3 g4, quad_of s g1 g2 g3 g4.
Proof.
  unfold ipRegex, quad_of. split.
  - intros M. inv M. rename b into g4.
    apply matches_digit_group in H3.
    apply matches_more_inv in H1 as (x1 & r1 & -> & M1 & H1).
    apply matches_more_inv in H1 as (x2 & r2 & -> & M2 & H1).
    apply matches_more_inv in H1 as (x3 & r3 & -> & M3 & H1).
    apply matches_zero_inv in H1 as ->.
    apply matches_group_dot in M1 as (g1 & -> & G1).
    apply matches_group_dot in M2 as (g2 & -> & G2).
    apply matches_group_dot in M3 as (g3 & -> & G3).
    exists g1, g2, g3, g4. repeat split; try assumption.
    rewrite append_empty_r, !append_assoc. reflexivity.
  - intros (g1 & g2 & g3 & g4 & -> & G1 & G2 & G3 & G4).
    replace (g1 ++ "." ++ g2 ++ "." ++ g3 ++ "." ++ g4)
      with (((g1 ++ ".") ++ (g2 ++ ".") ++ (g3 ++ ".") ++ "") ++ g4)
      by (rewrite append_empty_r, !append_assoc; reflexivity).
    constructor; [|now apply matches_digit_group].
    apply (M_more 3 2); [apply matches_group_dot; eauto|].
    apply (M_more 2 1); [apply matches_group_dot; eauto|].
    apply (M_more 1 0); [apply matches_group_dot; eauto|].
    constructor.
Qed.

Lemma quad_split (s g1 g2 g3 g4 : string) :
  quad_of s g1 g2 g3 g4 -> Str.split "." s = [g1; g2; g3; g4].
Proof.
  intros (-> & G1 & G2 & G3 & G4).
  change (g1 ++ "." ++ g2 ++ "." ++ g3 ++ "." ++ g4)
    with (g1 ++ String "." (g2 ++ String "." (g3 ++ String "." g4))).
  rewrite !split_app, split_free;
    auto using digits_free, digit_group_digits.
Qed.

Lemma dotted_quad_shape (s : string) :
  dotted_quad s = true <-> exists g1 g2 g3 g4, quad_of s g1 g2 g3 g4.
Proof.
  split.
  - unfold dotted_quad. intros H. pose proof (join_split "." s) as J.
    destruct (Str.split "." s) as [|a [|b [|c [|d [|e l]]]]]; try discriminate.
    apply andb_prop in H as [H Gd]. apply andb_prop in H as [H Gc].
    apply andb_prop in H as [Ga Gb].
    exists a, b, c, d. repeat split; try assumption. now rewrite <- J.
  - intros (g1 & g2 & g3 & g4 & Q). unfold dotted_quad.
    rewrite (quad_split _ _ _ _ _ Q).
    destruct Q as (_ & -> & -> & -> & ->). reflexivity.
Qed.

Lemma test_ipRegex (s : string) : test ipRegex s = dotted_quad s.
Proof.
  apply eq_true_iff_eq.
  now rewrite test_matches, matches_ipRegex, dotted_quad_shape.
Qed.

Lemma valid_groups (ip : string) :
  test ipRegex ip = true ->
  exists g1 g2 g3 g4,
    Str.split "." ip = [g1; g2; g3; g4]
    /\ digit_group g1 = true /\ digit_group g2 = true
    /\ digit_group g3 = true /\ digit_group g4 = true.
Proof.
  rewrite test_matches, matches_ipRegex.
  intros (g1 & g2 & g3 & g4 & Q). exists g1, g2, g3, g4.
  split; [now apply quad_split | apply Q].
Qed.

(* ================================================================== *)
(** ** Octets of a validated address *)

Lemma digit_value_bounds (c : ascii) :
  Str.digitb c = true -> (0 <= Str.digit_value c <= 9)%Z.
Proof.
  unfold Str.digitb, Str.digit_value. intros H.
  apply andb_prop in H as [Hlo Hhi].
  apply Nat.leb_le in Hlo, Hhi. lia.
Qed.

Lemma digit_group_bounds (g : string) :
  digit_group g = true -> (0 <= decimal g <= 999)%Z.
Proof.
  unfold digit_group. intros H.
  apply andb_prop in H as [H Hd]. apply andb_prop in H as [H1 H3].
  destruct g as [|x [|y [|z [|t g]]]]; try discriminate;
    cbn [Str.all] in Hd; unfold decimal; cbn [decimal_acc];
    repeat match goal with
      | H : (_ && _)%bool = true |- _ => apply andb_prop in H as [? ?]
      | H : Str.digitb ?c = true |- _ => apply digit_value_bounds in H
      end; lia.
Qed.

Lemma digit_prefix_all (g : string) :
  Str.all Str.digitb g = true -> digit_prefix g = g.
Proof.
  induction g as [|c g IH]; simpl; [reflexivity|].
  intros H. apply andb_prop in H as [Hc Hg]. now rewrite Hc, IH.
Qed.

Lemma Number_group (g : string) :
  digit_group g = true -> Number g = Num (decimal g).
Proof.
  intros H. unfold Number. now rewrite (digit_group_digits g H).
Qed.

Lemma parseInt_group (g : string) :
  digit_group g = true -> parseInt (Some g) = Num (decimal g).
Proof.
  intros H. unfold parseInt. rewrite (digit_prefix_all g (digit_group_digits g H)).
  destruct g; [discriminate | reflexivity].
Qed.

(** On a validated address the classifiers read two numbers below 1000 and
    nothing else. *)
Lemma valid_octets (ip : string) :
  test ipRegex ip = true ->
  exists c d : Z,
    let a := first_octet ip in
    let b := second_octet ip in
    (0 <= a <= 999)%Z /\ (0 <= b <= 999)%Z /\ (0 <= c <= 999)%Z /\ (0 <= d <= 999)%Z
    /\ List.length (Str.split "." ip) = 4%nat
    /\ octet_parts ip = [Num a; Num b; Num c; Num d]
    /\ parseInt (first_group ip) = Num a.
Proof.
  intros H. destruct (valid_groups ip H) as (g1 & g2 & g3 & g4 & E & G1 & G2 & G3 & G4).
  exists (decimal g3), (decimal g4).
  unfold first_octet, second_octet, octet_parts, first_group, at_index.
  rewrite E. cbn [List.map List.length nth_error].
  rewrite !Number_group, parseInt_group by assumption.
  auto 10 using digit_group_bounds.
Qed.

Lemma isPrivateIP_valid (ip : string) :
  test ipRegex ip = true ->
  isPrivateIP ip =
    ((first_octet ip =? 10)
     || ((first_octet ip =? 172) && (16 <=? second_octet ip) && (second_octet ip <=? 31))
     || ((first_octet ip =? 192) && (second_octet ip =? 168)))%Z.
Proof.
  intros H. destruct (valid_octets ip H) as (c & d & _ & _ & _ & _ & _ & E & _).
  unfold isPrivateIP. now rewrite E.
Qed.

Lemma isReservedIP_valid (ip : string) :
  test ipRegex ip = true ->
  isReservedIP ip = ((first_octet ip =? 0) || (224 <=? first_octet ip))%Z.
Proof.
  intros H. destruct (valid_octets ip H) as (c & d & _ & _ & _ & _ & _ & E & _).
  unfold isReservedIP. now rewrite E.
Qed.

Lemma isBogonIP_valid (ip : string) :
  test ipRegex ip = true ->
  isBogonIP ip =
    ((first_octet ip =? 127)
     || ((first_octet ip =? 169) && (second_octet ip =? 254)))%Z.
Proof.
  intros H. destruct (valid_octets ip H) as (c & d & _ & _ & _ & _ & _ & E & _).
  unfold isBogonIP. now rewrite E.
Qed.

Lemma getIPType_valid (ip : string) :
  test ipRegex ip = true -> getIPType ip = class_of (first_octet ip).
Proof.
  intros H. destruct (valid_octets ip H) as (c & d & _ & _ & _ & _ & _ & _ & E).
  unfold getIPType. now rewrite E.
Qed.

(* ================================================================== *)
(** ** Latitude *)

Lemma SFeqb_self_finite (s : bool) (m : positive) (e : Z) :
  SFeqb (S754_finite s m e) (S754_finite s m e) = true.
Proof.
  unfold SFeqb, SFcompare.
  destruct s; now rewrite Z.compare_refl, Pos.compare_cont_refl.
Qed.

Lemma negative_latitude (lat : float) :
  (lat <? 0)%float = true ->
  (lat =? 0)%float = false /\ (lat =? lat)%float = true /\ (0 <=? lat)%float = false.
Proof.
  rewrite ltb_spec, !eqb_spec, leb_spec.
  change (Prim2SF 0) with (S754_zero false).
  destruct (Prim2SF lat) as [s|s| |s m e] eqn:E; try discriminate.
  - destruct s; [|discriminate]. intros _. now repeat split.
  - destruct s; [|discriminate]. intros _.
    repeat split; try reflexivity. apply SFeqb_self_finite.
Qed.

Lemma positive_latitude (lat : float) :
  (0 <? lat)%float = true ->
  (lat =? 0)%float = false /\ (lat =? lat)%float = true /\ (0 <=? lat)%float = true.
Proof.
  rewrite ltb_spec, !eqb_spec, leb_spec.
  change (Prim2SF 0) with (S754_zero false).
  destruct (Prim2SF lat) as [s|s| |s m e] eqn:E; try discriminate.
  - destruct s; [discriminate|]. intros _. now repeat split.
  - destruct s; [discriminate|]. intros _.
    repeat split; try reflexivity. apply SFeqb_self_finite.
Qed.

(** Away from zero the hemisphere follows the sign of the latitude. *)
Lemma getHemisphere_by_sign (lat : float) :
  ((lat <? 0)%float = true -> getHemisphere (Some lat) = "Southern 🌍")
  /\ ((0 <? lat)%float = true -> getHemisphere (Some lat) = "Northern 🌎").
Proof.
  unfold getHemisphere, falsy_num, of_num, truthy, truthy_num, is_nan, the_num.
  split; intros H.
  - apply negative_latitude in H as (-> & -> & ->). reflexivity.
  - apply positive_latitude in H as (-> & -> & ->). reflexivity.
Qed.

(** C1.  At latitude zero [getHemisphere] answers "Unknown": the guard
    [!lat] takes zero for a missing latitude before the comparison
    [lat >= 0] is reached. The claim asks for the northern label there. *)
Theorem getHemisphere_zero_is_unknown :
  getHemisphere (Some 0%float) = "Unknown"
  /\ getHemisphere (Some (-0)%float) = "Unknown"
  /\ getHemisphere (Some (-10)%float) = "Southern 🌍"
  /\ getHemisphere (Some 10%float) = "Northern 🌎".
Proof. repeat split; reflexivity. Qed.

(* ================================================================== *)
(** ** The validator *)

(** C2.  The validator accepts exactly the strings made of four
    dot-separated groups of one to three decimal digits: the pattern's
    test agrees with [dotted_quad] on every string, and holds exactly of
    the strings g1.g2.g3.g4 with four such groups ([quad_of]), so that
    999.999.999.999 is accepted; on a GET request whose address is not of
    that shape the handler answers 400 with the body [invalid_format] (an
    error, a tip and an example), and an address of that shape never gets
    that answer. *)
Theorem validator_accepts_exactly_dotted_quads :
  (forall s, test ipRegex s = dotted_quad s)
  /\ (forall s, test ipRegex s = true <-> exists g1 g2 g3 g4, quad_of s g1 g2 g3 g4)
  /\ test ipRegex "999.999.999.999" = true
  /\ (forall w req,
        method req = "GET" ->
        dotted_quad (resolve req) = false ->
        handler w req = json 400 invalid_format
        /\ keys invalid_format = ["error"; "tip"; "example"])
  /\ (forall w req,
        method req = "GET" ->
        dotted_quad (resolve req) = true ->
        body (handler w req) <> Some invalid_format).
Proof.
  split; [exact test_ipRegex|].
  split; [intros s; now rewrite test_matches, matches_ipRegex|].
  split; [reflexivity|]. split.
  - intros w req Hm Hq. split; [|reflexivity].
    unfold handler, try_block. rewrite Hm, test_ipRegex, Hq. reflexivity.
  - intros w req Hm Hq.
    unfold handler, try_block. rewrite Hm, test_ipRegex, Hq. cbn [negb String.eqb].
    change ("GET" =? "OPTIONS") with false. change ("GET" =? "GET") with true.
    cbn [negb].
    destruct (axios_get w _) as [[d|]|e]; cbn [bind data_of]; try discriminate.
    destruct (negb (str_is (geo_status d) "success")); [discriminate|].
    unfold completeInfo, steps, step3.
    destruct (date_toLocaleString w _); cbn [bind]; discriminate.
Qed.

Lemma validator_witness :
  handler (world_of (Ok (Some google))) (get_request "8.8.8") = json 400 invalid_format
  /\ body (handler (world_of (Ok (Some google))) (get_request "999.999.999.999"))
     <> Some invalid_format.
Proof.
  pose proof validator_accepts_exactly_dotted_quads as (_ & _ & _ & Hrej & Hacc).
  split.
  - apply (Hrej (world_of (Ok (Some google))) (get_request "8.8.8")); reflexivity.
  - apply (Hacc (world_of (Ok (Some google))) (get_request "999.999.999.999"));
      reflexivity.
Defined.

(* ================================================================== *)
(** ** Risk, class and recommendations *)

(** C4.  [assessRisk] answers one of four fixed labels, private before
    reserved before bogon before public: a private address gets the
    private label whatever the other two predicates say (so never the
    reserved or the bogon label); a reserved one that is not private the
    reserved label; a bogon one that is neither the bogon label; any other
    the public label.  This holds of every string, dotted quads among
    them. *)
Theorem assessRisk_precedence (ip : string) :
  In (assessRisk ip) risk_labels
  /\ (isPrivateIP ip = true ->
        assessRisk ip = "🟢 Safe (Private Network)"
        /\ assessRisk ip <> "🟡 Caution (Reserved IP)"
        /\ assessRisk ip <> "🟡 Warning (Bogon IP)")
  /\ (isPrivateIP ip = false -> isReservedIP ip = true ->
        assessRisk ip = "🟡 Caution (Reserved IP)")
  /\ (isPrivateIP ip = false -> isReservedIP ip = false -> isBogonIP ip = true ->
        assessRisk ip = "🟡 Warning (Bogon IP)")
  /\ (isPrivateIP ip = false -> isReservedIP ip = false -> isBogonIP ip = false ->
        assessRisk ip = "🟡 Moderate (Public IP)").
Proof.
  unfold assessRisk, risk_labels.
  destruct (isPrivateIP ip), (isReservedIP ip), (isBogonIP ip);
    repeat split; intros; try discriminate; try reflexivity; simpl; tauto.
Qed.

Lemma assessRisk_precedence_witness :
  assessRisk "10.0.0.1" = "🟢 Safe (Private Network)"
  /\ assessRisk "224.0.0.1" = "🟡 Caution (Reserved IP)"
  /\ assessRisk "127.0.0.1" = "🟡 Warning (Bogon IP)"
  /\ assessRisk "8.8.8.8" = "🟡 Moderate (Public IP)".
Proof.
  split; [|split; [|split]].
  - apply (assessRisk_precedence "10.0.0.1"). reflexivity.
  - apply (assessRisk_precedence "224.0.0.1"); reflexivity.
  - apply (assessRisk_precedence "127.0.0.1"); reflexivity.
  - apply (assessRisk_precedence "8.8.8.8"); reflexivity.
Defined.

(** C5.  On every dotted-quad address [getIPType] is decided by the first
    octet alone: up to 127 Class A, up to 191 Class B, up to 223 Class C,
    up to 239 Class D, above that Class E. *)
Theorem getIPType_by_first_octet (ip : string) :
  test ipRegex ip = true ->
  let n := first_octet ip in
  ((n <= 127)%Z -> getIPType ip = "Class A 🏢 (Large networks)")
  /\ ((127 < n <= 191)%Z -> getIPType ip = "Class B 🏢 (Medium networks)")
  /\ ((191 < n <= 223)%Z -> getIPType ip = "Class C 🏠 (Small networks)")
  /\ ((223 < n <= 239)%Z -> getIPType ip = "Class D 📡 (Multicast)")
  /\ ((239 < n)%Z -> getIPType ip = "Class E 🔧 (Experimental)").
Proof.
  intros H n. rewrite (getIPType_valid ip H). fold n. unfold class_of.
  repeat split; intros Hn;
    repeat match goal with
      | |- context [(?x <=? ?y)%Z] => destruct (Z.leb_spec x y); try lia
      end; reflexivity.
Qed.

Lemma getIPType_by_first_octet_witness :
  test ipRegex "200.1.2.3" = true
  /\ getIPType "200.1.2.3" = "Class C 🏠 (Small networks)".
Proof.
  split; [reflexivity|].
  apply (getIPType_by_first_octet "200.1.2.3"); [reflexivity|].
  vm_compute. split; [reflexivity | discriminate].
Defined.

Lemma classifiers_disjoint (ip : string) :
  isPrivateIP ip && isReservedIP ip = false
  /\ isPrivateIP ip && isBogonIP ip = false
  /\ isReservedIP ip && isBogonIP ip = false.
Proof.
  unfold isPrivateIP, isReservedIP, isBogonIP, num_eq, num_le, num_ge.
  destruct (at_index (octet_parts ip) 0) as [[|a]|];
    destruct (at_index (octet_parts ip) 1) as [[|b]|];
    repeat split; by_ranges.
Qed.

(** C9.  [getSecurityRecommendations] tells apart private and reserved
    addresses and nothing else: a private address gets the one
    recommendation for internal networks, a reserved one the one note that
    the range is reserved, and every other address the three public-IP
    recommendations.  A bogon address is never private or reserved, so
    every bogon address, such as 127.0.0.1 or 169.254.1.1, gets the three
    recommendations of an ordinary public address such as 8.8.8.8, which
    differ from the other two lists: there is no recommendation of its own
    for a bogon address. *)
Theorem bogon_gets_public_recommendations (ip : string) :
  (isPrivateIP ip = true ->
   getSecurityRecommendations ip = ["✅ Safe for internal networks"])
  /\ (isReservedIP ip = true ->
      getSecurityRecommendations ip = ["⚠️ This IP range is reserved"])
  /\ (isPrivateIP ip = false -> isReservedIP ip = false ->
      getSecurityRecommendations ip = public_recommendations)
  /\ (isBogonIP ip = true ->
      isPrivateIP ip = false /\ isReservedIP ip = false
      /\ getSecurityRecommendations ip = public_recommendations
      /\ getSecurityRecommendations ip = getSecurityRecommendations "8.8.8.8"
      /\ List.length (getSecurityRecommendations ip) = 3%nat)
  /\ public_recommendations <> ["✅ Safe for internal networks"]
  /\ public_recommendations <> ["⚠️ This IP range is reserved"]
  /\ isPrivateIP "8.8.8.8" = false /\ isReservedIP "8.8.8.8" = false
  /\ isBogonIP "8.8.8.8" = false.
Proof.
  destruct (classifiers_disjoint ip) as (D1 & D2 & D3).
  unfold getSecurityRecommendations at 1 2 3 4 5 7.
  destruct (isPrivateIP ip), (isReservedIP ip), (isBogonIP ip);
    try discriminate; repeat split; intros; try discriminate; reflexivity.
Qed.

Lemma bogon_gets_public_recommendations_witness :
  (isBogonIP "127.0.0.1" = true
   /\ getSecurityRecommendations "127.0.0.1" = public_recommendations)
  /\ (isBogonIP "169.254.1.1" = true
      /\ getSecurityRecommendations "169.254.1.1" = public_recommendations)
  /\ getSecurityRecommendations "10.1.2.3" = ["✅ Safe for internal networks"]
  /\ getSecurityRecommendations "224.0.0.5" = ["⚠️ This IP range is reserved"].
Proof.
  split; [|split; [|split]].
  - split; [reflexivity|].
    destruct (bogon_gets_public_recommendations "127.0.0.1") as (_ & _ & _ & B & _).
    apply (B eq_refl).
  - split; [reflexivity|].
    destruct (bogon_gets_public_recommendations "169.254.1.1") as (_ & _ & _ & B & _).
    apply (B eq_refl).
  - destruct (bogon_gets_public_recommendations "10.1.2.3") as (P & _).
    apply (P eq_refl).
  - destruct (bogon_gets_public_recommendations "224.0.0.5") as (_ & R & _).
    apply (R eq_refl).
Defined.

(** C10.  On a string the validator accepts, the octet classifiers read
    only what exists: splitting on the dot gives four groups, each one
    converts to a number between 0 and 999 (never [NaN]), the indices 0
    and 1 that are read are inside the array, and [getIPType],
    [isPrivateIP], [isReservedIP] and [isBogonIP] are the range tests on
    the first two octets. *)
Theorem classifiers_defined_on_valid (ip : string) :
  test ipRegex ip = true ->
  exists a b c d : Z,
    (0 <= a <= 999 /\ 0 <= b <= 999 /\ 0 <= c <= 999 /\ 0 <= d <= 999)%Z
    /\ List.length (Str.split "." ip) = 4%nat
    /\ octet_parts ip = [Num a; Num b; Num c; Num d]
    /\ at_index (octet_parts ip) 0 = Some (Num a)
    /\ at_index (octet_parts ip) 1 = Some (Num b)
    /\ parseInt (first_group ip) = Num a
    /\ getIPType ip = class_of a
    /\ isPrivateIP ip =
         ((a =? 10) || ((a =? 172) && (16 <=? b) && (b <=? 31))
          || ((a =? 192) && (b =? 168)))%Z
    /\ isReservedIP ip = ((a =? 0) || (224 <=? a))%Z
    /\ isBogonIP ip = ((a =? 127) || ((a =? 169) && (b =? 254)))%Z.
Proof.
  intros H.
  destruct (valid_octets ip H) as (c & d & Ha & Hb & Hc & Hd & Hlen & E & P).
  exists (first_octet ip), (second_octet ip), c, d.
  rewrite E. repeat split; try tauto; try lia.
  - now apply getIPType_valid.
  - now apply isPrivateIP_valid.
  - now apply isReservedIP_valid.
  - now apply isBogonIP_valid.
Qed.

Lemma classifiers_defined_on_valid_witness :
  test ipRegex "172.16.254.1" = true
  /\ exists a b c d : Z,
       octet_parts "172.16.254.1" = [Num a; Num b; Num c; Num d]
       /\ isPrivateIP "172.16.254.1" =
            ((a =? 10) || ((a =? 172) && (16 <=? b) && (b <=? 31))
             || ((a =? 192) && (b =? 168)))%Z.
Proof.
  split; [reflexivity|].
  destruct (classifiers_defined_on_valid "172.16.254.1" eq_refl)
    as (a & b & c & d & _ & _ & E & _ & _ & _ & _ & P & _).
  now exists a, b, c, d.
Defined.

(* ================================================================== *)
(** ** The flag of a country code *)

Lemma flag_of_letters (c1 c2 : ascii) :
  upper_letter c1 = true -> upper_letter c2 = true ->
  getCountryFlag (VStr (String c1 (String c2 ""))) = offset_flag c1 c2
  /\ Unicode.decode (offset_flag c1 c2) = [127397 + N_of_ascii c1; 127397 + N_of_ascii c2]%N
  /\ regional_indicator (127397 + N_of_ascii c1) = true
  /\ regional_indicator (127397 + N_of_ascii c2) = true.
Proof.
  destruct c1 as [[] [] [] [] [] [] [] []]; try discriminate; intros _;
    destruct c2 as [[] [] [] [] [] [] [] []]; try discriminate; intros _;
    vm_compute; repeat split.
Qed.

(** C6.  For a two-letter ISO code [getCountryFlag] gives the string whose
    code points are those of the letters moved by 127397, which are
    regional indicator symbols; for US it is the flag sequence
    U+1F1FA U+1F1F8.  It gives the placeholder when the code is absent
    (undefined, null or empty) and when the conversion throws. *)
Theorem getCountryFlag_offsets_or_placeholder :
  (forall c1 c2,
      upper_letter c1 = true -> upper_letter c2 = true ->
      getCountryFlag (VStr (String c1 (String c2 ""))) = offset_flag c1 c2
      /\ Unicode.decode (offset_flag c1 c2)
         = [127397 + N_of_ascii c1; 127397 + N_of_ascii c2]%N
      /\ regional_indicator (127397 + N_of_ascii c1) = true
      /\ regional_indicator (127397 + N_of_ascii c2) = true)
  /\ getCountryFlag (VStr "US") = "🇺🇸"
  /\ Unicode.decode (getCountryFlag (VStr "US")) = [127482; 127480]%N
  /\ (forall v, truthy v = false -> getCountryFlag v = "🏴")
  /\ (forall v e, flag_glyph v = Thrown e -> getCountryFlag v = "🏴").
Proof.
  split; [exact flag_of_letters|].
  split; [reflexivity|]. split; [reflexivity|]. split.
  - intros v H. unfold getCountryFlag. now rewrite H.
  - intros v e H. unfold getCountryFlag. rewrite H. now destruct (truthy v).
Qed.

Lemma getCountryFlag_witness :
  getCountryFlag (VStr "FR") = offset_flag "F" "R"
  /\ getCountryFlag VUndefined = "🏴"
  /\ getCountryFlag (VStr "") = "🏴"
  /\ getCountryFlag (VNum 250%float) = "🏴".
Proof.
  pose proof getCountryFlag_offsets_or_placeholder as (Hl & _ & _ & Ha & Hf).
  split; [|split; [|split]].
  - apply (Hl "F"%char "R"%char); reflexivity.
  - apply (Ha VUndefined). reflexivity.
  - apply (Ha (VStr "")). reflexivity.
  - apply (Hf (VNum 250%float) (Error "countryCode.toUpperCase is not a function")).
    reflexivity.
Defined.

(* ================================================================== *)
(** ** The handler's answers *)

Lemma str_is_false (x : option string) (s : string) :
  x <> Some s -> str_is x s = false.
Proof.
  destruct x as [t|]; simpl; [|reflexivity].
  intros H. apply String.eqb_neq. congruence.
Qed.

Lemma str_is_true (x : option string) (s : string) :
  x = Some s -> str_is x s = true.
Proof. intros ->. simpl. apply String.eqb_refl. Qed.

Lemma or_str_present (x : option string) (dflt m : string) :
  x = Some m -> m <> "" -> or_str x dflt = m.
Proof.
  intros -> H. simpl. apply String.eqb_neq in H. now rewrite H.
Qed.

Lemma or_str_absent (x : option string) (dflt : string) :
  absent x = true -> or_str x dflt = dflt.
Proof. destruct x as [m|]; simpl; [intros ->|]; reflexivity. Qed.

(** What the handler does with a GET request for a valid address. *)
Lemma handler_get (w : World) (req : Request) :
  method req = "GET" -> test ipRegex (resolve req) = true ->
  handler w req =
    match
      (data <- axios_get w (url_of req) ;;
       ipData <- data_of data ;;
       if negb (str_is (geo_status ipData) "success")
       then Ok (json 400 (upstream_rejection ipData))
       else info <- completeInfo w (resolve req) ipData ;; Ok (json 200 info))
    with
    | Ok res => res
    | Thrown error => json 500 (failure error)
    end.
Proof.
  intros Hm Hv. unfold handler, try_block, url_of. now rewrite Hm, Hv.
Qed.

(** C3, as the specification states it, fails for a malformed body: the
    call does not throw, the text it returns has no status, and the handler
    answers 400 with "Unknown error", not 500. *)
Lemma malformed_body_is_answered_400 :
  test ipRegex "8.8.8.8" = true
  /\ handler (world_of (Ok (Some unparsed))) (get_request "8.8.8.8")
     = json 400 (VObj [("error", VStr "❌ Failed to fetch IP information");
                       ("message", VStr "Unknown error")])
  /\ status (handler (world_of (Ok (Some unparsed))) (get_request "8.8.8.8")) <> 500%nat.
Proof. split; [reflexivity|]. split; [reflexivity | discriminate]. Qed.

(** C3, amended.  On a GET request for a valid address: a reply whose
    status is not "success" is answered 400, with the reply's message when
    it has one and "Unknown error" otherwise, and with no steps; a body
    that could not be parsed is such a reply, answered 400 with "Unknown
    error".  A call that throws is answered 500 with the message of the
    error, and so are a reply without a body and an exception while the
    payload is composed. *)
Theorem upstream_errors (w : World) (req : Request) :
  method req = "GET" -> test ipRegex (resolve req) = true ->
  (forall d,
      axios_get w (url_of req) = Ok (Some d) -> geo_status d <> Some "success" ->
      exists b,
        handler w req = json 400 b
        /\ keys b = ["error"; "message"]
        /\ get "steps" b = VUndefined
        /\ (forall m, geo_message d = Some m -> m <> "" -> get "message" b = VStr m)
        /\ (absent (geo_message d) = true -> get "message" b = VStr "Unknown error"))
  /\ (forall e,
        axios_get w (url_of req) = Thrown e ->
        exists b,
          handler w req = json 500 b /\ get "message" b = VStr (message e))
  /\ (axios_get w (url_of req) = Ok None ->
        exists b, handler w req = json 500 b)
  /\ (forall d e,
        axios_get w (url_of req) = Ok (Some d) -> geo_status d = Some "success" ->
        completeInfo w (resolve req) d = Thrown e ->
        exists b,
          handler w req = json 500 b /\ get "message" b = VStr (message e))
  /\ (axios_get w (url_of req) = Ok (Some unparsed) ->
      handler w req
      = json 400 (VObj [("error", VStr "❌ Failed to fetch IP information");
                        ("message", VStr "Unknown error")])).
Proof.
  intros Hm Hv. rewrite (handler_get w req Hm Hv).
  split; [|split; [|split; [|split]]]; [| | | |intros ->; reflexivity].
  - intros d -> Hs. cbn [bind data_of]. rewrite (str_is_false _ _ Hs). cbn [negb].
    exists (upstream_rejection d). repeat split.
    + intros m Hmsg Hne. cbn. now rewrite (or_str_present _ _ m Hmsg Hne).
    + intros Ha. cbn. now rewrite (or_str_absent _ _ Ha).
  - intros e ->. cbn [bind]. exists (failure e). now split.
  - intros ->. cbn [bind data_of]. eexists. reflexivity.
  - intros d e -> Hs Hc. cbn [bind data_of]. rewrite (str_is_true _ _ Hs). cbn [negb].
    rewrite Hc. cbn [bind]. exists (failure e). now split.
Qed.

Lemma upstream_errors_witness :
  (exists b,
      handler (world_of (Ok (Some rejected))) (get_request "192.0.2.1") = json 400 b
      /\ get "message" b = VStr "reserved range" /\ get "steps" b = VUndefined)
  /\ (exists b,
        handler (world_of (Thrown (Error "connect ECONNREFUSED"))) (get_request "8.8.8.8")
        = json 500 b
        /\ get "message" b = VStr "connect ECONNREFUSED")
  /\ (exists b,
        handler (world_without_zones (Ok (Some google))) (get_request "8.8.8.8")
        = json 500 b
        /\ get "message" b = VStr "Invalid time zone specified")
  /\ status (handler (world_of (Ok (Some unparsed))) (get_request "8.8.8.8")) = 400%nat.
Proof.
  split; [|split; [|split]].
  - destruct (upstream_errors (world_of (Ok (Some rejected))) (get_request "192.0.2.1")
                eq_refl eq_refl) as (H & _).
    destruct (H rejected eq_refl ltac:(discriminate)) as (b & E & _ & S & M & _).
    exists b. repeat split; [exact E | | exact S].
    apply (M "reserved range"); [reflexivity | discriminate].
  - destruct (upstream_errors (world_of (Thrown (Error "connect ECONNREFUSED")))
                (get_request "8.8.8.8") eq_refl eq_refl) as (_ & H & _).
    exact (H (Error "connect ECONNREFUSED") eq_refl).
  - destruct (upstream_errors (world_without_zones (Ok (Some google)))
                (get_request "8.8.8.8") eq_refl eq_refl) as (_ & _ & _ & H & _).
    exact (H google (Error "Invalid time zone specified") eq_refl eq_refl eq_refl).
  - destruct (upstream_errors (world_of (Ok (Some unparsed)))
                (get_request "8.8.8.8") eq_refl eq_refl) as (_ & _ & _ & _ & H).
    now rewrite (H eq_refl).
Defined.

(* ================================================================== *)
(** ** The success payload *)

Lemma completeInfo_ok (w : World) (ip : string) (d : GeoRecord) (t : string) :
  date_toLocaleString w (geo_timezone d) = Ok t ->
  exists info, completeInfo w ip d = Ok info.
Proof.
  intros H. unfold completeInfo, steps, step3. rewrite H. cbn [bind]. eauto.
Qed.

Lemma success_payload (w : World) (req : Request) (info : value) :
  status (handler w req) = 200%nat -> body (handler w req) = Some info ->
  exists d,
    test ipRegex (resolve req) = true
    /\ geo_status d = Some "success"
    /\ completeInfo w (resolve req) d = Ok info.
Proof.
  unfold handler, try_block.
  destruct (method req =? "OPTIONS"); [discriminate 2|].
  destruct (method req =? "GET"); [|discriminate 1]. cbn [negb].
  destruct (test ipRegex (resolve req)); [|discriminate 1]. cbn [negb].
  destruct (axios_get w _) as [[d|]|e]; cbn [bind data_of]; try discriminate 1.
  unfold str_is. destruct (geo_status d) as [s|] eqn:Es; [|discriminate 1].
  destruct (String.eqb_spec s "success") as [->|_]; [|discriminate 1]. cbn [negb].
  destruct (completeInfo w (resolve req) d) as [i|e] eqn:Ei; cbn [bind];
    [|discriminate 1].
  intros _ E. injection E as <-. now exists d.
Qed.

(** C8.  In every success response the threat level of the Security
    Assessment section is the one string "🟡 Medium (Public IP)", whatever
    the address, while the risk assessment next to it is the label of
    [assessRisk], which is never that string: for a private, a reserved
    and a bogon address the two fields differ. *)
Theorem threat_level_is_constant (w : World) (req : Request) (info : value) :
  status (handler w req) = 200%nat -> body (handler w req) = Some info ->
  let section := path ["steps"; "4️⃣ 🛡️ Security Assessment"] info in
  get "threat_level" section = VStr "🟡 Medium (Public IP)"
  /\ get "risk_assessment" section = VStr (assessRisk (resolve req))
  /\ get "risk_assessment" section <> get "threat_level" section.
Proof.
  intros Hs Hb. destruct (success_payload w req info Hs Hb) as (d & _ & _ & Hi).
  unfold completeInfo, steps, step3 in Hi.
  destruct (date_toLocaleString w _) as [t|e]; cbn [bind] in Hi; [|discriminate].
  injection Hi as <-.
  split; [reflexivity|]. split; [reflexivity|].
  change (VStr (assessRisk (resolve req)) <> VStr "🟡 Medium (Public IP)").
  unfold assessRisk.
  destruct (isPrivateIP (resolve req)), (isReservedIP (resolve req)),
    (isBogonIP (resolve req)); discriminate.
Qed.

Lemma threat_level_is_constant_witness :
  exists info,
    body (handler (world_of (Ok (Some google))) (get_request "10.0.0.1")) = Some info
    /\ path ["steps"; "4️⃣ 🛡️ Security Assessment"; "threat_level"] info
       = VStr "🟡 Medium (Public IP)"
    /\ path ["steps"; "4️⃣ 🛡️ Security Assessment"; "risk_assessment"] info
       = VStr "🟢 Safe (Private Network)".
Proof.
  destruct (completeInfo_ok (world_of (Ok (Some google))) "10.0.0.1" google
              "1/1/2024, 12:00:00 AM" eq_refl) as (info & E).
  assert (B : body (handler (world_of (Ok (Some google))) (get_request "10.0.0.1"))
              = Some info).
  { unfold handler, try_block. cbn -[completeInfo]. rewrite E. reflexivity. }
  assert (S : status (handler (world_of (Ok (Some google))) (get_request "10.0.0.1"))
              = 200%nat).
  { unfold handler, try_block. cbn -[completeInfo]. rewrite E. reflexivity. }
  exists info. split; [exact B|].
  destruct (threat_level_is_constant _ _ info S B) as (T & R & _).
  split; [exact T | exact R].
Defined.

(* ================================================================== *)
(** ** Further properties: the characters of a validated address *)

Lemma all_app (p : ascii -> bool) (a b : string) :
  Str.all p (a ++ b) = Str.all p a && Str.all p b.
Proof.
  induction a as [|c a IH]; simpl; [reflexivity|].
  now rewrite IH, andb_assoc.
Qed.

Lemma all_weaken (p q : ascii -> bool) (s : string) :
  (forall c, p c = true -> q c = true) -> Str.all p s = true -> Str.all q s = true.
Proof.
  intros Hpq. induction s as [|c s IH]; simpl; [reflexivity|].
  intros H. apply andb_prop in H as [Hc Hs]. now rewrite (Hpq c Hc), IH.
Qed.

Lemma length_app (a b : string) : length (a ++ b) = (length a + length b)%nat.
Proof. induction a; simpl; congruence. Qed.

Lemma group_chars (g : string) :
  digit_group g = true -> Str.all address_char g = true.
Proof.
  intros H. apply (all_weaken Str.digitb); [|now apply digit_group_digits].
  intros c Hc. unfold address_char. now rewrite Hc.
Qed.

Lemma group_length (g : string) :
  digit_group g = true -> (1 <= length g <= 3)%nat.
Proof.
  unfold digit_group. intros H.
  apply andb_prop in H as [H _]. apply andb_prop in H as [H1 H3].
  apply Nat.leb_le in H1, H3. lia.
Qed.

Lemma valid_chars (ip : string) :
  test ipRegex ip = true ->
  Str.all address_char ip = true /\ (7 <= length ip <= 15)%nat.
Proof.
  rewrite test_matches, matches_ipRegex.
  intros (g1 & g2 & g3 & g4 & -> & G1 & G2 & G3 & G4). split.
  - rewrite !all_app. cbn [Str.all].
    rewrite !group_chars by assumption. reflexivity.
  - rewrite !length_app. cbn [length].
    apply group_length in G1, G2, G3, G4. lia.
Qed.

Lemma valid_first_digit (ip : string) :
  test ipRegex ip = true ->
  exists c s, ip = String c s /\ Str.digitb c = true.
Proof.
  rewrite test_matches, matches_ipRegex.
  intros (g1 & g2 & g3 & g4 & -> & G1 & _).
  pose proof (digit_group_digits g1 G1) as D.
  destruct g1 as [|c g1]; [discriminate|].
  simpl in D. apply andb_prop in D as [Hc _].
  exists c. eexists. split; [reflexivity | exact Hc].
Qed.

(** X1.  The address that reaches the geolocation service is made of
    digits and dots only and is 7 to 15 characters long, so the URL of the
    outbound call is the fixed prefix followed by such a string: nothing in
    a request can add a path segment, a query or a fragment to it. *)
Theorem upstream_url_is_plain (req : Request) :
  test ipRegex (resolve req) = true ->
  exists ip,
    url_of req = "http://ip-api.com/json/" ++ ip
    /\ Str.all address_char ip = true
    /\ Str.includes ip "/" = false /\ Str.includes ip "?" = false
    /\ Str.includes ip "#" = false /\ Str.includes ip ":" = false
    /\ (7 <= length ip <= 15)%nat.
Proof.
  intros H. exists (resolve req). destruct (valid_chars _ H) as [Hc Hl].
  split; [reflexivity|]. split; [exact Hc|].
  assert (Hn : forall x, address_char x = false ->
                         Str.includes (resolve req) (String x "") = false).
  { intros x Hx. clear Hl H. induction (resolve req) as [|c s IH]; [reflexivity|].
    simpl in Hc. apply andb_prop in Hc as [Hcc Hs]. cbn [Str.includes prefix].
    destruct (ascii_dec x c) as [->|Hne]; [congruence|].
    rewrite (IH Hs). now rewrite orb_false_r. }
  repeat split; try apply Hn; try reflexivity; apply Hl.
Qed.

Lemma upstream_url_is_plain_witness :
  exists ip,
    url_of (get_request "203.0.113.9") = "http://ip-api.com/json/" ++ ip
    /\ Str.includes ip "/" = false.
Proof.
  destruct (upstream_url_is_plain (get_request "203.0.113.9") eq_refl)
    as (ip & E & _ & S & _).
  now exists ip.
Defined.

(* ================================================================== *)
(** ** Further properties: what every response has *)

(** X2.  Whatever the request and whatever happens outside, the response
    carries the three CORS headers, its status is 200, 400, 405 or 500,
    and it has a body unless the method is OPTIONS, which is answered 200
    without one; a method other than GET and OPTIONS is answered 405. *)
Theorem every_response (w : World) (req : Request) :
  headers (handler w req) = cors
  /\ In (status (handler w req)) statuses
  /\ (body (handler w req) = None <-> method req = "OPTIONS")
  /\ (method req = "OPTIONS" -> status (handler w req) = 200%nat)
  /\ (method req <> "OPTIONS" -> method req <> "GET" ->
      status (handler w req) = 405%nat).
Proof.
  unfold handler, try_block, statuses.
  destruct (String.eqb_spec (method req) "OPTIONS") as [Ho|Ho].
  - cbn. repeat split; auto; contradiction.
  - destruct (String.eqb_spec (method req) "GET") as [Hg|Hg]; cbn [negb].
    + assert (R : forall r : Response,
                 headers r = cors -> In (status r) [200; 400; 405; 500]%nat ->
                 body r <> None ->
                 headers r = cors /\ In (status r) [200; 400; 405; 500]%nat
                 /\ (body r = None <-> method req = "OPTIONS")
                 /\ (method req = "OPTIONS" -> status r = 200%nat)
                 /\ (method req <> "OPTIONS" -> method req <> "GET" ->
                     status r = 405%nat)).
      { intros r Hh Hs Hb. repeat split; auto; contradiction. }
      destruct (test ipRegex (resolve req)); cbn [negb];
        [|apply R; cbn; [reflexivity | tauto | discriminate]].
      destruct (axios_get w _) as [[d|]|e]; cbn [bind data_of];
        try (apply R; cbn; [reflexivity | tauto | discriminate]).
      destruct (negb (str_is (geo_status d) "success"));
        [apply R; cbn; [reflexivity | tauto | discriminate]|].
      destruct (completeInfo w (resolve req) d); cbn [bind];
        apply R; cbn; try reflexivity; try tauto; discriminate.
    + cbn. repeat split; auto; try tauto; discriminate.
Qed.

Lemma every_response_witness :
  status (handler (world_of (Ok (Some google)))
            {| method := "OPTIONS"; query_ip := Some "not an address";
               x_forwarded_for := None; x_real_ip := None |}) = 200%nat
  /\ status (handler (world_of (Ok (Some google)))
               {| method := "POST"; query_ip := Some "8.8.8.8";
                  x_forwarded_for := None; x_real_ip := None |}) = 405%nat.
Proof.
  split.
  - apply every_response. reflexivity.
  - apply every_response; discriminate.
Defined.

(** X3.  The geolocation service, the clock and the rest of the outside
    play no part in the answer to a request that is not a GET or whose
    address the validator rejects: the answer is the same in every
    world. *)
Theorem rejected_without_upstream (w w' : World) (req : Request) :
  method req <> "GET" \/ test ipRegex (resolve req) = false ->
  handler w req = handler w' req.
Proof.
  unfold handler, try_block. intros [H | H].
  - apply String.eqb_neq in H. rewrite H. reflexivity.
  - rewrite H. reflexivity.
Qed.

Lemma rejected_without_upstream_witness :
  handler (world_of (Ok (Some google))) (get_request "1.2.3")
  = handler (world_without_zones (Thrown (Error "down"))) (get_request "1.2.3").
Proof.
  apply rejected_without_upstream. right. reflexivity.
Defined.

(* ================================================================== *)
(** ** Further properties: the address of a request *)

Lemma rev_acc_app (s acc : string) : Str.rev_acc s acc = Str.rev s ++ acc.
Proof.
  unfold Str.rev. revert acc. induction s as [|c s IH]; intros acc; simpl.
  - reflexivity.
  - rewrite (IH (String c acc)), (IH (String c "")), append_assoc. reflexivity.
Qed.

Lemma rev_cons (c : ascii) (s : string) : Str.rev (String c s) = Str.rev s ++ String c "".
Proof. unfold Str.rev at 1. simpl. apply rev_acc_app. Qed.

Lemma rev_app (a b : string) : Str.rev (a ++ b) = Str.rev b ++ Str.rev a.
Proof.
  induction a as [|c a IH]; simpl.
  - now rewrite append_empty_r.
  - now rewrite !rev_cons, IH, append_assoc.
Qed.

Lemma rev_involutive (s : string) : Str.rev (Str.rev s) = s.
Proof.
  induction s as [|c s IH]; [reflexivity|].
  now rewrite rev_cons, rev_app, IH.
Qed.

Lemma rev_length (s : string) : length (Str.rev s) = length s.
Proof.
  induction s as [|c s IH]; [reflexivity|].
  rewrite rev_cons, length_app, IH. simpl. lia.
Qed.

Lemma spaces_snoc (n : nat) : spaces n ++ " " = spaces (S n).
Proof. induction n as [|n IH]; simpl; [reflexivity|]. now rewrite IH. Qed.

Lemma rev_spaces (n : nat) : Str.rev (spaces n) = spaces n.
Proof.
  induction n as [|n IH]; [reflexivity|].
  cbn [spaces]. rewrite rev_cons, IH. apply spaces_snoc.
Qed.

Lemma spaces_length (n : nat) : length (spaces n) = n.
Proof. induction n; simpl; congruence. Qed.

Lemma visible_not_space (c : ascii) :
  visible c = true ->
  Str.ws1 c = false
  /\ (forall b, Str.ws2 c b = false) /\ (forall b, Str.ws2 b c = false)
  /\ (forall a b, Str.ws3 c a b = false) /\ (forall a b, Str.ws3 a b c = false).
Proof.
  unfold visible, Str.ws1, Str.ws2, Str.ws3. intros H.
  apply andb_prop in H as [Hlo Hhi]. apply Nat.leb_le in Hlo, Hhi.
  repeat split; intros;
    repeat match goal with
      | |- context [(?x =? ?y)%nat] => destruct (Nat.eqb_spec x y); try lia
      | |- context [(?x <=? ?y)%nat] => destruct (Nat.leb_spec x y); try lia
      end; cbn; rewrite ?andb_false_r; reflexivity.
Qed.

Lemma trimStart_fuel_visible (f : nat) (c : ascii) (s : string) :
  visible c = true -> Str.trimStart_fuel f (String c s) = String c s.
Proof.
  intros H. destruct (visible_not_space c H) as (W1 & W2 & _ & W3 & _).
  destruct f; [reflexivity|]. cbn [Str.trimStart_fuel]. rewrite W1.
  destruct s as [|b s]; [reflexivity|]. rewrite W2.
  destruct s as [|d s]; [reflexivity|]. now rewrite W3.
Qed.

Lemma trimEnd_fuel_visible (f : nat) (c : ascii) (s : string) :
  visible c = true -> Str.trimEnd_fuel f (String c s) = String c s.
Proof.
  intros H. destruct (visible_not_space c H) as (W1 & _ & W2 & _ & W3).
  destruct f; [reflexivity|]. cbn [Str.trimEnd_fuel]. rewrite W1.
  destruct s as [|b s]; [reflexivity|]. rewrite W2.
  destruct s as [|d s]; [reflexivity|]. now rewrite W3.
Qed.

Lemma trimStart_fuel_spaces (n f : nat) (s : string) :
  (n <= f)%nat ->
  Str.trimStart_fuel f (spaces n ++ s) = Str.trimStart_fuel (f - n) s.
Proof.
  revert f. induction n as [|n IH]; intros f H; simpl.
  - now rewrite Nat.sub_0_r.
  - destruct f as [|f]; [lia|]. cbn [Str.trimStart_fuel].
    change (Str.ws1 " ") with true. cbn [Nat.sub]. apply IH. lia.
Qed.

Lemma trimEnd_fuel_spaces (n f : nat) (s : string) :
  (n <= f)%nat ->
  Str.trimEnd_fuel f (spaces n ++ s) = Str.trimEnd_fuel (f - n) s.
Proof.
  revert f. induction n as [|n IH]; intros f H; simpl.
  - now rewrite Nat.sub_0_r.
  - destruct f as [|f]; [lia|]. cbn [Str.trimEnd_fuel].
    change (Str.ws1 " ") with true. cbn [Nat.sub]. apply IH. lia.
Qed.

(** [trim] takes the spaces off both ends of a text that begins and ends
    with a visible character. *)
Lemma trim_spaces (n m : nat) (c e : ascii) (t : string) :
  visible c = true -> visible e = true ->
  Str.trim (spaces n ++ String c t ++ String e "" ++ spaces m)
  = String c t ++ String e "".
Proof.
  intros Hc He. unfold Str.trim.
  assert (S : Str.trimStart (spaces n ++ String c t ++ String e "" ++ spaces m)
              = String c t ++ String e "" ++ spaces m).
  { unfold Str.trimStart. rewrite trimStart_fuel_spaces.
    - now apply trimStart_fuel_visible.
    - rewrite length_app, spaces_length. lia. }
  rewrite S. unfold Str.trimEnd.
  replace (String c t ++ String e "" ++ spaces m)
    with ((String c t ++ String e "") ++ spaces m) by now rewrite append_assoc.
  rewrite rev_app, rev_spaces, (rev_app (String c t)).
  change (Str.rev (String e "")) with (String e ""). cbn [append].
  rewrite trimEnd_fuel_spaces.
  - rewrite (trimEnd_fuel_visible _ e _ He).
    now rewrite rev_cons, rev_involutive.
  - cbn [length]. rewrite !length_app, spaces_length. lia.
Qed.

Lemma digit_visible (c : ascii) : Str.digitb c = true -> visible c = true.
Proof.
  unfold Str.digitb, visible. intros H.
  apply andb_prop in H as [Hlo Hhi]. apply Nat.leb_le in Hlo, Hhi.
  apply andb_true_intro. split; apply Nat.leb_le; lia.
Qed.

Lemma snoc_cases (s : string) :
  s = "" \/ exists t e, s = t ++ String e "".
Proof.
  induction s as [|c s [-> | (t & e & ->)]]; [now left | right | right].
  - now exists "", c.
  - now exists (String c t), e.
Qed.

Lemma all_snoc (p : ascii -> bool) (t : string) (e : ascii) :
  Str.all p (t ++ String e "") = true -> p e = true.
Proof.
  rewrite all_app. cbn [Str.all]. intros H.
  apply andb_prop in H as [_ H]. now apply andb_prop in H as [H _].
Qed.

Lemma valid_last_digit (ip : string) :
  test ipRegex ip = true ->
  exists t e, ip = t ++ String e "" /\ Str.digitb e = true.
Proof.
  rewrite test_matches, matches_ipRegex.
  intros (g1 & g2 & g3 & g4 & -> & _ & _ & _ & G4).
  pose proof (digit_group_digits g4 G4) as D.
  destruct (snoc_cases g4) as [-> | (t & e & ->)]; [discriminate|].
  exists (g1 ++ "." ++ g2 ++ "." ++ g3 ++ "." ++ t), e. split.
  - now rewrite !append_assoc.
  - now apply (all_snoc _ t e).
Qed.

Lemma trim_valid (n m : nat) (ip : string) :
  test ipRegex ip = true -> Str.trim (spaces n ++ ip ++ spaces m) = ip.
Proof.
  intros H.
  destruct (valid_first_digit ip H) as (c & s & E & Hc).
  destruct (valid_last_digit ip H) as (t & e & E' & He).
  destruct (valid_chars ip H) as [_ L].
  assert (exists u, ip = String c u ++ String e "") as (u & ->).
  { destruct t as [|c' t].
    - subst ip. simpl in E'. injection E' as _ ->. simpl in L. lia.
    - exists t. rewrite E' in E. simpl in E. injection E as -> _. exact E'. }
  rewrite append_assoc. change (String e (spaces m)) with (String e "" ++ spaces m).
  apply trim_spaces; now apply digit_visible.
Qed.

Lemma substring_all (s : string) : substring 0 (length s) s = s.
Proof. induction s as [|c s IH]; simpl; congruence. Qed.

Lemma remove_first_plain (s : string) :
  Str.all address_char s = true -> Str.remove_first "::ffff:" s = s.
Proof.
  induction s as [|c s IH]; [reflexivity|].
  cbn [Str.all]. intros H. apply andb_prop in H as [Hc Hs].
  cbn [Str.remove_first prefix].
  destruct (ascii_dec ":" c) as [<-|Hne]; [discriminate|].
  now rewrite IH.
Qed.

Lemma prefix_app (t s : string) : prefix t (t ++ s) = true.
Proof.
  induction t as [|c t IH]; simpl; [now destruct s|].
  destruct (ascii_dec c c); [exact IH | congruence].
Qed.

Lemma substring_skip (t s : string) :
  substring (length t) (length (t ++ s) - length t) (t ++ s) = s.
Proof.
  induction t as [|c t IH]; simpl; [|exact IH].
  rewrite Nat.sub_0_r. apply substring_all.
Qed.

Lemma remove_first_eq (t s : string) :
  Str.remove_first t s =
    if prefix t s then substring (length t) (length s - length t) s
    else match s with
         | EmptyString => EmptyString
         | String c s' => String c (Str.remove_first t s')
         end.
Proof. destruct s; reflexivity. Qed.

Lemma remove_first_mapped (t s : string) : Str.remove_first t (t ++ s) = s.
Proof. now rewrite remove_first_eq, prefix_app, substring_skip. Qed.

Lemma free_of_spaces (sep : ascii) (n : nat) :
  Ascii.eqb " " sep = false -> free_of sep (spaces n) = true.
Proof.
  intros H. unfold free_of. induction n as [|n IH]; [reflexivity|].
  cbn [spaces Str.all]. now rewrite H, IH.
Qed.

Lemma free_of_app (sep : ascii) (a b : string) :
  free_of sep (a ++ b) = free_of sep a && free_of sep b.
Proof. apply all_app. Qed.

Lemma address_free_of_comma (s : string) :
  Str.all address_char s = true -> free_of "," s = true.
Proof.
  apply all_weaken. intros c. unfold address_char.
  destruct (Ascii.eqb_spec c ","); [subst; discriminate | reflexivity].
Qed.

Lemma trim_between (n m : nat) (T : string) (c e : ascii) (t : string) :
  T = String c t ++ String e "" -> visible c = true -> visible e = true ->
  Str.trim (spaces n ++ T ++ spaces m) = T.
Proof.
  intros -> Hc He. rewrite (append_assoc (String c t)).
  now apply trim_spaces.
Qed.

Lemma clean_valid (n m : nat) (ip : string) :
  test ipRegex ip = true ->
  Str.remove_first "::ffff:" (Str.trim (spaces n ++ ip ++ spaces m)) = ip.
Proof.
  intros H. rewrite (trim_valid n m ip H).
  apply remove_first_plain. now apply valid_chars.
Qed.

Lemma clean_mapped (n m : nat) (ip : string) :
  test ipRegex ip = true ->
  Str.remove_first "::ffff:" (Str.trim (spaces n ++ "::ffff:" ++ ip ++ spaces m)) = ip.
Proof.
  intros H. destruct (valid_last_digit ip H) as (u & e & E & He).
  rewrite <- (append_assoc "::ffff:" ip).
  rewrite (trim_between n m ("::ffff:" ++ ip) ":"%char e (":ffff:" ++ u)).
  - apply remove_first_mapped.
  - rewrite E. reflexivity.
  - reflexivity.
  - now apply digit_visible.
Qed.

Lemma resolve_header (q f r : option string) (hdr : string) :
  absent q = true -> hdr <> "" ->
  f = Some hdr \/ (absent f = true /\ r = Some hdr) ->
  resolve {| method := "GET"; query_ip := q; x_forwarded_for := f; x_real_ip := r |}
  = Str.remove_first "::ffff:" (Str.trim (tmpl (at_index (Str.split "," hdr) 0))).
Proof.
  intros Hq Hh Hf. apply String.eqb_neq in Hh.
  unfold resolve. cbn [query_ip x_forwarded_for x_real_ip]. rewrite Hq. cbn [negb].
  destruct Hf as [-> | [Ha ->]].
  - cbn [absent tmpl]. now rewrite Hh.
  - rewrite Ha. cbn [absent tmpl negb]. now rewrite Hh.
Qed.

Lemma nonempty_by_length (s : string) : (0 < length s)%nat -> s <> "".
Proof. destruct s; simpl; [lia | discriminate]. Qed.

Lemma resolve_padded_header (n m : nat) (ip : string) (real : option string) :
  test ipRegex ip = true ->
  resolve (header_request (Some (spaces n ++ ip ++ spaces m)) real) = ip.
Proof.
  intros H. destruct (valid_chars ip H) as [Hc Hl]. unfold header_request.
  rewrite (resolve_header _ _ _ (spaces n ++ ip ++ spaces m));
    [| reflexivity | | now left].
  - rewrite split_free.
    + now apply clean_valid.
    + rewrite !free_of_app, (address_free_of_comma ip Hc), !free_of_spaces
        by reflexivity. reflexivity.
  - apply nonempty_by_length. rewrite !length_app. lia.
Qed.

Lemma first_entry (sep : ascii) (s : string) :
  tmpl (at_index (Str.split sep s) 0) = before sep s.
Proof.
  induction s as [|c s IH]; [reflexivity|].
  cbn [Str.split before]. destruct (Ascii.eqb c sep); [reflexivity|].
  pose proof (split_not_nil sep s) as N.
  destruct (Str.split sep s) as [|g gs]; [congruence|].
  cbn in IH |- *. now rewrite IH.
Qed.

Lemma before_free (sep : ascii) (e : string) :
  free_of sep e = true -> before sep e = e.
Proof.
  unfold free_of. induction e as [|c e IH]; [reflexivity|].
  cbn [Str.all before]. intros H. apply andb_prop in H as [Hc He].
  apply negb_true_iff in Hc. now rewrite Hc, IH.
Qed.

Lemma before_app (sep : ascii) (e rest : string) :
  free_of sep e = true -> before sep (e ++ String sep rest) = e.
Proof.
  unfold free_of. induction e as [|c e IH].
  - intros _. cbn [append before]. now rewrite Ascii.eqb_refl.
  - cbn [Str.all append before]. intros H. apply andb_prop in H as [Hc He].
    apply negb_true_iff in Hc. now rewrite Hc, IH.
Qed.

Lemma rev_head (c : ascii) (t : string) :
  exists r, Str.rev (String c t) = String (last_char c t) r.
Proof.
  revert c. induction t as [|d t IH]; intros c.
  - now exists "".
  - destruct (IH d) as (r & E). exists (r ++ String c "").
    rewrite rev_cons, E. reflexivity.
Qed.

(** [trim] takes the spaces off both ends of a text whose first and last
    characters are visible. *)
Lemma trim_edges (n m : nat) (c : ascii) (t : string) :
  visible c = true -> visible (last_char c t) = true ->
  Str.trim (spaces n ++ String c t ++ spaces m) = String c t.
Proof.
  intros Hc He. unfold Str.trim.
  assert (S : Str.trimStart (spaces n ++ String c t ++ spaces m)
              = String c t ++ spaces m).
  { unfold Str.trimStart. rewrite trimStart_fuel_spaces.
    - now apply trimStart_fuel_visible.
    - rewrite length_app, spaces_length. lia. }
  rewrite S. unfold Str.trimEnd.
  rewrite rev_app, rev_spaces. destruct (rev_head c t) as (r & E). rewrite E.
  rewrite trimEnd_fuel_spaces.
  - rewrite (trimEnd_fuel_visible _ _ _ He), <- E. apply rev_involutive.
  - rewrite !length_app, spaces_length. lia.
Qed.

Lemma trim_tidy (n m : nat) (core : string) :
  tidy core = true -> Str.trim (spaces n ++ core ++ spaces m) = core.
Proof.
  destruct core as [|c t]; [discriminate|]. unfold tidy. intros H.
  apply andb_prop in H as [H _]. apply andb_prop in H as [Hc He].
  now apply trim_edges.
Qed.

Lemma tidy_free (core : string) : tidy core = true -> free_of "," core = true.
Proof.
  destruct core as [|c t]; [discriminate|]. unfold tidy. intros H.
  now apply andb_prop in H as [_ H].
Qed.

Lemma last_char_snoc (c e : ascii) (t : string) : last_char c (t ++ String e "") = e.
Proof. revert c. induction t as [|d t IH]; intros c; [reflexivity | apply IH]. Qed.

Lemma valid_tidy (ip : string) : test ipRegex ip = true -> tidy ip = true.
Proof.
  intros H.
  destruct (valid_first_digit ip H) as (c & s & E & Hc).
  destruct (valid_last_digit ip H) as (t & e & E' & He).
  destruct (valid_chars ip H) as [A L].
  assert (V : visible (last_char c s) = true).
  { destruct t as [|c' t].
    - rewrite E' in L. simpl in L. lia.
    - rewrite E' in E. simpl in E. injection E as _ <-.
      rewrite last_char_snoc. now apply digit_visible. }
  pose proof (address_free_of_comma ip A) as F. subst ip.
  unfold tidy. now rewrite (digit_visible c Hc), V, F.
Qed.

Lemma mapped_tidy (ip : string) :
  test ipRegex ip = true -> tidy ("::ffff:" ++ ip) = true.
Proof.
  intros H. pose proof (valid_tidy ip H) as T.
  destruct ip as [|c s]; [discriminate|]. unfold tidy in T.
  apply andb_prop in T as [T F]. apply andb_prop in T as [_ V].
  unfold tidy, free_of in *. cbn [append last_char Str.all] in *.
  rewrite V, F. reflexivity.
Qed.

Lemma remove_first_none (t s : string) :
  Str.includes s t = false -> Str.remove_first t s = s.
Proof.
  induction s as [|c s IH]; cbn [Str.includes]; intros H;
    apply orb_false_elim in H as [P I]; rewrite remove_first_eq, P.
  - reflexivity.
  - now rewrite IH.
Qed.

Lemma remove_first_inside (a b : string) :
  free_of ":" a = true -> Str.remove_first "::ffff:" (a ++ "::ffff:" ++ b) = a ++ b.
Proof.
  unfold free_of. induction a as [|c a IH]; intros H.
  - exact (remove_first_mapped "::ffff:" b).
  - cbn [Str.all] in H. apply andb_prop in H as [Hc Ha].
    change (String c a ++ "::ffff:" ++ b) with (String c (a ++ "::ffff:" ++ b)).
    assert (P : prefix "::ffff:" (String c (a ++ "::ffff:" ++ b)) = false).
    { cbn [prefix]. destruct (ascii_dec ":" c) as [<-|Hne]; [discriminate | reflexivity]. }
    rewrite remove_first_eq, P, IH by exact Ha. reflexivity.
Qed.

Lemma resolve_any_header (q f r : option string) (hdr : string) :
  absent q = true -> hdr <> "" ->
  f = Some hdr \/ (absent f = true /\ r = Some hdr) ->
  resolve {| method := "GET"; query_ip := q; x_forwarded_for := f; x_real_ip := r |}
  = Str.remove_first "::ffff:" (Str.trim (before "," hdr)).
Proof.
  intros Hq Hh Hf. rewrite (resolve_header q f r hdr Hq Hh Hf).
  now rewrite first_entry.
Qed.

(** X4.  Without an [ip] parameter the address is made from X-Forwarded-For
    whenever that header is not empty, whether or not it holds an address,
    and from X-Real-IP only when X-Forwarded-For is absent or empty; without
    both it is 8.8.8.8, and an empty [ip] parameter counts as none.  The
    address is what stands before the first comma of the header, trimmed,
    with the first [::ffff:] taken out wherever it stands.  So for an entry
    that begins and ends with a visible character and has spaces around it,
    the address is the entry without its first [::ffff:], whatever follows
    the comma and whatever X-Real-IP holds: a dotted quad, also behind
    [::ffff:], resolves to itself, and a word resolves to the word. *)
Theorem forwarded_address
    (header core rest : string) (n m : nat) (real : option string) :
  header <> "" -> tidy core = true ->
  let cleaned := Str.remove_first "::ffff:" (Str.trim (before "," header)) in
  let padded := spaces n ++ core ++ spaces m in
  resolve (header_request (Some header) real) = cleaned
  /\ resolve (header_request None (Some header)) = cleaned
  /\ resolve (header_request (Some "") (Some header)) = cleaned
  /\ resolve {| method := "GET"; query_ip := Some "";
                x_forwarded_for := Some header; x_real_ip := real |} = cleaned
  /\ resolve (header_request None None) = "8.8.8.8"
  /\ resolve (header_request (Some "") None) = "8.8.8.8"
  /\ resolve (header_request None (Some "")) = "8.8.8.8"
  /\ resolve (header_request (Some "") (Some "")) = "8.8.8.8"
  /\ before "," (padded ++ "," ++ rest) = padded
  /\ before "," padded = padded
  /\ Str.trim padded = core
  /\ resolve (header_request (Some (padded ++ "," ++ rest)) real)
     = Str.remove_first "::ffff:" core
  /\ resolve (header_request (Some padded) real) = Str.remove_first "::ffff:" core
  /\ resolve (header_request None (Some (padded ++ "," ++ rest)))
     = Str.remove_first "::ffff:" core
  /\ (Str.includes core "::ffff:" = false -> Str.remove_first "::ffff:" core = core)
  /\ (forall a b, core = a ++ "::ffff:" ++ b -> free_of ":" a = true ->
        Str.remove_first "::ffff:" core = a ++ b)
  /\ (forall ip, test ipRegex ip = true ->
        tidy ip = true /\ tidy ("::ffff:" ++ ip) = true
        /\ Str.remove_first "::ffff:" ip = ip
        /\ Str.remove_first "::ffff:" ("::ffff:" ++ ip) = ip).
Proof.
  intros Hh Ht cleaned padded.
  assert (F : free_of "," padded = true).
  { unfold padded. rewrite !free_of_app, (tidy_free core Ht), !free_of_spaces
      by reflexivity. reflexivity. }
  assert (N : forall u, padded ++ u <> "").
  { intros u. apply nonempty_by_length. unfold padded. rewrite !length_app.
    destruct core; [discriminate Ht | simpl; lia]. }
  assert (B1 : before "," (padded ++ "," ++ rest) = padded) by now apply before_app.
  assert (B2 : before "," padded = padded) by now apply before_free.
  assert (T : Str.trim padded = core) by now apply trim_tidy.
  unfold header_request.
  split; [now apply resolve_any_header; [| |left]|].
  split; [now apply resolve_any_header; [| |right]|].
  split; [now apply resolve_any_header; [| |right]|].
  split; [now apply resolve_any_header; [| |left]|].
  split; [reflexivity|]. split; [reflexivity|]. split; [reflexivity|].
  split; [reflexivity|].
  split; [exact B1|]. split; [exact B2|]. split; [exact T|].
  split.
  { rewrite (resolve_any_header _ _ _ (padded ++ "," ++ rest));
      [| reflexivity | apply N | now left].
    now rewrite B1, T. }
  split.
  { rewrite (resolve_any_header _ _ _ padded); [| reflexivity | | now left].
    - now rewrite B2, T.
    - rewrite <- (append_empty_r padded). apply N. }
  split.
  { rewrite (resolve_any_header _ _ _ (padded ++ "," ++ rest));
      [| reflexivity | apply N | now right].
    now rewrite B1, T. }
  split; [apply remove_first_none|].
  split; [intros a b -> Ha; now apply remove_first_inside|].
  intros ip Hv. split; [now apply valid_tidy|]. split; [now apply mapped_tidy|].
  split.
  - apply remove_first_plain. now apply valid_chars.
  - apply remove_first_mapped.
Qed.

Lemma forwarded_address_witness :
  resolve (header_request (Some "  ::ffff:203.0.113.7 , 10.0.0.1, 10.0.0.2") None)
  = "203.0.113.7"
  /\ resolve (header_request (Some "unknown") (Some "1.2.3.4")) = "unknown"
  /\ resolve (header_request (Some " , 1.2.3.4") (Some "1.2.3.4")) = ""
  /\ resolve (header_request (Some "1.2.3::ffff:.4") None) = "1.2.3.4".
Proof.
  split; [|split; [|split]].
  - assert (N : "x" <> "") by discriminate.
    destruct (forwarded_address "x" "::ffff:203.0.113.7" " 10.0.0.1, 10.0.0.2" 2 1 None
                N eq_refl) as (_ & _ & _ & _ & _ & _ & _ & _ & _ & _ & _ & H & _).
    exact H.
  - assert (N : "unknown" <> "") by discriminate.
    destruct (forwarded_address "unknown" "unknown" "" 0 0 (Some "1.2.3.4")
                N eq_refl) as (_ & _ & _ & _ & _ & _ & _ & _ & _ & _ & _ & _ & H & _).
    exact H.
  - assert (N : " , 1.2.3.4" <> "") by discriminate.
    destruct (forwarded_address " , 1.2.3.4" "x" "" 0 0 (Some "1.2.3.4")
                N eq_refl) as (H & _).
    exact H.
  - assert (N : "x" <> "") by discriminate.
    destruct (forwarded_address "x" "1.2.3::ffff:.4" "" 0 0 None N eq_refl)
      as (_ & _ & _ & _ & _ & _ & _ & _ & _ & _ & _ & _ & H & _).
    exact H.
Defined.

Lemma all_spaces (n : nat) : Str.all address_char (spaces n) = true -> n = 0%nat.
Proof. destruct n; [reflexivity | discriminate]. Qed.

(** X5.  The [ip] parameter is taken as it is and goes before the
    headers: an address with spaces around it is answered 400 when it
    comes as the parameter, although the same text is accepted when it
    comes in X-Forwarded-For. *)
Theorem query_parameter_is_verbatim
    (w : World) (ip : string) (n m : nat) (f r : option string) :
  test ipRegex ip = true -> (0 < n + m)%nat ->
  let padded := spaces n ++ ip ++ spaces m in
  let req := {| method := "GET"; query_ip := Some padded;
                x_forwarded_for := f; x_real_ip := r |} in
  resolve req = padded
  /\ handler w req = json 400 invalid_format
  /\ resolve (header_request (Some padded) r) = ip.
Proof.
  intros H Hnm padded req.
  assert (Hne : padded <> "").
  { apply nonempty_by_length. unfold padded. rewrite !length_app.
    destruct (valid_chars ip H) as [_ L]. lia. }
  assert (R : resolve req = padded).
  { unfold resolve, req. cbn [query_ip absent tmpl].
    apply String.eqb_neq in Hne. now rewrite Hne. }
  split; [exact R|]. split.
  - destruct (test ipRegex padded) eqn:V.
    + destruct (valid_chars padded V) as [A _]. unfold padded in A.
      rewrite !all_app in A. apply andb_prop in A as [A1 A].
      apply andb_prop in A as [_ A2].
      apply all_spaces in A1, A2. lia.
    + unfold handler, try_block. rewrite R, V. reflexivity.
  - now apply resolve_padded_header.
Qed.

Lemma query_parameter_is_verbatim_witness :
  handler (world_of (Ok (Some google))) (get_request " 8.8.8.8") = json 400 invalid_format
  /\ resolve (header_request (Some " 8.8.8.8") None) = "8.8.8.8".
Proof.
  destruct (query_parameter_is_verbatim (world_of (Ok (Some google))) "8.8.8.8" 1 0
              None None eq_refl (Nat.lt_0_succ 0)) as (_ & E & F).
  split; [exact E | exact F].
Defined.

(* ================================================================== *)
(** ** Further properties: the octet classifiers together *)

(** X6.  No address is in two of the three special ranges: private,
    reserved and bogon exclude one another on every input, so the order in
    which [assessRisk] asks never decides the label, and a reserved or a
    bogon address gets its own label without any side condition. *)
Theorem special_ranges_exclusive (ip : string) :
  (isPrivateIP ip = true -> isReservedIP ip = false /\ isBogonIP ip = false)
  /\ (isReservedIP ip = true ->
        isPrivateIP ip = false /\ isBogonIP ip = false
        /\ assessRisk ip = "🟡 Caution (Reserved IP)")
  /\ (isBogonIP ip = true ->
        isPrivateIP ip = false /\ isReservedIP ip = false
        /\ assessRisk ip = "🟡 Warning (Bogon IP)").
Proof.
  destruct (classifiers_disjoint ip) as (H1 & H2 & H3). unfold assessRisk.
  destruct (isPrivateIP ip), (isReservedIP ip), (isBogonIP ip);
    try discriminate; repeat split; intros; try discriminate; reflexivity.
Qed.

Lemma special_ranges_exclusive_witness :
  assessRisk "169.254.10.20" = "🟡 Warning (Bogon IP)"
  /\ assessRisk "240.0.0.1" = "🟡 Caution (Reserved IP)"
  /\ isBogonIP "172.20.0.1" = false.
Proof.
  split; [|split].
  - apply (special_ranges_exclusive "169.254.10.20"). reflexivity.
  - apply (special_ranges_exclusive "240.0.0.1"). reflexivity.
  - destruct (special_ranges_exclusive "172.20.0.1") as (P & _).
    apply (P eq_refl).
Defined.

(** X7.  The validator lets octets above 255 through, and such an address
    is then classified like a multicast or experimental one: when the
    first octet is above 255 the class is E, the address counts as
    reserved and not as private or bogon, the risk label is the reserved
    one and the recommendation is the reserved one. *)
Theorem out_of_range_first_octet (ip : string) :
  test ipRegex ip = true -> (255 < first_octet ip)%Z ->
  getIPType ip = "Class E 🔧 (Experimental)"
  /\ isReservedIP ip = true /\ isPrivateIP ip = false /\ isBogonIP ip = false
  /\ assessRisk ip = "🟡 Caution (Reserved IP)"
  /\ getSecurityRecommendations ip = ["⚠️ This IP range is reserved"].
Proof.
  intros H Ha.
  assert (T : getIPType ip = "Class E 🔧 (Experimental)").
  { rewrite (getIPType_valid ip H). unfold class_of. by_ranges. }
  assert (R : isReservedIP ip = true).
  { rewrite (isReservedIP_valid ip H). by_ranges. }
  assert (P : isPrivateIP ip = false).
  { rewrite (isPrivateIP_valid ip H). by_ranges. }
  assert (B : isBogonIP ip = false).
  { rewrite (isBogonIP_valid ip H). by_ranges. }
  unfold assessRisk, getSecurityRecommendations. rewrite P, R.
  repeat split; assumption.
Qed.

Lemma out_of_range_first_octet_witness :
  test ipRegex "999.999.999.999" = true
  /\ assessRisk "999.999.999.999" = "🟡 Caution (Reserved IP)".
Proof.
  split; [reflexivity|].
  apply (out_of_range_first_octet "999.999.999.999" eq_refl). reflexivity.
Defined.

Lemma classifyNetwork_valid (ip : string) :
  test ipRegex ip = true ->
  classifyNetwork ip =
    if (first_octet ip <=? 127)%Z then "Large network 🏢 (16M+ hosts)"
    else if (first_octet ip <=? 191)%Z then "Medium network 🏢 (65K hosts)"
    else "Small network 🏠 (254 hosts)".
Proof.
  intros H. destruct (valid_octets ip H) as (c & d & _ & _ & _ & _ & _ & _ & E).
  unfold classifyNetwork. now rewrite E.
Qed.

Lemma classifyNetworkSize_valid (ip : string) :
  test ipRegex ip = true ->
  classifyNetworkSize ip =
    if (first_octet ip =? 10)%Z then "Very Large 🏢 (Private)"
    else if (first_octet ip <=? 127)%Z then "Massive 🌐 (16M hosts)"
    else if (first_octet ip <=? 191)%Z then "Large 🏢 (65K hosts)"
    else "Small 🏠 (254 hosts)".
Proof.
  intros H. destruct (valid_octets ip H) as (c & d & _ & _ & _ & _ & _ & _ & E).
  unfold classifyNetworkSize. now rewrite E.
Qed.

(** X8.  On a validated address the network type follows the class: it is
    the large network exactly for Class A, the medium one exactly for
    Class B and the small one for the classes C, D and E.  The network
    size says "Private" exactly when the first octet is 10, so an address
    of the private ranges 172.16.0.0/12 and 192.168.0.0/16 is private for
    [isPrivateIP] but gets an ordinary size label. *)
Theorem network_labels_follow_class (ip : string) :
  test ipRegex ip = true ->
  (classifyNetwork ip = "Large network 🏢 (16M+ hosts)"
   <-> getIPType ip = "Class A 🏢 (Large networks)")
  /\ (classifyNetwork ip = "Medium network 🏢 (65K hosts)"
      <-> getIPType ip = "Class B 🏢 (Medium networks)")
  /\ (classifyNetwork ip = "Small network 🏠 (254 hosts)"
      <-> In (getIPType ip) ["Class C 🏠 (Small networks)"; "Class D 📡 (Multicast)";
                             "Class E 🔧 (Experimental)"])
  /\ (classifyNetworkSize ip = "Very Large 🏢 (Private)" <-> first_octet ip = 10%Z)
  /\ (isPrivateIP ip = true -> first_octet ip <> 10%Z ->
      In (classifyNetworkSize ip) ["Large 🏢 (65K hosts)"; "Small 🏠 (254 hosts)"]).
Proof.
  intros H.
  rewrite (classifyNetwork_valid ip H), (classifyNetworkSize_valid ip H),
    (getIPType_valid ip H), (isPrivateIP_valid ip H).
  unfold class_of. set (a := first_octet ip). set (b := second_octet ip).
  repeat split; cbn [In];
    repeat match goal with
      | |- context [(?x =? ?y)%Z] => destruct (Z.eqb_spec x y)
      | |- context [(?x <=? ?y)%Z] => destruct (Z.leb_spec x y)
      end;
    cbn; intros; try lia; try discriminate; try tauto;
    repeat match goal with
      | H : _ \/ _ |- _ => destruct H
      | H : False |- _ => destruct H
      end; try discriminate; auto.
Qed.

Lemma network_labels_follow_class_witness :
  test ipRegex "192.168.1.10" = true
  /\ isPrivateIP "192.168.1.10" = true
  /\ In (classifyNetworkSize "192.168.1.10") ["Large 🏢 (65K hosts)"; "Small 🏠 (254 hosts)"].
Proof.
  split; [reflexivity|]. split; [reflexivity|].
  apply (network_labels_follow_class "192.168.1.10" eq_refl); [reflexivity | discriminate].
Defined.

(* ================================================================== *)
(** ** Further properties: the latitude labels *)

Lemma SFltb_trans (a b c : spec_float) :
  SFltb a b = true -> SFltb b c = true -> SFltb a c = true.
Proof.
  unfold SFltb, SFcompare.
  destruct a as [sa|sa| |sa ma ea], b as [sb|sb| |sb mb eb], c as [sc|sc| |sc mc ec];
    try discriminate;
    try destruct sa; try destruct sb; try destruct sc;
    try discriminate; try reflexivity;
    rewrite !Pos.compare_cont_spec; cbn [Pos.switch_Eq];
    destruct (Z.compare_spec ea eb), (Z.compare_spec eb ec), (Z.compare_spec ea ec);
    try discriminate; try reflexivity; try lia;
    destruct (Pos.compare_spec ma mb), (Pos.compare_spec mb mc), (Pos.compare_spec ma mc);
    cbn; try discriminate; try reflexivity; lia.
Qed.

Lemma ltb_below (x c1 c2 : float) :
  (c1 <? c2)%float = true -> (x <? c1)%float = true -> (x <? c2)%float = true.
Proof.
  rewrite !ltb_spec. intros H12 H1. exact (SFltb_trans _ _ _ H1 H12).
Qed.

Lemma falsy_num_cases (lat : option float) :
  falsy_num lat = true <->
  lat = None \/ exists x, lat = Some x /\ ((x =? 0)%float = true \/ (x =? x)%float = false).
Proof.
  unfold falsy_num, of_num, truthy, truthy_num, is_nan. destruct lat as [x|]; cbn.
  - rewrite negb_involutive, orb_true_iff, negb_true_iff. split.
    + intros H. right. now exists x.
    + intros [H | (y & E & H)]; [discriminate | now injection E as <-].
  - split; [now left | reflexivity].
Qed.

(** X9.  Each of the three latitude labels is "Unknown" exactly when the
    latitude is taken for missing by the guard [!lat], that is when it is
    absent, zero (of either sign) or NaN; every other latitude gets a
    band or a hemisphere. *)
Theorem latitude_unknown_iff_falsy (lat : option float) :
  (getHemisphere lat = "Unknown" <-> falsy_num lat = true)
  /\ (calculateDistanceFromEquator lat = "Unknown" <-> falsy_num lat = true)
  /\ (getClimateZone lat = "Unknown" <-> falsy_num lat = true)
  /\ (falsy_num lat = true <->
      lat = None
      \/ exists x, lat = Some x /\ ((x =? 0)%float = true \/ (x =? x)%float = false)).
Proof.
  split; [|split; [|split; [|apply falsy_num_cases]]];
    unfold getHemisphere, calculateDistanceFromEquator, getClimateZone;
    destruct (falsy_num lat); (split; [|reflexivity || discriminate]);
    try reflexivity;
    repeat match goal with
      | |- context [if ?b then _ else _] => destruct b
      end; discriminate.
Qed.

Lemma latitude_unknown_iff_falsy_witness :
  calculateDistanceFromEquator (Some 0%float) = "Unknown"
  /\ getClimateZone None = "Unknown".
Proof.
  split.
  - apply (latitude_unknown_iff_falsy (Some 0%float)). reflexivity.
  - apply (latitude_unknown_iff_falsy None). reflexivity.
Defined.

Lemma float_trichotomy (x : float) :
  (x <? 0)%float = true \/ (0 <? x)%float = true
  \/ (x =? 0)%float = true \/ (x =? x)%float = false.
Proof.
  rewrite !ltb_spec, !eqb_spec. change (Prim2SF 0) with (S754_zero false).
  destruct (Prim2SF x) as [s|s| |s m e]; cbn; auto; destruct s; auto.
Qed.

(** X10.  The hemisphere of every number: southern below zero (down to
    minus infinity), northern above zero, "Unknown" at zero and at NaN;
    these four cases cover every number. *)
Theorem hemisphere_of_every_number (x : float) :
  ((x <? 0)%float = true -> getHemisphere (Some x) = "Southern 🌍")
  /\ ((0 <? x)%float = true -> getHemisphere (Some x) = "Northern 🌎")
  /\ ((x =? 0)%float = true \/ (x =? x)%float = false ->
      getHemisphere (Some x) = "Unknown")
  /\ ((x <? 0)%float = true \/ (0 <? x)%float = true
      \/ (x =? 0)%float = true \/ (x =? x)%float = false).
Proof.
  unfold getHemisphere, falsy_num, of_num, truthy, truthy_num, is_nan, the_num.
  split; [|split; [|split; [|apply float_trichotomy]]].
  - intros H. apply negative_latitude in H as (-> & -> & ->). reflexivity.
  - intros H. apply positive_latitude in H as (-> & -> & ->). reflexivity.
  - intros [-> | ->]; [reflexivity|]. cbn. now rewrite orb_true_r.
Qed.

Lemma hemisphere_of_every_number_witness :
  getHemisphere (Some (-0.5)%float) = "Southern 🌍"
  /\ getHemisphere (Some infinity) = "Northern 🌎"
  /\ getHemisphere (Some nan) = "Unknown".
Proof.
  split; [|split].
  - apply (hemisphere_of_every_number (-0.5)%float). reflexivity.
  - apply (hemisphere_of_every_number infinity). reflexivity.
  - apply (hemisphere_of_every_number nan). right. reflexivity.
Defined.

Lemma abs_opp (x : float) : abs (- x) = abs x.
Proof.
  apply Prim2SF_inj. rewrite !abs_spec, opp_spec.
  now destruct (Prim2SF x).
Qed.

Lemma falsy_opp (x : float) : falsy_num (Some (- x)%float) = falsy_num (Some x).
Proof.
  unfold falsy_num, of_num, truthy, truthy_num, is_nan.
  rewrite !eqb_spec, !opp_spec. change (Prim2SF 0) with (S754_zero false).
  destruct (Prim2SF x) as [s|s| |s m e]; try destruct s; try reflexivity;
    cbn [SFopp negb]; now rewrite !SFeqb_self_finite.
Qed.

(** X11.  The distance band and the climate zone depend on the distance
    from the equator only: a latitude and its opposite get the same two
    labels, and unless the hemisphere is "Unknown" they get opposite
    hemispheres. *)
Theorem latitude_labels_mirror (x : float) :
  calculateDistanceFromEquator (Some (- x)%float) = calculateDistanceFromEquator (Some x)
  /\ getClimateZone (Some (- x)%float) = getClimateZone (Some x)
  /\ (getHemisphere (Some x) = "Northern 🌎" ->
      getHemisphere (Some (- x)%float) = "Southern 🌍")
  /\ (getHemisphere (Some x) = "Southern 🌍" ->
      getHemisphere (Some (- x)%float) = "Northern 🌎").
Proof.
  unfold calculateDistanceFromEquator, getClimateZone, getHemisphere.
  rewrite falsy_opp. cbn [the_num]. rewrite abs_opp.
  split; [reflexivity|]. split; [reflexivity|].
  unfold falsy_num, of_num, truthy, truthy_num, is_nan.
  rewrite !leb_spec, !eqb_spec, opp_spec. change (Prim2SF 0) with (S754_zero false).
  destruct (Prim2SF x) as [s|s| |s m e]; try destruct s; cbn [SFopp negb];
    rewrite ?SFeqb_self_finite; cbn; split; intros; try discriminate; reflexivity.
Qed.

Lemma latitude_labels_mirror_witness :
  getHemisphere (Some (- 48.5)%float) = "Southern 🌍".
Proof.
  apply (latitude_labels_mirror 48.5%float). reflexivity.
Defined.

(** X12.  The two band scales fit together: the distance band is the
    polar one exactly when the climate zone is the polar one (both start
    at 60 degrees), a latitude near the equator (below 10) is in the
    tropical climate zone, and a latitude of the temperate climate zone
    (from 35 up to 60) is in the temperate distance band. *)
Theorem latitude_bands_fit (lat : option float) :
  (calculateDistanceFromEquator lat = "Polar zone ❄️" <-> getClimateZone lat = "Polar ❄️")
  /\ (calculateDistanceFromEquator lat = "Near equator 🌴" ->
      getClimateZone lat = "Tropical 🌴")
  /\ (getClimateZone lat = "Temperate 🌸" ->
      calculateDistanceFromEquator lat = "Temperate zone 🌸").
Proof.
  unfold calculateDistanceFromEquator, getClimateZone.
  destruct (falsy_num lat); [repeat split; discriminate|].
  set (d := abs (the_num lat)).
  pose proof (ltb_below d 10 23.5 eq_refl) as H1.
  pose proof (ltb_below d 10 60 eq_refl) as H2.
  pose proof (ltb_below d 30 35 eq_refl) as H3.
  pose proof (ltb_below d 30 60 eq_refl) as H4.
  pose proof (ltb_below d 23.5 60 eq_refl) as H5.
  pose proof (ltb_below d 35 60 eq_refl) as H6.
  pose proof (ltb_below d 10 30 eq_refl) as H7.
  pose proof (ltb_below d 10 35 eq_refl) as H8.
  destruct (d <? 10)%float; [specialize (H1 eq_refl); specialize (H2 eq_refl);
                             rewrite H1 |];
    destruct (d <? 30)%float; try (specialize (H3 eq_refl); specialize (H4 eq_refl));
    destruct (d <? 23.5)%float; try specialize (H5 eq_refl);
    destruct (d <? 35)%float; try specialize (H6 eq_refl);
    destruct (d <? 60)%float;
    repeat split; intros; try discriminate; try reflexivity;
    repeat match goal with
      | H : true = true -> false = true |- _ => specialize (H eq_refl)
      end; discriminate.
Qed.

Lemma latitude_bands_fit_witness :
  getClimateZone (Some 7.25%float) = "Tropical 🌴"
  /\ calculateDistanceFromEquator (Some (-51.5)%float) = "Temperate zone 🌸".
Proof.
  split.
  - apply (latitude_bands_fit (Some 7.25%float)). reflexivity.
  - apply (latitude_bands_fit (Some (-51.5)%float)). reflexivity.
Defined.

(* ================================================================== *)
(** ** Further properties: the provider labels *)

Lemma prefix_spec (t s : string) : prefix t s = true <-> exists b, s = t ++ b.
Proof.
  revert s. induction t as [|c t IH]; intros s.
  - split; [now exists s | now destruct s].
  - destruct s as [|x s]; simpl.
    + split; [discriminate | intros (b & E); discriminate].
    + destruct (ascii_dec c x) as [->|Hne].
      * rewrite IH. split; intros (b & E); exists b; [now rewrite E | now injection E].
      * split; [discriminate | intros (b & E); injection E; congruence].
Qed.

Lemma includes_spec (s t : string) :
  Str.includes s t = true <-> exists a b, s = a ++ t ++ b.
Proof.
  induction s as [|c s IH]; cbn [Str.includes]; rewrite orb_true_iff, prefix_spec.
  - split.
    + intros [(b & E) | H]; [now exists "", b | discriminate].
    + intros (a & b & E). left. destruct a; [now exists b | discriminate].
  - rewrite IH. split.
    + intros [(b & E) | (a & b & E)]; [now exists "", b|].
      exists (String c a), b. now rewrite E.
    + intros (a & b & E). destruct a as [|x a].
      * left. now exists b.
      * right. injection E as _ E. now exists a, b.
Qed.

Lemma includes_trans (s t u : string) :
  Str.includes s t = true -> Str.includes t u = true -> Str.includes s u = true.
Proof.
  rewrite !includes_spec. intros (a & b & ->) (a' & b' & ->).
  exists (a ++ a'), (b' ++ b). now rewrite !append_assoc.
Qed.

Lemma includes_false_mono (s t u : string) :
  Str.includes t u = true -> Str.includes s u = false -> Str.includes s t = false.
Proof.
  intros Htu Hsu. destruct (Str.includes s t) eqn:E; [|reflexivity].
  now rewrite (includes_trans s t u E Htu) in Hsu.
Qed.

(** X13.  Some keywords of the provider tests can never decide: a name
    containing "t-mobile" contains "mobile", one containing "verizon
    wireless" contains "wireless", one containing "google cloud" contains
    "cloud", one containing "government" contains "gov".  So the mobile
    answer is Yes exactly for the names with mobile, wireless, cellular or
    vodafone, the hosting answer is Yes exactly for the names with host,
    server, data center, cloud, amazon, digitalocean or vultr, and the
    government label is decided by "gov" alone. *)
Theorem redundant_keywords (isp : string) :
  isp <> "" ->
  let name := Str.toLowerCase isp in
  isMobileCarrier (Some isp)
  = (if contains_any name ["mobile"; "wireless"; "cellular"; "vodafone"]
     then "📱 Yes" else "❌ No")
  /\ isHostingProvider (Some isp)
     = (if contains_any name ["host"; "server"; "data center"; "cloud"; "amazon";
                              "digitalocean"; "vultr"]
        then "🏢 Yes" else "❌ No")
  /\ (classifyISP (Some isp) = "🏛️ Government" ->
      Str.includes name "gov" = true).
Proof.
  intros Hne name. apply String.eqb_neq in Hne.
  unfold isMobileCarrier, isHostingProvider, classifyISP, absent, tmpl, contains_any.
  rewrite Hne. fold name. cbn [existsb].
  pose proof (includes_false_mono name "t-mobile" "mobile" eq_refl) as M1.
  pose proof (includes_false_mono name "verizon wireless" "wireless" eq_refl) as M2.
  pose proof (includes_false_mono name "google cloud" "cloud" eq_refl) as M3.
  pose proof (includes_false_mono name "government" "gov" eq_refl) as M4.
  split; [|split].
  - destruct (Str.includes name "mobile"); [reflexivity|]. rewrite (M1 eq_refl).
    destruct (Str.includes name "wireless"); [reflexivity|]. rewrite (M2 eq_refl).
    now rewrite !orb_false_r.
  - destruct (Str.includes name "cloud").
    + now rewrite !orb_true_r.
    + rewrite (M3 eq_refl). reflexivity.
  - destruct (Str.includes name "gov"); [reflexivity|]. rewrite (M4 eq_refl).
    cbn [orb].
    repeat match goal with
      | |- context [if ?b then _ else _] => destruct b
      end; discriminate.
Qed.

Lemma redundant_keywords_witness :
  isMobileCarrier (Some "T-Mobile USA") = "📱 Yes"
  /\ isHostingProvider (Some "Google Cloud") = "🏢 Yes".
Proof.
  split.
  - destruct (redundant_keywords "T-Mobile USA" ltac:(discriminate)) as (E & _).
    exact E.
  - destruct (redundant_keywords "Google Cloud" ltac:(discriminate)) as (_ & E & _).
    exact E.
Defined.

(** X14.  The service type agrees with the two yes/no fields on the mobile
    and the hosting side: a name classified as a mobile carrier gets Yes
    as mobile carrier, a name classified as a hosting provider gets Yes as
    hosting provider, and the three are "Unknown" together, exactly when
    the provider name is missing or empty. *)
Theorem provider_labels_agree (isp : option string) :
  (classifyISP isp = "📱 Mobile Carrier" -> isMobileCarrier isp = "📱 Yes")
  /\ (classifyISP isp = "🏢 Hosting Provider" -> isHostingProvider isp = "🏢 Yes")
  /\ (classifyISP isp = "Unknown" <-> absent isp = true)
  /\ (isMobileCarrier isp = "Unknown" <-> absent isp = true)
  /\ (isHostingProvider isp = "Unknown" <-> absent isp = true).
Proof.
  unfold classifyISP, isMobileCarrier, isHostingProvider.
  destruct (absent isp).
  - repeat split; intros; try discriminate; reflexivity.
  - cbn [existsb]. set (name := Str.toLowerCase (tmpl isp)).
    repeat split; intros H; try discriminate H;
      repeat match type of H with
        | context [if ?b then _ else _] =>
            let E := fresh "E" in destruct b eqn:E; try discriminate H
        end;
      repeat match goal with
        | E : (_ || _)%bool = true |- _ => apply orb_prop in E as [E | E]
        end;
      try match goal with
        | E : Str.includes _ _ = true |- _ =>
            rewrite E; cbn [orb]; rewrite ?orb_true_r; reflexivity
        end.
Qed.

Lemma provider_labels_agree_witness :
  isMobileCarrier (Some "Verizon Wireless") = "📱 Yes"
  /\ isHostingProvider (Some "Example Hosting Ltd") = "🏢 Yes".
Proof.
  split.
  - apply (provider_labels_agree (Some "Verizon Wireless")). reflexivity.
  - apply (provider_labels_agree (Some "Example Hosting Ltd")). reflexivity.
Defined.

Lemma map_empty (f : ascii -> ascii) (s : string) : (Str.map f s =? "") = (s =? "").
Proof. now destruct s. Qed.

Lemma lower_upper (c : ascii) : Str.lower (Str.upper c) = Str.lower c.
Proof. destruct c as [[] [] [] [] [] [] [] []]; reflexivity. Qed.

Lemma lower_lower (c : ascii) : Str.lower (Str.lower c) = Str.lower c.
Proof. destruct c as [[] [] [] [] [] [] [] []]; reflexivity. Qed.

Lemma map_map (f g : ascii -> ascii) (s : string) :
  Str.map f (Str.map g s) = Str.map (fun c => f (g c)) s.
Proof. induction s as [|c s IH]; simpl; congruence. Qed.

Lemma map_ext (f g : ascii -> ascii) (s : string) :
  (forall c, f c = g c) -> Str.map f s = Str.map g s.
Proof. intros H. induction s as [|c s IH]; simpl; congruence. Qed.

Lemma same_lower_same_labels (isp isp' : string) :
  Str.toLowerCase isp = Str.toLowerCase isp' ->
  classifyISP (Some isp) = classifyISP (Some isp')
  /\ isMobileCarrier (Some isp) = isMobileCarrier (Some isp')
  /\ isHostingProvider (Some isp) = isHostingProvider (Some isp').
Proof.
  intros E.
  assert (A : absent (Some isp) = absent (Some isp')).
  { cbn [absent]. unfold Str.toLowerCase in E.
    now rewrite <- (map_empty Str.lower isp), E, map_empty. }
  unfold classifyISP, isMobileCarrier, isHostingProvider.
  rewrite A. cbn [tmpl]. rewrite E. repeat split.
Qed.

(** X15.  The three provider tests do not see the case of letters: for a
    name of ASCII characters, the name in upper case and the name in lower
    case get the service type, the mobile answer and the hosting answer
    of the name itself. *)
Theorem provider_labels_ignore_case (isp : string) :
  ascii_only isp = true ->
  (classifyISP (Some (Str.toUpperCase isp)) = classifyISP (Some isp)
   /\ isMobileCarrier (Some (Str.toUpperCase isp)) = isMobileCarrier (Some isp)
   /\ isHostingProvider (Some (Str.toUpperCase isp)) = isHostingProvider (Some isp))
  /\ (classifyISP (Some (Str.toLowerCase isp)) = classifyISP (Some isp)
      /\ isMobileCarrier (Some (Str.toLowerCase isp)) = isMobileCarrier (Some isp)
      /\ isHostingProvider (Some (Str.toLowerCase isp)) = isHostingProvider (Some isp)).
Proof.
  intros _. split; apply same_lower_same_labels; unfold Str.toLowerCase, Str.toUpperCase;
    rewrite map_map; apply map_ext; [apply lower_upper | apply lower_lower].
Qed.

Lemma provider_labels_ignore_case_witness :
  classifyISP (Some "COMCAST CABLE") = classifyISP (Some "Comcast Cable").
Proof.
  apply (provider_labels_ignore_case "Comcast Cable"). reflexivity.
Defined.

(* ================================================================== *)
(** ** Further properties: the tables and the notes *)

Lemma assoc_strs (k : string) (l : list (string * string)) :
  assoc k (strs l) = option_map VStr (assoc k l).
Proof.
  induction l as [|[k' v] l IH]; [reflexivity|].
  cbn. destruct (k =? k'); [reflexivity | exact IH].
Qed.

Lemma assoc_forall {A : Type} (p : A -> bool) (k : string) (l : list (string * A)) (v : A) :
  forallb (fun kv => p (snd kv)) l = true -> assoc k l = Some v -> p v = true.
Proof.
  induction l as [|[k' x] l IH]; [discriminate|].
  cbn. intros H. apply andb_prop in H as [Hx Hl].
  destruct (k =? k'); [intros E; now injection E as <- | now apply IH].
Qed.

Lemma inherited_truthy (k : string) :
  truthy (inherited k) = inherited_name k.
Proof.
  unfold inherited, inherited_name.
  destruct (k =? "__proto__"); [reflexivity|].
  now destruct (existsb (String.eqb k) prototype_methods).
Qed.

(** A table of non-empty texts with a non-empty default: the answer is the
    entry of the key, else what the key inherits, else the default. *)
Lemma table_lookup (l : list (string * string)) (dflt : string) (key : option string) :
  forallb (fun kv => negb (snd kv =? "")) l = true -> (dflt =? "") = false ->
  let answer := or_else (lookup (strs l) key) (VStr dflt) in
  truthy answer = true
  /\ (forall v, assoc (tmpl key) l = Some v -> answer = VStr v)
  /\ (assoc (tmpl key) l = None -> inherited_name (tmpl key) = false ->
      answer = VStr dflt)
  /\ (inherited_name (tmpl key) = false -> is_text answer = true).
Proof.
  intros Hl Hd answer. unfold answer, or_else, lookup. rewrite assoc_strs.
  destruct (assoc (tmpl key) l) as [v|] eqn:E; cbn [option_map].
  - pose proof (assoc_forall (fun s => negb (s =? "")) _ _ _ Hl E) as Hv.
    cbn beta in Hv. change (truthy (VStr v)) with (negb (v =? "")). rewrite Hv.
    split; [exact Hv|]. split; [|split].
    + intros v' E'. now injection E' as <-.
    + discriminate.
    + intros _. exact Hv.
  - rewrite inherited_truthy. destruct (inherited_name (tmpl key)) eqn:I.
    + split; [now rewrite inherited_truthy|]. split; [discriminate|].
      split; discriminate.
    + cbn [truthy is_text]. rewrite Hd. repeat split; try discriminate; reflexivity.
Qed.

Lemma assoc_none {A : Type} (p : string -> bool) (k : string) (l : list (string * A)) :
  forallb (fun kv => negb (p (fst kv))) l = true -> p k = true -> assoc k l = None.
Proof.
  intros Hl Hk. induction l as [|[k' v] l IH]; [reflexivity|].
  cbn [forallb fst] in Hl. apply andb_prop in Hl as [Hk' Hl]. cbn [assoc].
  destruct (String.eqb_spec k k') as [<-|_].
  - now rewrite Hk in Hk'.
  - now apply IH.
Qed.

(** A table none of whose keys is an inherited name: for an inherited name
    the answer is the inherited property, which is not a text. *)
Lemma table_lookup_inherited (l : list (string * string)) (dflt : string)
    (key : option string) :
  forallb (fun kv => negb (inherited_name (fst kv))) l = true ->
  inherited_name (tmpl key) = true ->
  let answer := or_else (lookup (strs l) key) (VStr dflt) in
  answer = inherited (tmpl key) /\ is_text answer = false.
Proof.
  intros Hl I answer. unfold answer, or_else, lookup. rewrite assoc_strs.
  rewrite (assoc_none inherited_name _ _ Hl I). cbn [option_map].
  rewrite inherited_truthy, I. split; [reflexivity|].
  unfold inherited, inherited_name in *.
  destruct (tmpl key =? "__proto__"); [reflexivity|].
  cbn [orb] in I. now rewrite I.
Qed.

(** X16.  The five look-ups by country code never answer nothing: for
    every code, present or not, each of the five gives a value that is not
    empty.  It is a non-empty text unless the code is the name of a
    property that object literals inherit (such as "constructor" or
    "toString"); for such a code each of the five finds the inherited
    property instead of its default, and answers that property, which is
    not a text. *)
Theorem country_lookups_fail_soft (countryCode : option string) :
  Forall (fun answer =>
            truthy answer = true
            /\ (inherited_name (tmpl countryCode) = false -> is_text answer = true)
            /\ (inherited_name (tmpl countryCode) = true ->
                answer = inherited (tmpl countryCode) /\ is_text answer = false))
    [getContinent countryCode; getLanguages countryCode; getCurrencyInfo countryCode;
     getCallingCode countryCode; getRegionalEmoji countryCode].
Proof.
  unfold getContinent, getLanguages, getCurrencyInfo, getCallingCode, getRegionalEmoji.
  repeat apply Forall_cons; try apply Forall_nil;
    match goal with
    | |- context [or_else (lookup (strs ?l) _) (VStr ?d)] =>
        destruct (table_lookup l d countryCode eq_refl eq_refl) as (T & _ & _ & S);
        pose proof (table_lookup_inherited l d countryCode eq_refl) as I
    end; (split; [exact T|]); (split; [exact S | exact I]).
Qed.

Lemma country_lookups_fail_soft_witness :
  Forall (fun answer => answer = VFun "constructor")
    [getContinent (Some "constructor"); getLanguages (Some "constructor");
     getCurrencyInfo (Some "constructor"); getCallingCode (Some "constructor");
     getRegionalEmoji (Some "constructor")]
  /\ getLanguages (Some "toString") = VFun "toString"
  /\ getCallingCode (Some "__proto__") = VObj [].
Proof.
  split; [|split].
  - apply (Forall_impl _ (P := fun answer =>
             truthy answer = true
             /\ (inherited_name "constructor" = false -> is_text answer = true)
             /\ (inherited_name "constructor" = true ->
                 answer = inherited "constructor" /\ is_text answer = false))).
    + intros a (_ & _ & H). exact (proj1 (H eq_refl)).
    + exact (country_lookups_fail_soft (Some "constructor")).
  - pose proof (country_lookups_fail_soft (Some "toString")) as H.
    apply Forall_inv_tail, Forall_inv in H. exact (proj1 (proj2 (proj2 H) eq_refl)).
  - pose proof (country_lookups_fail_soft (Some "__proto__")) as H.
    do 3 apply Forall_inv_tail in H. apply Forall_inv in H.
    exact (proj1 (proj2 (proj2 H) eq_refl)).
Defined.

(** X17.  The special notes are never empty and never more than four; the
    note for a standard public address is there exactly when no other
    note applies, and then it is the only one; the notes for the United
    States and for China never come together. *)
Theorem special_notes_shape (ip : string) (ipData : GeoRecord) :
  let notes := getSpecialNotes ip ipData in
  (1 <= List.length notes <= 4)%nat
  /\ (In standard_note notes <-> notes = [standard_note])
  /\ (notes = [standard_note] <->
      isPrivateIP ip = false
      /\ isp_includes ipData "Google" = false /\ isp_includes ipData "Amazon" = false
      /\ geo_country ipData <> Some "United States"
      /\ geo_country ipData <> Some "China")
  /\ ~ (In "🇺🇸 US-based infrastructure" notes /\ In "🇨🇳 China-based infrastructure" notes).
Proof.
  unfold getSpecialNotes, standard_note.
  assert (C : str_is (geo_country ipData) "United States" = true ->
              str_is (geo_country ipData) "China" = true -> False).
  { unfold str_is. destruct (geo_country ipData) as [c|]; [|discriminate].
    intros A B. apply String.eqb_eq in A, B. congruence. }
  assert (U : str_is (geo_country ipData) "United States" = true
              <-> geo_country ipData = Some "United States").
  { unfold str_is. destruct (geo_country ipData) as [c|].
    - rewrite String.eqb_eq. split; congruence.
    - split; discriminate. }
  assert (K : str_is (geo_country ipData) "China" = true
              <-> geo_country ipData = Some "China").
  { unfold str_is. destruct (geo_country ipData) as [c|].
    - rewrite String.eqb_eq. split; congruence.
    - split; discriminate. }
  destruct (isPrivateIP ip), (isp_includes ipData "Google"),
    (isp_includes ipData "Amazon"),
    (str_is (geo_country ipData) "United States") eqn:EU,
    (str_is (geo_country ipData) "China") eqn:EK;
    try (exfalso; now apply C);
    cbn; (split; [lia|]); (split; [|split]);
    try (split; intros H;
         repeat match goal with
           | H : _ \/ _ |- _ => destruct H
           | H : _ /\ _ |- _ => destruct H
           | H : False |- _ => destruct H
           end; try discriminate; try congruence; auto;
         try (repeat split; try discriminate; try reflexivity;
              intros F; apply U in F || apply K in F; discriminate));
    try (exfalso; match goal with
                  | H : ?x <> ?x |- _ => now apply H
                  | H : _ <> _ |- _ => apply H; now (apply U || apply K)
                  end);
    try (intros [A B];
         repeat match goal with
           | H : _ \/ _ |- _ => destruct H
           | H : False |- _ => destruct H
           end; discriminate).
Qed.

(* ================================================================== *)
(** ** Further properties: the success payload as a whole *)

Lemma success_body (w : World) (req : Request) (d : GeoRecord) (t : string) :
  method req = "GET" -> test ipRegex (resolve req) = true ->
  axios_get w (url_of req) = Ok (Some d) -> geo_status d = Some "success" ->
  date_toLocaleString w (geo_timezone d) = Ok t ->
  exists info,
    handler w req = json 200 info /\ completeInfo w (resolve req) d = Ok info.
Proof.
  intros Hm Hv Ha Hs Ht. rewrite (handler_get w req Hm Hv), Ha.
  cbn [bind data_of]. rewrite (str_is_true _ _ Hs). cbn [negb].
  destruct (completeInfo_ok w (resolve req) d t Ht) as (info & E).
  rewrite E. cbn [bind]. now exists info.
Qed.

Lemma populated_of_str (x : option string) : populated (of_str x) = is_some x.
Proof. now destruct x. Qed.

Lemma populated_of_num (x : option float) : populated (of_num x) = is_some x.
Proof. now destruct x. Qed.

Lemma populated_arr (l : list string) : populated (arr l) = true.
Proof.
  unfold arr. cbn [populated]. induction l as [|x l IH]; [reflexivity|]. exact IH.
Qed.

Lemma populated_inherited (k : string) (dflt : value) :
  populated dflt = true -> populated (or_else (inherited k) dflt) = true.
Proof.
  intros H. unfold or_else, inherited.
  destruct (k =? "__proto__"); [reflexivity|].
  destruct (existsb (String.eqb k) prototype_methods); [reflexivity | exact H].
Qed.

Lemma populated_lookup (table : list (string * value)) (key : option string) (dflt : value) :
  forallb (fun kv => populated (snd kv)) table = true -> populated dflt = true ->
  populated (or_else (lookup table key) dflt) = true.
Proof.
  intros Ht Hd. unfold lookup.
  destruct (assoc (tmpl key) table) as [v|] eqn:E.
  - pose proof (assoc_forall populated _ _ _ Ht E) as Hv.
    unfold or_else. now destruct (truthy v).
  - now apply populated_inherited.
Qed.

Lemma forallb_strs (l : list (string * string)) :
  forallb (fun kv => populated (snd kv)) (strs l) = true.
Proof. induction l as [|[k v] l IH]; [reflexivity | exact IH]. Qed.

Lemma populated_tables (c : option string) :
  populated (getContinent c) = true /\ populated (getLanguages c) = true
  /\ populated (getCurrencyInfo c) = true /\ populated (getCallingCode c) = true
  /\ populated (getRegionalEmoji c) = true.
Proof.
  unfold getContinent, getLanguages, getCurrencyInfo, getCallingCode, getRegionalEmoji.
  repeat split; apply populated_lookup; (apply forallb_strs || reflexivity).
Qed.

Lemma populated_landmarks (country city : option string) :
  populated (getFamousLandmarks country city) = true.
Proof.
  unfold getFamousLandmarks. destruct (absent country); [reflexivity|].
  apply populated_lookup; reflexivity.
Qed.

Lemma populated_network_range (x : option string) :
  populated (if absent x then VStr "Unknown"
             else of_str (at_index (Str.split " " (tmpl x)) 0)) = true.
Proof.
  destruct (absent x); [reflexivity|].
  pose proof (split_not_nil " " (tmpl x)) as H.
  now destruct (Str.split " " (tmpl x)).
Qed.

Lemma populated_nth (l : list string) (i : nat) :
  populated (of_str (nth_error l i)) = (i <? List.length l)%nat.
Proof.
  revert i. induction l as [|x l IH]; intros [|i]; try reflexivity.
  exact (IH i).
Qed.

Lemma populated_fact (w : World) (d : GeoRecord) :
  populated (getRandomFunFact w d) = (random_index w <? 8)%nat.
Proof. unfold getRandomFunFact, at_index. now rewrite populated_nth. Qed.

(** X18.  When the payload is fully populated: for a GET request with a
    valid address, a success record and a time that can be formatted, the
    payload holds no [undefined] exactly when the record has all twelve
    fields that are copied without a default (status, countryCode,
    regionName, city, zip, lat, lon, timezone, offset, isp, org, as) and
    the random pick is one of the eight facts. *)
Theorem populated_iff_complete (w : World) (req : Request) (d : GeoRecord) (t : string) :
  method req = "GET" -> test ipRegex (resolve req) = true ->
  axios_get w (url_of req) = Ok (Some d) -> geo_status d = Some "success" ->
  date_toLocaleString w (geo_timezone d) = Ok t ->
  exists info,
    handler w req = json 200 info
    /\ populated info = complete d && (random_index w <? 8)%nat.
Proof.
  intros Hm Hv Ha Hs Ht.
  destruct (success_body w req d t Hm Hv Ha Hs Ht) as (info & E & C).
  exists info. split; [exact E|].
  unfold completeInfo, steps, step3 in C. rewrite Ht in C. cbn [bind] in C.
  injection C as <-.
  destruct (populated_tables (geo_countryCode d)) as (T1 & T2 & T3 & T4 & T5).
  unfold step1, step2, step4, step5, step6, step7, step8, step9, step10, summary,
    quick_links, complete.
  cbn [populated forallb].
  rewrite !populated_of_str, !populated_of_num, !populated_arr, T1, T2, T3, T4, T5,
    populated_landmarks, populated_network_range, populated_fact.
  destruct (geo_status d); [|reflexivity].
  destruct (geo_countryCode d); [|reflexivity].
  destruct (geo_regionName d); [|reflexivity].
  destruct (geo_city d); [|reflexivity].
  destruct (geo_zip d); [|reflexivity].
  destruct (geo_lat d); [|reflexivity].
  destruct (geo_lon d); [|reflexivity].
  destruct (geo_timezone d); [|reflexivity].
  destruct (geo_offset d); [|reflexivity].
  destruct (geo_isp d); [|reflexivity].
  destruct (geo_org d); [|reflexivity].
  destruct (geo_as d); [|reflexivity].
  cbn. now rewrite !andb_true_r.
Qed.

Lemma populated_iff_complete_witness :
  exists info,
    handler (world_of (Ok (Some google))) (get_request "8.8.8.8") = json 200 info
    /\ populated info = true.
Proof.
  exact (populated_iff_complete (world_of (Ok (Some google))) (get_request "8.8.8.8")
           google "1/1/2024, 12:00:00 AM" eq_refl eq_refl eq_refl eq_refl eq_refl).
Defined.

(** X19.  The payload says the same thing where it says it twice: in every
    success response the security level of the summary is the risk
    assessment of section 4, the class of section 8 is the type of
    section 1, the continent of section 7 is that of section 2, the
    provider and the time zone of the summary are those of sections 5
    and 3, the map link of the quick links is that of the coordinates, and
    the address of section 1 is the requested address. *)
Theorem repeated_fields_agree (w : World) (req : Request) (info : value) :
  status (handler w req) = 200%nat -> body (handler w req) = Some info ->
  path ["summary"; "security_level"] info = path ["steps"; s4; "risk_assessment"] info
  /\ path ["steps"; s8; "ip_class"] info = path ["steps"; s1; "type"] info
  /\ path ["steps"; s7; "continent"] info = path ["steps"; s2; "continent"] info
  /\ path ["summary"; "isp"] info = path ["steps"; s5; "isp"] info
  /\ path ["summary"; "timezone"] info = path ["steps"; s3; "timezone"] info
  /\ path ["quick_links"; "view_on_map"] info
     = path ["steps"; s2; "coordinates"; "map_url"] info
  /\ path ["steps"; s1; "ip"] info = get "requested_ip" info
  /\ get "requested_ip" info = VStr (resolve req)
  /\ test ipRegex (resolve req) = true.
Proof.
  intros Hs Hb. destruct (success_payload w req info Hs Hb) as (d & Hv & _ & Hi).
  unfold completeInfo, steps, step3 in Hi.
  destruct (date_toLocaleString w _) as [t|e]; cbn [bind] in Hi; [|discriminate].
  injection Hi as <-. repeat split; try reflexivity. exact Hv.
Qed.

Lemma repeated_fields_agree_witness :
  exists info,
    body (handler (world_of (Ok (Some google))) (get_request "8.8.8.8")) = Some info
    /\ path ["summary"; "security_level"] info = path ["steps"; s4; "risk_assessment"] info.
Proof.
  destruct (success_body (world_of (Ok (Some google))) (get_request "8.8.8.8") google
              "1/1/2024, 12:00:00 AM" eq_refl eq_refl eq_refl eq_refl eq_refl)
    as (info & E & _).
  exists info.
  assert (B : body (handler (world_of (Ok (Some google))) (get_request "8.8.8.8"))
              = Some info) by (now rewrite E).
  assert (S : status (handler (world_of (Ok (Some google))) (get_request "8.8.8.8"))
              = 200%nat) by (now rewrite E).
  split; [exact B|].
  exact (proj1 (repeated_fields_agree _ _ info S B)).
Defined.

(** X20.  In every success response at most one of the three flags of the
    security section is "✅ Yes"; the risk assessment is the public label
    exactly when all three are "❌ No", and the private, the reserved and
    the bogon label exactly when the flag of that name is "✅ Yes". *)
Theorem security_flags_agree (w : World) (req : Request) (info : value) :
  status (handler w req) = 200%nat -> body (handler w req) = Some info ->
  let flag := fun name => path ["steps"; s4; name] info in
  let risk := path ["steps"; s4; "risk_assessment"] info in
  (In (flag "is_private") [yes; no] /\ In (flag "is_reserved") [yes; no]
   /\ In (flag "is_bogon") [yes; no])
  /\ ~ (flag "is_private" = yes /\ flag "is_reserved" = yes)
  /\ ~ (flag "is_private" = yes /\ flag "is_bogon" = yes)
  /\ ~ (flag "is_reserved" = yes /\ flag "is_bogon" = yes)
  /\ (risk = VStr "🟢 Safe (Private Network)" <-> flag "is_private" = yes)
  /\ (risk = VStr "🟡 Caution (Reserved IP)" <-> flag "is_reserved" = yes)
  /\ (risk = VStr "🟡 Warning (Bogon IP)" <-> flag "is_bogon" = yes)
  /\ (risk = VStr "🟡 Moderate (Public IP)" <->
      flag "is_private" = no /\ flag "is_reserved" = no /\ flag "is_bogon" = no).
Proof.
  intros Hs Hb. destruct (success_payload w req info Hs Hb) as (d & Hv & _ & Hi).
  unfold completeInfo, steps, step3 in Hi.
  destruct (date_toLocaleString w _) as [t|e]; cbn [bind] in Hi; [|discriminate].
  injection Hi as <-. intros flag risk.
  change (flag "is_private")
    with (VStr (if isPrivateIP (resolve req) then "✅ Yes" else "❌ No")).
  change (flag "is_reserved")
    with (VStr (if isReservedIP (resolve req) then "✅ Yes" else "❌ No")).
  change (flag "is_bogon")
    with (VStr (if isBogonIP (resolve req) then "✅ Yes" else "❌ No")).
  change risk with (VStr (assessRisk (resolve req))).
  clear flag risk. unfold assessRisk, yes, no.
  destruct (classifiers_disjoint (resolve req)) as (D1 & D2 & D3).
  destruct (isPrivateIP (resolve req)), (isReservedIP (resolve req)),
    (isBogonIP (resolve req)); try discriminate; cbn [In]; unfold not;
    repeat split; intros; try discriminate; try reflexivity; auto;
    repeat match goal with
      | H : _ /\ _ |- _ => destruct H
      end; try discriminate; try reflexivity; auto.
Qed.

Lemma security_flags_agree_witness :
  exists info,
    body (handler (world_of (Ok (Some google))) (get_request "127.0.0.1")) = Some info
    /\ path ["steps"; s4; "is_bogon"] info = yes
    /\ path ["steps"; s4; "risk_assessment"] info = VStr "🟡 Warning (Bogon IP)".
Proof.
  destruct (success_body (world_of (Ok (Some google))) (get_request "127.0.0.1") google
              "1/1/2024, 12:00:00 AM" eq_refl eq_refl eq_refl eq_refl eq_refl)
    as (info & E & C).
  exists info.
  assert (B : body (handler (world_of (Ok (Some google))) (get_request "127.0.0.1"))
              = Some info) by (now rewrite E).
  assert (S : status (handler (world_of (Ok (Some google))) (get_request "127.0.0.1"))
              = 200%nat) by (now rewrite E).
  split; [exact B|].
  destruct (security_flags_agree _ _ info S B) as (_ & _ & _ & _ & _ & _ & G & _).
  injection C as <-. split; [reflexivity|]. apply G. reflexivity.
Defined.

(** X21.  The network range is the first word of the AS description: when
    the reply's [as] field is a word without a space followed by a space
    and anything, the range is that word; when the field has no space at
    all, the range is the whole field; and a field that begins with a
    space gives an empty range. *)
Theorem network_range_is_first_word
    (w : World) (req : Request) (d : GeoRecord) (t : string) (word rest : string) :
  method req = "GET" -> test ipRegex (resolve req) = true ->
  axios_get w (url_of req) = Ok (Some d) -> geo_status d = Some "success" ->
  date_toLocaleString w (geo_timezone d) = Ok t ->
  free_of " " word = true ->
  exists info,
    handler w req = json 200 info
    /\ (geo_as d = Some (word ++ " " ++ rest) ->
        path ["steps"; s5; "network_range"] info = VStr word)
    /\ (geo_as d = Some word -> word <> "" ->
        path ["steps"; s5; "network_range"] info = VStr word).
Proof.
  intros Hm Hv Ha Hs Ht Hw.
  destruct (success_body w req d t Hm Hv Ha Hs Ht) as (info & E & C).
  exists info. split; [exact E|].
  unfold completeInfo, steps, step3 in C. rewrite Ht in C. cbn [bind] in C.
  injection C as <-.
  change (path ["steps"; s5; "network_range"] _)
    with (if absent (geo_as d) then VStr "Unknown"
          else of_str (at_index (Str.split " " (tmpl (geo_as d))) 0)).
  split.
  - intros ->. cbn [absent tmpl].
    destruct (String.eqb_spec (word ++ " " ++ rest) "") as [Z|_].
    + apply (f_equal length) in Z. rewrite length_app in Z. simpl in Z. lia.
    + change (word ++ " " ++ rest) with (word ++ String " " rest).
      now rewrite split_app.
  - intros -> Hne. cbn [absent tmpl]. apply String.eqb_neq in Hne. rewrite Hne.
    now rewrite split_free.
Qed.

Lemma network_range_is_first_word_witness :
  exists info,
    handler (world_of (Ok (Some google))) (get_request "8.8.8.8") = json 200 info
    /\ path ["steps"; s5; "network_range"] info = VStr "AS15169".
Proof.
  destruct (network_range_is_first_word (world_of (Ok (Some google)))
              (get_request "8.8.8.8") google "1/1/2024, 12:00:00 AM" "AS15169" "Google LLC"
              eq_refl eq_refl eq_refl eq_refl eq_refl eq_refl) as (info & E & R & _).
  exists info. split; [exact E | exact (R eq_refl)].
Defined.

(* ================================================================== *)
(** ** Further properties: the flag conversion *)

Lemma fromCodePoint_ok (cps : list N) :
  (N.of_nat (List.length cps) <= Unicode.max_arguments)%N ->
  Forall (fun cp => (cp <= 1114111)%N) cps ->
  Unicode.fromCodePoint cps = Ok (String.concat "" (List.map Unicode.encode cps)).
Proof.
  intros L H. unfold Unicode.fromCodePoint.
  apply N.leb_le in L. rewrite L.
  replace (forallb (fun cp => (cp <=? 1114111)%N) cps) with true; [reflexivity|].
  symmetry. apply forallb_forall. intros cp Hin.
  apply N.leb_le. rewrite Forall_forall in H. now apply H.
Qed.

Lemma upper_upper (c : ascii) : Str.upper (Str.upper c) = Str.upper c.
Proof. destruct c as [[] [] [] [] [] [] [] []]; reflexivity. Qed.

Lemma upper_lower (c : ascii) : Str.upper (Str.lower c) = Str.upper c.
Proof. destruct c as [[] [] [] [] [] [] [] []]; reflexivity. Qed.

Lemma upper_ascii (c : ascii) :
  (nat_of_ascii c <? 128)%nat = true -> (nat_of_ascii (Str.upper c) <? 128)%nat = true.
Proof. destruct c as [[] [] [] [] [] [] [] []]; intros H; (exact H || reflexivity). Qed.

Lemma toUpperCase_ascii (s : string) :
  ascii_only s = true -> ascii_only (Str.toUpperCase s) = true.
Proof.
  unfold ascii_only, Str.toUpperCase. induction s as [|c s IH]; [reflexivity|].
  cbn [Str.all Str.map]. intros H. apply andb_prop in H as [Hc Hs].
  now rewrite (upper_ascii c Hc), IH.
Qed.

Lemma map_length (f : ascii -> ascii) (s : string) : length (Str.map f s) = length s.
Proof. induction s as [|c s IH]; simpl; congruence. Qed.

Lemma codes_length (s : string) : List.length (codes s) = length s.
Proof. induction s as [|c s IH]; simpl; congruence. Qed.

Lemma N_of_ascii_nat (c : ascii) : N_of_ascii c = N.of_nat (nat_of_ascii c).
Proof. unfold nat_of_ascii. now rewrite Nnat.N2Nat.id. Qed.

(** The code units of a text of ASCII characters are its bytes. *)
Lemma utf16_units_ascii (s : string) :
  ascii_only s = true -> Unicode.utf16_units s = codes s.
Proof.
  unfold ascii_only, Unicode.utf16_units. induction s as [|c s IH]; [reflexivity|].
  cbn [Str.all]. intros H. apply andb_prop in H as [Hc Hs].
  apply Nat.ltb_lt in Hc.
  assert (B : (N_of_ascii c < 128)%N) by (rewrite N_of_ascii_nat; lia).
  cbn [Unicode.decode codes]. apply N.ltb_lt in B. rewrite B. apply N.ltb_lt in B.
  cbn [flat_map]. unfold Unicode.units_of at 1.
  destruct (N.ltb_spec (N_of_ascii c) 65536); [|lia].
  cbn [app]. now rewrite IH.
Qed.

Lemma codes_bound (s : string) : Forall (fun u => (u < 256)%N) (codes s).
Proof.
  induction s as [|c s IH]; [constructor|].
  cbn [codes]. constructor; [apply N_ascii_bounded | exact IH].
Qed.

(** X22.  On a text of ASCII characters with no more characters than a call
    takes arguments, the conversion of [getCountryFlag] does not fail:
    every character code of the text in upper case, moved by 127397, is a
    code point that [String.fromCodePoint] accepts, and the flag is these
    code points in a row.  A value that is not a string has no
    [toUpperCase], so that the conversion throws and the [catch] branch
    gives the placeholder.  The case of the letters does not matter: a
    code in lower case gets the flag of the code in upper case. *)
Theorem flag_conversion_total (s : string) :
  ascii_only s = true -> (N.of_nat (length s) <= Unicode.max_arguments)%N ->
  let flag :=
    String.concat ""
      (List.map (fun code => Unicode.encode (127397 + code)) (codes (Str.toUpperCase s))) in
  flag_glyph (VStr s) = Ok flag
  /\ (s <> "" -> getCountryFlag (VStr s) = flag)
  /\ (forall v, (forall s', v <> VStr s') ->
        (exists e, flag_glyph v = Thrown e) /\ getCountryFlag v = "🏴")
  /\ getCountryFlag (VStr (Str.toUpperCase s)) = getCountryFlag (VStr s)
  /\ getCountryFlag (VStr (Str.toLowerCase s)) = getCountryFlag (VStr s).
Proof.
  intros A L flag.
  assert (T : flag_glyph (VStr s) = Ok flag).
  { unfold flag_glyph. cbn [call_toUpperCase bind].
    rewrite (utf16_units_ascii _ (toUpperCase_ascii s A)).
    rewrite fromCodePoint_ok.
    - unfold flag. now rewrite List.map_map.
    - rewrite List.length_map, codes_length. unfold Str.toUpperCase.
      now rewrite map_length.
    - pose proof (codes_bound (Str.toUpperCase s)) as H.
      induction H as [|u l Hu _ IH]; [constructor|].
      cbn [List.map]. constructor; [lia | exact IH]. }
  assert (G : forall x y, Str.toUpperCase x = Str.toUpperCase y ->
                getCountryFlag (VStr x) = getCountryFlag (VStr y)).
  { intros x y E. unfold getCountryFlag, flag_glyph. cbn [truthy call_toUpperCase bind].
    rewrite E. replace (x =? "") with (y =? ""); [reflexivity|].
    unfold Str.toUpperCase in E.
    now rewrite <- (map_empty Str.upper y), <- E, map_empty. }
  split; [exact T|]. split; [|split; [|split]].
  - intros Hne. unfold getCountryFlag. rewrite T. cbn [truthy].
    apply String.eqb_neq in Hne. now rewrite Hne.
  - intros v H. unfold getCountryFlag, flag_glyph.
    destruct v as [| | b | x | s0 | items | fields | name];
      try (now destruct (H s0));
      (split; [eexists; reflexivity | now destruct (negb (truthy _))]).
  - apply G. unfold Str.toUpperCase. rewrite map_map. apply map_ext, upper_upper.
  - apply G. unfold Str.toUpperCase, Str.toLowerCase.
    rewrite map_map. apply map_ext, upper_lower.
Qed.

Lemma flag_conversion_total_witness :
  getCountryFlag (VStr "de") = getCountryFlag (VStr "DE")
  /\ getCountryFlag (VBool true) = "🏴"
  /\ flag_glyph (VStr "de") = Ok "🇩🇪".
Proof.
  assert (L : (N.of_nat (length "DE") <= Unicode.max_arguments)%N) by discriminate.
  assert (L' : (N.of_nat (length "de") <= Unicode.max_arguments)%N) by discriminate.
  destruct (flag_conversion_total "DE" eq_refl L) as (_ & _ & P & _ & C).
  destruct (flag_conversion_total "de" eq_refl L') as (F & _).
  split; [exact C|]. split; [|exact F].
  apply P. discriminate.
Defined.

(* ================================================================== *)
(** ** Further properties: what decides the answer *)

(** X23.  On validated addresses the octet classifiers are functions of
    the numbers of the first two groups: two addresses with the same first
    and second octet, however these are written (leading zeros) and
    whatever the last two octets, get the same class, the same three
    flags, the same risk label, the same recommendations and the same
    network labels; the class and the two network labels need the first
    octet only. *)
Theorem classifiers_read_two_octets (ip ip' : string) :
  test ipRegex ip = true -> test ipRegex ip' = true ->
  first_octet ip = first_octet ip' ->
  (getIPType ip = getIPType ip'
   /\ classifyNetwork ip = classifyNetwork ip'
   /\ classifyNetworkSize ip = classifyNetworkSize ip'
   /\ isReservedIP ip = isReservedIP ip')
  /\ (second_octet ip = second_octet ip' ->
      isPrivateIP ip = isPrivateIP ip' /\ isBogonIP ip = isBogonIP ip'
      /\ assessRisk ip = assessRisk ip'
      /\ getSecurityRecommendations ip = getSecurityRecommendations ip').
Proof.
  intros H H' E1.
  assert (R : isReservedIP ip = isReservedIP ip')
    by (now rewrite (isReservedIP_valid ip H), (isReservedIP_valid ip' H'), E1).
  split.
  - rewrite (getIPType_valid ip H), (getIPType_valid ip' H'),
      (classifyNetwork_valid ip H), (classifyNetwork_valid ip' H'),
      (classifyNetworkSize_valid ip H), (classifyNetworkSize_valid ip' H'), E1.
    now repeat split.
  - intros E2.
    assert (P : isPrivateIP ip = isPrivateIP ip')
      by (now rewrite (isPrivateIP_valid ip H), (isPrivateIP_valid ip' H'), E1, E2).
    assert (B : isBogonIP ip = isBogonIP ip')
      by (now rewrite (isBogonIP_valid ip H), (isBogonIP_valid ip' H'), E1, E2).
    unfold assessRisk, getSecurityRecommendations. rewrite P, R, B.
    now repeat split.
Qed.

Lemma classifiers_read_two_octets_witness :
  assessRisk "010.000.7.7" = assessRisk "10.0.0.1"
  /\ getIPType "010.000.7.7" = getIPType "10.0.0.1".
Proof.
  destruct (classifiers_read_two_octets "010.000.7.7" "10.0.0.1" eq_refl eq_refl eq_refl)
    as ((T & _) & S).
  split; [apply (S eq_refl) | exact T].
Defined.

(** X24.  The handler answers 200 with a payload exactly when the method is
    GET, the validator accepts the address, the geolocation call returns a
    body whose status is "success" and the current time can be formatted
    in the body's time zone; and it answers 500 exactly when, for a GET
    request with an accepted address, the call throws, or returns no body,
    or returns a success body whose time zone cannot be formatted. *)
Theorem answer_decided_by (w : World) (req : Request) :
  ((exists info, handler w req = json 200 info) <->
   method req = "GET" /\ test ipRegex (resolve req) = true
   /\ exists d t,
        axios_get w (url_of req) = Ok (Some d) /\ geo_status d = Some "success"
        /\ date_toLocaleString w (geo_timezone d) = Ok t)
  /\ (status (handler w req) = 500%nat <->
      method req = "GET" /\ test ipRegex (resolve req) = true
      /\ ((exists e, axios_get w (url_of req) = Thrown e)
          \/ axios_get w (url_of req) = Ok None
          \/ exists d e,
               axios_get w (url_of req) = Ok (Some d) /\ geo_status d = Some "success"
               /\ date_toLocaleString w (geo_timezone d) = Thrown e)).
Proof.
  assert (C : forall d, geo_status d = Some "success" ->
                (forall t, date_toLocaleString w (geo_timezone d) = Ok t ->
                           exists info, completeInfo w (resolve req) d = Ok info)
                /\ (forall e, date_toLocaleString w (geo_timezone d) = Thrown e ->
                              completeInfo w (resolve req) d = Thrown e)).
  { intros d _. split.
    - intros t Ht. now apply (completeInfo_ok w _ d t).
    - intros e He. unfold completeInfo, steps, step3. now rewrite He. }
  unfold handler, try_block. fold (url_of req).
  destruct (String.eqb_spec (method req) "OPTIONS") as [Ho|Ho].
  { split; split.
    - intros (info & E). discriminate E.
    - intros (Hg & _). rewrite Hg in Ho. discriminate Ho.
    - discriminate.
    - intros (Hg & _). rewrite Hg in Ho. discriminate Ho. }
  destruct (String.eqb_spec (method req) "GET") as [Hg|Hg]; cbn [negb].
  2:{ split; split; try discriminate; try (intros (F & _); contradiction).
      intros (info & E). discriminate E. }
  destruct (test ipRegex (resolve req)) eqn:V; cbn [negb].
  2:{ split; split; try discriminate; try (intros (_ & F & _); discriminate F).
      intros (info & E). discriminate E. }
  destruct (axios_get w (url_of req)) as [[d|]|e] eqn:A; cbn [bind data_of].
  - unfold str_is. destruct (geo_status d) as [s|] eqn:S.
    + destruct (String.eqb_spec s "success") as [->|Hs]; cbn [negb].
      * destruct (C d S) as [C1 C2].
        destruct (date_toLocaleString w (geo_timezone d)) as [t|e] eqn:T.
        -- destruct (C1 t eq_refl) as (info & E). rewrite E. cbn [bind].
           split; split.
           ++ intros _. repeat split; auto. now exists d, t.
           ++ intros _. now exists info.
           ++ discriminate.
           ++ intros (_ & _ & [(e & F) | [F | (d' & e & F & _ & Z)]]);
                try discriminate F. injection F as <-. congruence.
        -- rewrite (C2 e eq_refl). cbn [bind]. split; split.
           ++ intros (info & E). discriminate E.
           ++ intros (_ & _ & d' & t & F & _ & Z). injection F as <-. congruence.
           ++ intros _. repeat split; auto. right. right. now exists d, e.
           ++ reflexivity.
      * split; split.
        -- intros (info & E). discriminate E.
        -- intros (_ & _ & d' & t & F & S' & _). injection F as <-. congruence.
        -- discriminate.
        -- intros (_ & _ & [(e & F) | [F | (d' & e & F & S' & _)]]);
             try discriminate F. injection F as <-. congruence.
    + cbn [negb]. split; split.
      * intros (info & E). discriminate E.
      * intros (_ & _ & d' & t & F & S' & _). injection F as <-. congruence.
      * discriminate.
      * intros (_ & _ & [(e & F) | [F | (d' & e & F & S' & _)]]);
          try discriminate F. injection F as <-. congruence.
  - split; split.
    + intros (info & E). discriminate E.
    + intros (_ & _ & d' & t & F & _). discriminate F.
    + intros _. repeat split; auto.
    + reflexivity.
  - split; split.
    + intros (info & E). discriminate E.
    + intros (_ & _ & d' & t & F & _). discriminate F.
    + intros _. repeat split; auto. left. now exists e.
    + reflexivity.
Qed.

Lemma answer_decided_by_witness :
  (exists info,
      handler (world_of (Ok (Some google))) (get_request "8.8.8.8") = json 200 info)
  /\ status (handler (world_of (Ok None)) (get_request "8.8.8.8")) = 500%nat.
Proof.
  split.
  - apply (answer_decided_by (world_of (Ok (Some google))) (get_request "8.8.8.8")).
    split; [reflexivity|]. split; [reflexivity|].
    exists google, "1/1/2024, 12:00:00 AM". now repeat split.
  - apply (answer_decided_by (world_of (Ok None)) (get_request "8.8.8.8")).
    split; [reflexivity|]. split; [reflexivity|]. right. left. reflexivity.
Defined.

(* ================================================================== *)
(** ** The success payload, place by place *)

Lemma holes_of_str (x : option string) : holes (of_str x) = hole (lacks x) [].
Proof. now destruct x. Qed.

Lemma holes_of_num (x : option float) : holes (of_num x) = hole (lacks x) [].
Proof. now destruct x. Qed.

Lemma holes_arr (l : list string) : holes (arr l) = [].
Proof.
  unfold arr. cbn [holes]. change (forallb populated (List.map VStr l)) with
    (populated (arr l)). now rewrite populated_arr.
Qed.

Lemma holes_lookup (table : list (string * value)) (key : option string) (dflt : value) :
  Forall (fun kv => holes (snd kv) = []) table -> holes dflt = [] ->
  holes (or_else (lookup table key) dflt) = [].
Proof.
  intros Ht Hd. unfold lookup, or_else.
  destruct (assoc (tmpl key) table) as [v|] eqn:E.
  - assert (Hv : holes v = []).
    { clear Hd. induction Ht as [|[k x] l Hx _ IH]; [discriminate|].
      cbn [assoc] in E. destruct (tmpl key =? k); [now injection E as <- | now apply IH]. }
    now destruct (truthy v).
  - unfold inherited. destruct (tmpl key =? "__proto__"); [reflexivity|].
    destruct (existsb (String.eqb (tmpl key)) prototype_methods); [reflexivity | exact Hd].
Qed.

Lemma holes_strs (l : list (string * string)) :
  Forall (fun kv => holes (snd kv) = []) (strs l).
Proof. induction l as [|[k v] l IH]; constructor; [reflexivity | exact IH]. Qed.

Lemma holes_tables (c : option string) :
  holes (getContinent c) = [] /\ holes (getLanguages c) = []
  /\ holes (getCurrencyInfo c) = [] /\ holes (getCallingCode c) = []
  /\ holes (getRegionalEmoji c) = [].
Proof.
  unfold getContinent, getLanguages, getCurrencyInfo, getCallingCode, getRegionalEmoji.
  repeat split; apply holes_lookup; (apply holes_strs || reflexivity).
Qed.

Lemma holes_landmarks (country city : option string) :
  holes (getFamousLandmarks country city) = [].
Proof.
  unfold getFamousLandmarks. destruct (absent country); [reflexivity|].
  apply holes_lookup; [|apply holes_arr].
  repeat constructor; apply holes_arr.
Qed.

Lemma holes_network_range (x : option string) :
  holes (if absent x then VStr "Unknown"
         else of_str (at_index (Str.split " " (tmpl x)) 0)) = [].
Proof.
  destruct (absent x); [reflexivity|].
  pose proof (split_not_nil " " (tmpl x)) as H.
  now destruct (Str.split " " (tmpl x)).
Qed.

Lemma map_hole (k : string) (c : bool) (p : list string) :
  List.map (cons k) (hole c p) = hole c (k :: p).
Proof. now destruct c. Qed.

Lemma in_hole (c : bool) (p q : list string) :
  In q (hole c p) <-> c = true /\ p = q.
Proof.
  destruct c; cbn; split; try tauto; intros [F _]; discriminate.
Qed.

Lemma undefined_cons (p : list string) (v : value) (l : list (list string * value)) :
  List.map fst (filter (fun f => negb (populated (snd f))) ((p, v) :: l))
  = (hole (negb (populated v)) p
       ++ List.map fst (filter (fun f => negb (populated (snd f))) l))%list.
Proof. cbn. now destruct (populated v). Qed.

Lemma lacks_of_str (x : option string) : negb (populated (of_str x)) = lacks x.
Proof. now destruct x. Qed.

Lemma lacks_of_num (x : option float) : negb (populated (of_num x)) = lacks x.
Proof. now destruct x. Qed.

Lemma fact_out_of_range (i : nat) : negb (i <? 8)%nat = true <-> (8 <= i)%nat.
Proof.
  rewrite negb_true_iff, Nat.ltb_ge. reflexivity.
Qed.

(** The places of the composed payload that hold [undefined]. *)
Lemma holes_of_payload (w : World) (ip : string) (d : GeoRecord) (t : string) (info : value) :
  date_toLocaleString w (geo_timezone d) = Ok t ->
  completeInfo w ip d = Ok info ->
  forall p,
    In p (holes info) <->
    In p (undefined_copies d)
    \/ (p = ["steps"; "🔟 💡 Fun Facts & Trivia"] /\ (8 <= random_index w)%nat).
Proof.
  intros Ht C p. unfold completeInfo, steps, step3 in C. rewrite Ht in C.
  cbn [bind] in C. injection C as <-.
  destruct (holes_tables (geo_countryCode d)) as (T1 & T2 & T3 & T4 & T5).
  unfold step1, step2, step4, step5, step6, step7, step8, step9, step10, summary,
    quick_links, undefined_copies, copied.
  rewrite !undefined_cons, !lacks_of_str, !lacks_of_num.
  cbn [holes flat_map List.map app filter forallb populated andb].
  rewrite !holes_of_str, !holes_of_num, !holes_arr, T1, T2, T3, T4, T5,
    holes_landmarks, holes_network_range, populated_fact.
  repeat (rewrite ?map_app, ?map_hole, ?app_nil_r; cbn [List.map app]).
  rewrite !in_app_iff, !in_hole, andb_true_r, fact_out_of_range.
  assert (S : p = ["steps"; "🔟 💡 Fun Facts & Trivia"]
              <-> ["steps"; "🔟 💡 Fun Facts & Trivia"] = p) by (split; congruence).
  rewrite S. unfold s1, s2, s3, s6. cbn [In]. tauto.
Qed.

Lemma holes_populated (v : value) : holes v = [] <-> populated v = true.
Proof.
  revert v. fix IH 1.
  intros [| | b | x | s | items | fields | name]; cbn [holes populated];
    try (split; reflexivity).
  - split; discriminate.
  - destruct (forallb populated items); split; (reflexivity || discriminate).
  - induction fields as [|[k x] fields IHf]; cbn [flat_map forallb].
    + split; reflexivity.
    + split.
      * intros H. apply app_eq_nil in H as [H1 H2]. apply map_eq_nil in H1.
        apply IH in H1. apply IHf in H2. now rewrite H1, H2.
      * intros H. apply andb_prop in H as [H1 H2]. apply IH in H1. apply IHf in H2.
        now rewrite H1, H2.
Qed.

(** C7, as the specification states it, fails.  For the success record
    [bare], which carries no field but its status, the handler answers 200
    and the payload has ten sections, but the city of the geolocation
    section is [undefined], not a placeholder.  And for a success record
    whose time zone the runtime cannot format, no payload is composed: the
    handler answers 500. *)
Lemma payload_not_fully_populated :
  test ipRegex "8.8.8.8" = true
  /\ geo_status bare = Some "success"
  /\ geo_status google = Some "success"
  /\ (exists info,
        handler (world_of (Ok (Some bare))) (get_request "8.8.8.8") = json 200 info
        /\ List.length (keys (get "steps" info)) = 10%nat
        /\ path ["steps"; s2; "city"] info = VUndefined
        /\ populated info = false)
  /\ status (handler (world_without_zones (Ok (Some google))) (get_request "8.8.8.8"))
     = 500%nat.
Proof.
  split; [reflexivity|]. split; [reflexivity|]. split; [reflexivity|]. split.
  - eexists. split; [vm_compute; reflexivity|]. now vm_compute.
  - reflexivity.
Qed.

(** C7, amended.  For a GET request with a valid address and a success
    record, when the current time can be formatted in the record's time
    zone, the handler answers 200 with a payload that has the eight
    top-level keys, [requested_ip] equal to the address, exactly the ten
    sections under [steps], each with its fixed keys, a summary and the
    quick links.  Every field of [defaulted] holds its placeholder when the
    reply lacks what the field is made from; every text of [templated]
    spells a missing value as the word undefined; every field of [copied]
    holds what the reply has, [undefined] when it has nothing.  And the
    payload is populated everywhere else: the places that hold [undefined]
    are exactly the copied fields that the reply lacks, and the trivia when
    the random pick is not one of the eight facts. *)
Theorem payload_shape (w : World) (req : Request) (d : GeoRecord) (t : string) :
  method req = "GET" -> test ipRegex (resolve req) = true ->
  axios_get w (url_of req) = Ok (Some d) -> geo_status d = Some "success" ->
  date_toLocaleString w (geo_timezone d) = Ok t ->
  exists info,
    handler w req = json 200 info
    /\ keys info = ["success"; "message"; "requested_ip"; "timestamp"; "api_version";
                    "steps"; "summary"; "quick_links"]
    /\ get "requested_ip" info = VStr (resolve req)
    /\ keys (get "steps" info) = section_names
    /\ List.length (keys (get "steps" info)) = 10%nat
    /\ List.map (fun s => keys (path ["steps"; s] info)) section_names = section_keys
    /\ (exists facts, path ["steps"; "🔟 💡 Fun Facts & Trivia"] info = VArr facts
                      /\ List.length facts = 9%nat)
    /\ keys (get "summary" info)
       = ["location"; "isp"; "coordinates"; "timezone"; "security_level"; "status"]
    /\ keys (get "quick_links" info) = ["view_on_map"; "whois_lookup"; "speed_test"]
    /\ Forall (fun f => match f with (p, missing, placeholder) =>
                 missing = true -> path p info = VStr placeholder end) (defaulted d)
    /\ Forall (fun f => match f with (p, missing, text) =>
                 missing = true -> path p info = VStr text end) (templated d)
    /\ Forall (fun f => match f with (p, x) => path p info = x end) (copied d)
    /\ (forall p, In p (holes info) <->
          In p (undefined_copies d)
          \/ (p = ["steps"; "🔟 💡 Fun Facts & Trivia"] /\ (8 <= random_index w)%nat))
    /\ (holes info = [] <-> populated info = true).
Proof.
  intros Hm Hv Ha Hs Ht.
  destruct (success_body w req d t Hm Hv Ha Hs Ht) as (info & E & C).
  exists info. split; [exact E|].
  pose proof (holes_of_payload w (resolve req) d t info Ht C) as Hh.
  unfold completeInfo, steps, step3 in C. rewrite Ht in C. cbn [bind] in C.
  injection C as <-.
  split; [reflexivity|]. split; [reflexivity|]. split; [reflexivity|].
  split; [reflexivity|]. split; [reflexivity|].
  split; [eexists; split; reflexivity|].
  split; [reflexivity|]. split; [reflexivity|]. split; [|split; [|split; [|split]]].
  - unfold defaulted.
    repeat apply Forall_cons; try apply Forall_nil; intros H; read_field;
      try rewrite (or_str_absent _ _ H);
      unfold classifyISP, isMobileCarrier, isHostingProvider, estimateUsers,
        getFamousLandmarks, getHemisphere, calculateDistanceFromEquator,
        getClimateZone, getTimezoneEmoji;
      try (rewrite H; reflexivity);
      try (destruct (geo_countryCode d) as [[|c0 s0]|]; try discriminate H; reflexivity).
    + apply negb_true_iff in H. now rewrite H.
    + apply andb_prop in H as [H Hc]. apply andb_prop in H as [H1 H2].
      rewrite (or_str_absent _ _ H1), (or_str_absent _ _ H2).
      destruct (geo_countryCode d) as [[|c0 s0]|]; try discriminate Hc; reflexivity.
  - unfold templated.
    repeat apply Forall_cons; try apply Forall_nil; intros H; read_field;
      apply andb_prop in H as [H1 H2]; unfold map_url.
    + destruct (geo_country d); [discriminate H1|].
      destruct (geo_countryCode d) as [[|c0 s0]|]; try discriminate H2; reflexivity.
    + destruct (geo_lat d), (geo_lon d); try discriminate; reflexivity.
    + destruct (geo_lat d), (geo_lon d); try discriminate; reflexivity.
    + destruct (geo_lat d), (geo_lon d); try discriminate; reflexivity.
  - unfold copied. repeat constructor.
  - exact Hh.
  - apply holes_populated.
Qed.

Lemma payload_shape_witness :
  exists info,
    handler (world_of (Ok (Some bare))) (get_request "8.8.8.8") = json 200 info
    /\ get "requested_ip" info = VStr "8.8.8.8"
    /\ List.length (keys (get "steps" info)) = 10%nat
    /\ path ["steps"; s1; "reverse_dns"] info = VStr "Not available"
    /\ path ["steps"; s7; "currency"] info = VStr "Local currency 💵"
    /\ path ["summary"; "location"] info = VStr "Unknown, Unknown 🏴"
    /\ path ["summary"; "coordinates"] info = VStr "undefined, undefined"
    /\ path ["steps"; s2; "city"] info = VUndefined
    /\ (In ["steps"; s2; "city"] (holes info))
    /\ ~ In ["steps"; s1; "reverse_dns"] (holes info).
Proof.
  destruct (payload_shape (world_of (Ok (Some bare))) (get_request "8.8.8.8") bare
              "1/1/2024, 12:00:00 AM" eq_refl eq_refl eq_refl eq_refl eq_refl)
    as (info & E & _ & R & _ & L & _ & _ & _ & _ & D & T & C & H & _).
  rewrite Forall_forall in D, T, C.
  exists info. split; [exact E|]. split; [exact R|]. split; [exact L|].
  split.
  { apply (D (["steps"; s1; "reverse_dns"], true, "Not available"));
      [left; reflexivity | reflexivity]. }
  split.
  { apply (D (["steps"; s7; "currency"], true, "Local currency 💵"));
      [repeat (first [left; reflexivity | right]) | reflexivity]. }
  split.
  { apply (D (["summary"; "location"], true, "Unknown, Unknown 🏴"));
      [repeat (first [left; reflexivity | right]) | reflexivity]. }
  split.
  { apply (T (["summary"; "coordinates"], true, "undefined, undefined"));
      [repeat (first [left; reflexivity | right]) | reflexivity]. }
  split.
  { apply (C (["steps"; s2; "city"], VUndefined)).
    repeat (first [left; reflexivity | right]). }
  split.
  { apply H. left. repeat (first [left; reflexivity | right]). }
  intros I. apply H in I as [I | [I _]]; [|discriminate I].
  cbv in I. repeat (destruct I as [I | I]; [discriminate I|]). exact I.
Defined.
